(** * emmet.qchem.molecules: the molecules builder

    A shallow embedding of [emmet/qchem/molecules.py] and the
    properties of its conflict resolution, identity selection, provenance,
    document assembly, validation and change-set detection.

    Conventions of the embedding.
    - A Python call either returns or raises: [result A] is [exn + A], with
      [inl e] for a raised exception.
    - Numbers (quality scores, energies, timestamps) are integers of [Z].
      A finite binary64 value is an integer multiple of 2^-1074 and the
      builder only compares and negates these numbers, both of which are
      exact, so the order on [Z] is the order the code sees; NaN and the
      infinities are outside the model.
    - A [dict] is an association list in insertion order with hashable
      scalar keys, as Python dicts are.
    - A query of the task store is a criteria dict, one criterion per key;
      the store itself is outside the file, so a criterion is given by the
      test that the store makes of a task for it. *)

From Stdlib Require Import List String Ascii ZArith Bool Lia Permutation Sorted.
Import ListNotations.
Local Open Scope string_scope.
Local Open Scope Z_scope.
Local Open Scope list_scope.

Set Implicit Arguments.
Set Warnings "-register-all".

(** ** Exceptions and results *)

Inductive exn : Type :=
| IndexError | KeyError | NameError | TypeError | ValueError
| AttributeError | Exception_.

Definition result (A : Type) : Type := (exn + A)%type.

Definition ret {A} (a : A) : result A := inr a.
Definition raise {A} (e : exn) : result A := inl e.

Definition bind {A B} (m : result A) (f : A -> result B) : result B :=
  match m with
  | inl e => inl e
  | inr a => f a
  end.

Notation "x <- m ;; k" := (bind m (fun x => k))
  (at level 61, m at next level, right associativity).

(** A list comprehension whose element expression may raise: elements are
    evaluated left to right and the first exception escapes. *)
Fixpoint mapM {A B} (f : A -> result B) (l : list A) : result (list B) :=
  match l with
  | [] => ret []
  | x :: l' => y <- f x ;; ys <- mapM f l' ;; ret (y :: ys)
  end.

(** A [for] loop threading an accumulator through a body that may raise. *)
Fixpoint foldM {A S} (f : S -> A -> result S) (s : S) (l : list A) : result S :=
  match l with
  | [] => ret s
  | x :: l' => s' <- f s x ;; foldM f s' l'
  end.

(** ** Python values *)

(** Hashable scalars: what can be a task id or a dict key. *)
Inductive atom : Type :=
| ANone
| ABool (b : bool)
| AInt (z : Z)
| AStr (s : string).

Inductive pyval : Type :=
| PAtom (a : atom)
| PList (l : list pyval)
| PDict (d : list (atom * pyval)).

Coercion PAtom : atom >-> pyval.

Definition dict : Type := list (atom * pyval).

(** Python's [==] on hashable scalars: [True == 1] and [False == 0]. *)
Definition atom_eqb (a b : atom) : bool :=
  match a, b with
  | ANone, ANone => true
  | ABool x, ABool y => Bool.eqb x y
  | ABool x, AInt z | AInt z, ABool x => Z.eqb z (Z.b2z x)
  | AInt x, AInt y => Z.eqb x y
  | AStr x, AStr y => String.eqb x y
  | _, _ => false
  end.

(** [d.get(k)] as an option, [k in d], and [d[k] = v]. *)
Fixpoint dict_get (k : atom) (d : dict) : option pyval :=
  match d with
  | [] => None
  | (k', v) :: d' => if atom_eqb k k' then Some v else dict_get k d'
  end.

Definition dict_has (k : atom) (d : dict) : bool :=
  match dict_get k d with
  | Some _ => true
  | None => false
  end.

Fixpoint dict_set (k : atom) (v : pyval) (d : dict) : dict :=
  match d with
  | [] => [(k, v)]
  | (k', v') :: d' =>
      if atom_eqb k k' then (k', v) :: d' else (k', v') :: dict_set k v d'
  end.

(** A dict display [{k1: v1, ..., kn: vn}]: entries are stored left to right,
    a repeated key keeps its first position and its last value. *)
Definition dict_display (kvs : list (atom * pyval)) : dict :=
  fold_left (fun d kv => dict_set (fst kv) (snd kv) d) kvs [].

(** Truth value of a document, as [filter(None, ...)] tests it. *)
Definition truthy (d : dict) : bool :=
  match d with
  | [] => false
  | _ :: _ => true
  end.

(** ** Strings *)

(** [s.split(sep)] for a one-character separator. *)
Fixpoint split (sep : ascii) (s : string) : list string :=
  match s with
  | EmptyString => [EmptyString]
  | String c s' =>
      if Ascii.eqb c sep then EmptyString :: split sep s'
      else match split sep s' with
           | w :: ws => String c w :: ws
           | [] => [String c EmptyString]
           end
  end.

Definition is_space (c : ascii) : bool :=
  let n := N_of_ascii c in
  (((9 <=? n) && (n <=? 13)) || ((28 <=? n) && (n <=? 32)))%N.

Definition digit_of (c : ascii) : option Z :=
  let n := Z.of_N (N_of_ascii c) in
  if (48 <=? n) && (n <=? 57) then Some (n - 48) else None.

Fixpoint lstrip (l : list ascii) : list ascii :=
  match l with
  | c :: l' => if is_space c then lstrip l' else l
  | [] => []
  end.

Definition strip (l : list ascii) : list ascii :=
  rev (lstrip (rev (lstrip l))).

(** Decimal digits with single underscores between digits; [seen] tells
    whether the previous character was a digit. *)
Fixpoint digits (acc : Z) (seen : bool) (l : list ascii) : option Z :=
  match l with
  | [] => if seen then Some acc else None
  | c :: l' =>
      if Ascii.eqb c "_"%char then
        if seen then digits acc false l' else None
      else
        match digit_of c with
        | Some d => digits (10 * acc + d) true l'
        | None => None
        end
  end.

(** [int(s)] for a string in base ten: surrounding whitespace, an optional
    sign, digits with single underscores between them. Only ASCII digits and
    whitespace are recognised. *)
Definition py_int (s : string) : result Z :=
  let body := strip (list_ascii_of_string s) in
  let parse l :=
    match l with
    | c :: l' =>
        if Ascii.eqb c "+"%char then digits 0 false l'
        else if Ascii.eqb c "-"%char then option_map Z.opp (digits 0 false l')
        else digits 0 false l
    | [] => None
    end in
  match parse body with
  | Some z => ret z
  | None => raise ValueError
  end.

(** ** Task identifiers *)

(** What [ID_to_int] returns: a [(str, int)] tuple or the number itself. *)
Inductive id_key : Type :=
| KTuple (prefix : string) (number : Z)
| KNum (z : Z).

Definition ID_to_int (s_id : atom) : result id_key :=
  match s_id with
  | AStr s =>
      let parts := split "-" s in
      n <- py_int (last parts "") ;;
      ret (KTuple (hd "" parts) n)
  | AInt z => ret (KNum z)
  | ABool b => ret (KNum (Z.b2z b))
  | ANone => raise Exception_
  end.

Definition same_kind (a b : id_key) : bool :=
  match a, b with
  | KTuple _ _, KTuple _ _ => true
  | KNum _, KNum _ => true
  | _, _ => false
  end.

(** [a < b] on keys of one kind: tuples compare at their first differing
    component, numbers by value. Between a tuple and a number Python raises;
    [key_ltb] is only consulted on lists of one kind (see [sorted_by_ID]). *)
Definition key_ltb (a b : id_key) : bool :=
  match a, b with
  | KTuple p n, KTuple p' n' =>
      if String.eqb p p' then n <? n' else String.ltb p p'
  | KNum x, KNum y => x <? y
  | KTuple _ _, KNum _ => true
  | KNum _, KTuple _ _ => false
  end.

(** ** Sorting and grouping *)

Section Sorting.
Variable A : Type.
Variable lt : A -> A -> bool.

(** [insert x l] puts [x] in front of the first element that is not
    smaller than it, so that [x] stays ahead of the elements it ties
    with. *)
Fixpoint insert (x : A) (l : list A) : list A :=
  match l with
  | [] => [x]
  | y :: l' => if lt y x then y :: insert x l' else x :: l
  end.

(** The stable sort of [l] in ascending order of [lt], which is what
    [sorted(l, key=...)] returns on keys that compare. *)
Fixpoint sorted (l : list A) : list A :=
  match l with
  | [] => []
  | x :: l' => insert x (sorted l')
  end.

(** The first element of [l] that no element of [l] is smaller than. *)
Fixpoint first_min (l : list A) : option A :=
  match l with
  | [] => None
  | x :: l' =>
      match first_min l' with
      | Some m => if lt m x then Some m else Some x
      | None => Some x
      end
  end.
End Sorting.

(** [itertools.groupby(l, key)]: the maximal runs of consecutive elements
    with equal keys, each with its key. *)
Fixpoint groupby {A K} (eqb : K -> K -> bool) (key : A -> K) (l : list A)
  : list (K * list A) :=
  match l with
  | [] => []
  | x :: l' =>
      match groupby eqb key l' with
      | (k, g) :: rest =>
          if eqb (key x) k then (k, x :: g) :: rest
          else (key x, [x]) :: (k, g) :: rest
      | [] => [(key x, [x])]
      end
  end.

(** The distinct elements of [l], each at its first occurrence: the elements
    of [set(l)] and of a store's [distinct]. Python leaves the iteration
    order of a set open; nothing below depends on it. *)
Fixpoint distinct {A} (eqb : A -> A -> bool) (l : list A) : list A :=
  match l with
  | [] => []
  | x :: l' => x :: filter (fun y => negb (eqb x y)) (distinct eqb l')
  end.

(** [l[0]], [max(l)] and [min(l)]. *)
Definition first {A} (l : list A) : result A :=
  match l with
  | [] => raise IndexError
  | x :: _ => ret x
  end.

Definition py_max (l : list Z) : result Z :=
  match l with
  | [] => raise ValueError
  | x :: l' => ret (fold_left Z.max l' x)
  end.

Definition py_min (l : list Z) : result Z :=
  match l with
  | [] => raise ValueError
  | x :: l' => ret (fold_left Z.min l' x)
  end.

(** ** pydash paths

    Paths are dotted names. Bracket indices, escaped dots, attribute access
    on scalars and indexing into strings are outside the model. *)

Fixpoint contains (c : ascii) (s : string) : bool :=
  match s with
  | EmptyString => false
  | String c' s' => Ascii.eqb c c' || contains c s'
  end.

Definition nonempty (s : string) : bool :=
  match s with
  | EmptyString => false
  | String _ _ => true
  end.

Definition to_path_tokens (path : string) : list string :=
  if contains "." path then filter nonempty (split "." path) else [path].

(** [l[i]] for a Python index, negative ones counting from the end. *)
Definition index {A} (l : list A) (i : Z) : option A :=
  let n := Z.of_nat (List.length l) in
  if (0 <=? i) && (i <? n) then nth_error l (Z.to_nat i)
  else if (- n <=? i) && (i <? 0) then nth_error l (Z.to_nat (n + i))
  else None.

(** One step of a path: a dict is read at the string key, then at the
    integer the key spells; a list is read at that integer. *)
Definition base_get (v : pyval) (key : string) : option pyval :=
  match v with
  | PDict d =>
      match dict_get (AStr key) d with
      | Some x => Some x
      | None =>
          match py_int key with
          | inr z => dict_get (AInt z) d
          | inl _ => None
          end
      end
  | PList l =>
      match py_int key with
      | inr z => index l z
      | inl _ => None
      end
  | PAtom _ => None
  end.

Fixpoint lookup (tokens : list string) (v : pyval) : option pyval :=
  match tokens with
  | [] => Some v
  | key :: rest =>
      match base_get v key with
      | Some x => lookup rest x
      | None => None
      end
  end.

Definition has (obj : dict) (path : string) : bool :=
  match lookup (to_path_tokens path) (PDict obj) with
  | Some _ => true
  | None => false
  end.

Definition get (obj : dict) (path : string) : pyval :=
  match lookup (to_path_tokens path) (PDict obj) with
  | Some x => x
  | None => PAtom ANone
  end.

(** [set_] along the tokens of a path: a missing step is created as a dict,
    an existing dict is entered, anything else in the way cannot take the
    key. An empty token list stores under [None]. *)
Fixpoint set_tokens (tokens : list string) (v : pyval) (d : dict) : result dict :=
  match tokens with
  | [] => ret (dict_set ANone v d)
  | [key] => ret (dict_set (AStr key) v d)
  | key :: rest =>
      match dict_get (AStr key) d with
      | None =>
          sub <- set_tokens rest v [] ;;
          ret (dict_set (AStr key) (PDict sub) d)
      | Some (PDict sub) =>
          sub' <- set_tokens rest v sub ;;
          ret (dict_set (AStr key) (PDict sub') d)
      | Some _ => raise AttributeError
      end
  end.

Definition set_ (obj : dict) (path : string) (v : pyval) : result dict :=
  set_tokens (to_path_tokens path) v obj.

(** ** Records *)

(** One entry of the settings table. *)
Module Rule.
Record t : Type := {
  molecules_key : string;
  tasks_key : string;
  quality_score : list (string * Z);
  optional : bool;
  track : bool;
  aggregate : bool
}.
End Rule.

(** A task document: the entries the builder reads by name, and the
    document itself ([doc]) for the paths of the settings table. *)
Module Task.
Record t : Type := {
  task_id : atom;
  orig : pyval;
  state : string;
  formula_pretty : string;
  last_updated : Z;
  energy : option Z;
  initial_molecule : option pyval;
  doc : dict
}.
End Task.

(** A candidate property, the dict built by [task_to_prop_list]. *)
Module Cand.
Record t : Type := {
  value : pyval;
  task_type : string;
  task_id : atom;
  quality_score : Z;
  track : bool;
  aggregate : bool;
  last_updated : Z;
  energy : Z;
  molecules_key : string
}.

(** [prop[k]] for a key given at run time. *)
Definition item (k : string) (p : t) : result pyval :=
  if String.eqb k "value" then ret (value p)
  else if String.eqb k "task_type" then ret (PAtom (AStr (task_type p)))
  else if String.eqb k "task_id" then ret (PAtom (task_id p))
  else if String.eqb k "quality_score" then ret (PAtom (AInt (quality_score p)))
  else if String.eqb k "track" then ret (PAtom (ABool (track p)))
  else if String.eqb k "aggregate" then ret (PAtom (ABool (aggregate p)))
  else if String.eqb k "last_updated" then ret (PAtom (AInt (last_updated p)))
  else if String.eqb k "energy" then ret (PAtom (AInt (energy p)))
  else if String.eqb k "molecules_key" then ret (PAtom (AStr (molecules_key p)))
  else raise KeyError.

(** The in-place update of the aggregate branch:
    [prop["value"] = vals; prop["track"] = False]. *)
Definition aggregated (vals : list pyval) (p : t) : t :=
  {| value := PList vals; task_type := task_type p; task_id := task_id p;
     quality_score := quality_score p; track := false;
     aggregate := aggregate p; last_updated := last_updated p;
     energy := energy p; molecules_key := molecules_key p |}.
End Cand.

(** A document of the molecule store, as far as [get_items] reads it. *)
Module Mol.
Record t : Type := {
  task_ids : list atom;
  last_updated : Z
}.
End Mol.

(** ** Criteria dicts *)

(** The criteria dict of a query of the task store: under each key (the
    name of a field, as a rule) the test that a task has to pass. *)
Definition criteria : Type := list (string * (Task.t -> bool)).

(** [c.get(k)]. *)
Fixpoint crit_get (k : string) (c : criteria) : option (Task.t -> bool) :=
  match c with
  | [] => None
  | (k', test) :: c' => if String.eqb k k' then Some test else crit_get k c'
  end.

(** [c[k] = test]: the criterion under [k] is replaced, or added when
    there is none. *)
Fixpoint crit_set (k : string) (test : Task.t -> bool) (c : criteria)
  : criteria :=
  match c with
  | [] => [(k, test)]
  | (k', test') :: c' =>
      if String.eqb k k' then (k', test) :: c'
      else (k', test') :: crit_set k test c'
  end.

(** [c.update(c')]. *)
Definition crit_update (c c' : criteria) : criteria :=
  fold_left (fun d e => crit_set (fst e) (snd e) d) c' c.

(** A task matches a criteria dict when it passes the criterion of every
    key. *)
Definition matches (c : criteria) (t : Task.t) : bool :=
  forallb (fun e => match crit_get (fst e) c with
                    | Some test => test t
                    | None => true
                    end) c.

(** The builder object: its settings table, the field names of its two
    stores and the caller's query ([{}] when none is given). *)
Module Builder.
Record t : Type := {
  settings : list Rule.t;
  tasks_key : string;
  tasks_lu_field : string;
  molecules_key : string;
  molecules_lu_field : string;
  query : criteria
}.
End Builder.

(** ** The builder *)

(** The order of [(quality_score, -1.0 * energy)] tuples. *)
Definition rank_ltb (a b : Cand.t) : bool :=
  if Cand.quality_score a =? Cand.quality_score b
  then - Cand.energy a <? - Cand.energy b
  else Cand.quality_score a <? Cand.quality_score b.

(** [sorted(props, key=..., reverse=True)]: descending, and still stable. *)
Definition sorted_by_rank (props : list Cand.t) : list Cand.t :=
  sorted (fun a b => rank_ltb b a) props.

(** [sorted(all_props, key=lambda x: x["molecules_key"])]. *)
Definition sorted_by_molecules_key (props : list Cand.t) : list Cand.t :=
  sorted (fun a b => String.ltb (Cand.molecules_key a) (Cand.molecules_key b))
         props.

(** Keys of a list compare when they are all tuples or all numbers; a sort
    of two or more elements compares each of them with another one, so it
    raises as soon as the two kinds are mixed. *)
Definition comparable (keys : list id_key) : bool :=
  match keys with
  | [] => true
  | k :: keys' => forallb (same_kind k) keys'
  end.

(** [sorted(all_props, key=lambda x: ID_to_int(x["task_id"]))]: the keys are
    computed first, in order, then the list is sorted on them. *)
Definition sorted_by_ID (props : list Cand.t) : result (list Cand.t) :=
  keys <- mapM (fun p => ID_to_int (Cand.task_id p)) props ;;
  if comparable keys then
    ret (map snd (sorted (fun a b => key_ltb (fst a) (fst b))
                         (combine keys props)))
  else raise TypeError.

(** The body of the loop over [grouped_props], for one group. *)
Definition best_prop (props : list Cand.t) : result Cand.t :=
  match sorted_by_rank props with
  | [] => raise IndexError
  | (p :: _) as sorted_props =>
      if Cand.aggregate p
      then ret (Cand.aggregated (map Cand.value sorted_props) p)
      else ret p
  end.

Definition best_props (all_props : list Cand.t) : result (list Cand.t) :=
  let sorted_props := sorted_by_molecules_key all_props in
  let grouped_props := groupby String.eqb Cand.molecules_key sorted_props in
  mapM (fun g => best_prop (snd g)) grouped_props.

(** One provenance entry. *)
Definition origin (p : Cand.t) : pyval :=
  PDict (dict_display
    [(AStr "molecules_key", PAtom (AStr (Cand.molecules_key p)));
     (AStr "task_type", PAtom (AStr (Cand.task_type p)));
     (AStr "task_id", PAtom (Cand.task_id p));
     (AStr "last_updated", PAtom (AInt (Cand.last_updated p)))]).

Definition origins (best : list Cand.t) : list pyval :=
  map origin (filter Cand.track best).

Definition valid (doc : dict) : bool := dict_has (AStr "structure") doc.

(** [update_targets]: the batch handed to the molecule store, [None] when
    the store is not called. *)
Definition update_targets (timestamp : Z) (items : list (list dict))
  : option (list dict) :=
  let items' := filter (fun i => truthy i && valid i) (List.concat items) in
  let items'' := map (dict_set (AStr "_bt") (PAtom (AInt timestamp))) items' in
  match items'' with
  | [] => None
  | _ :: _ => Some items''
  end.

(** [group_structures] as the source has it: [NotImplemented] is not
    callable, so the [raise] statement fails with a [TypeError]. *)
Definition group_structures (structures : list (nat * pyval))
  : result (list (list (nat * pyval))) :=
  raise TypeError.

Section MoleculesBuilder.
(** [emmet.qchem.task_tagger.task_type], which classifies a task from its
    [orig] entry. *)
Variable task_type : pyval -> string.

Variable self : Builder.t.

Definition allowed_tasks : list string :=
  flat_map (fun d => map fst (Rule.quality_score d)) (Builder.settings self).

Fixpoint assoc (k : string) (l : list (string * Z)) : option Z :=
  match l with
  | [] => None
  | (k', v) :: l' => if String.eqb k k' then Some v else assoc k l'
  end.

(** The candidate a rule yields for a task, if any. A missing path of a
    rule that is not optional is logged and yields nothing. *)
Definition rule_to_prop (task : Task.t) (prop : Rule.t) : list Cand.t :=
  let t_type := task_type (Task.orig task) in
  match assoc t_type (Rule.quality_score prop) with
  | Some score =>
      if has (Task.doc task) (Rule.tasks_key prop) then
        [ {| Cand.value := get (Task.doc task) (Rule.tasks_key prop);
             Cand.task_type := t_type;
             Cand.task_id := Task.task_id task;
             Cand.quality_score := score;
             Cand.track := Rule.track prop;
             Cand.aggregate := Rule.aggregate prop;
             Cand.last_updated := Task.last_updated task;
             Cand.energy := match Task.energy task with
                            | Some e => e
                            | None => 0
                            end;
             Cand.molecules_key := Rule.molecules_key prop |} ]
      else []
  | None => []
  end.

Definition task_to_prop_list (task : Task.t) : list Cand.t :=
  flat_map (rule_to_prop task) (Builder.settings self).

(** The dict display that starts the document. *)
Definition mol_display (updated created : Z) (task_ids : list atom)
    (mol_id : pyval) (origins : list pyval) (task_types : dict) : dict :=
  dict_display
    [(AStr (Builder.molecules_lu_field self), PAtom (AInt updated));
     (AStr "created_at", PAtom (AInt created));
     (AStr "task_ids", PList (map PAtom task_ids));
     (AStr (Builder.molecules_key self), mol_id);
     (AStr "origins", PList origins);
     (AStr "task_types", PDict task_types)].

(** The molecule id: [possible_mol_ids[0]], where [possible_mol_ids]
    reads the key field of the task store off every candidate, in the
    order of their task ids. *)
Definition mol_id_of (all_props : list Cand.t) : result pyval :=
  sorted_ids <- sorted_by_ID all_props ;;
  possible_mol_ids <- mapM (Cand.item (Builder.tasks_key self)) sorted_ids ;;
  first possible_mol_ids.

(** [make_mol] from the flattened candidates up to the end of the loop
    that writes the resolved properties into [mol]. The aggregate branch
    of [best_prop] updates its winner in place, and that dict is also an
    element of [all_props]; only its [task_id], [task_type] and
    [last_updated] are read from [all_props] afterwards, which the update
    leaves as they were. *)
Definition merged_mol_of (task_group : list Task.t)
    (all_props : list Cand.t) : result dict :=
  mol_id <- mol_id_of all_props ;;
  best <- best_props all_props ;;
  let task_ids := distinct atom_eqb (map Task.task_id task_group) in
  let task_types :=
    dict_display (map (fun t => (Cand.task_id t,
                                 PAtom (AStr (Cand.task_type t))))
                      all_props) in
  updated <- py_max (map Cand.last_updated all_props) ;;
  created <- py_min (map Cand.last_updated all_props) ;;
  let mol := mol_display updated created task_ids mol_id (origins best)
                         task_types in
  foldM (fun m prop => set_ m (Cand.molecules_key prop) (Cand.value prop))
        mol best.

Definition all_props_of (task_group : list Task.t) : list Cand.t :=
  flat_map task_to_prop_list task_group.

Definition merged_mol (task_group : list Task.t) : result dict :=
  merged_mol_of task_group (all_props_of task_group).

(** [make_mol]. Its last statement,
    [if "structure" in mol: mol.update(structure_metadata(structure))],
    reads the name [structure], which is bound nowhere in the function or
    the module. *)
Definition make_mol (task_group : list Task.t) : result dict :=
  mol <- merged_mol task_group ;;
  if dict_has (AStr "structure") mol then raise NameError else ret mol.

(** ** Grouping and processing *)

(** The structural grouper that [filter_and_group_tasks] calls. The
    source's own [group_structures] is a stub that raises; the functions
    below take the grouper as a parameter so that they can be studied with
    any grouper. *)
Variable grouper : list (nat * pyval) -> result (list (list (nat * pyval))).

Definition in_allowed (t : Task.t) : bool :=
  existsb (String.eqb (task_type (Task.orig t))) allowed_tasks.

(** The part of [filter_and_group_tasks] that runs up to the first
    [yield]: the filtered tasks and the groups of indexed structures. *)
Definition filter_and_group_tasks (tasks : list Task.t)
  : result (list Task.t * list (list (nat * pyval))) :=
  let filtered_tasks := filter in_allowed tasks in
  mols <- mapM (fun t => match Task.initial_molecule t with
                         | Some m => ret m
                         | None => raise KeyError
                         end) filtered_tasks ;;
  let structures := combine (seq 0 (List.length mols)) mols in
  grouped_structures <- grouper structures ;;
  ret (filtered_tasks, grouped_structures).

(** What one [yield] builds: the tasks at the indices of a group. *)
Definition group_tasks (filtered_tasks : list Task.t)
    (group : list (nat * pyval)) : result (list Task.t) :=
  mapM (fun struc => match nth_error filtered_tasks (fst struc) with
                     | Some t => ret t
                     | None => raise IndexError
                     end) group.

(** [process_item]: the generator is consumed group by group, each group
    being turned into a molecule before the next one is built; nothing is
    caught on the way. *)
Definition process_item (tasks : list Task.t) : result (list dict) :=
  _ <- first tasks ;;
  fg <- filter_and_group_tasks tasks ;;
  mapM (fun group => task_group <- group_tasks (fst fg) group ;;
                     make_mol task_group) (snd fg).

(** ** Change-set detection *)

(** The criteria [q]: a copy of the caller's query in which
    [q["state"] = "successful"] is assigned. *)
Definition q : criteria :=
  crit_set "state" (fun t => String.eqb (Task.state t) "successful")
           (Builder.query self).

(** The store's [last_updated]: the latest [lu_field] of its documents,
    [None] (before every timestamp) when it is empty. *)
Definition checkpoint (molecules : list Mol.t) : option Z :=
  match map Mol.last_updated molecules with
  | [] => None
  | x :: l => Some (fold_left Z.max l x)
  end.

(** [self.tasks.lu_filter(self.molecules)]: the criteria dict
    [{lu_field: {"$gt": checkpoint}}] on the [lu_field] of the task
    store. *)
Definition lu_filter (molecules : list Mol.t) : criteria :=
  [(Builder.tasks_lu_field self,
    fun t => match checkpoint molecules with
             | Some c => c <? Task.last_updated t
             | None => true
             end)].

(** [update_q]: a copy of [q] updated with the criteria of [lu_filter]. *)
Definition update_q (molecules : list Mol.t) : criteria :=
  crit_update q (lu_filter molecules).

(** [tasks_q]: a copy of [q] in which [tasks_q["formula_pretty"] = formula]
    is assigned. *)
Definition tasks_q (formula : string) : criteria :=
  crit_set "formula_pretty"
           (fun t => String.eqb (Task.formula_pretty t) formula) q.

Definition to_process_tasks (tasks : list Task.t) (molecules : list Mol.t)
  : list atom :=
  let all_tasks :=
    distinct atom_eqb (map Task.task_id (filter (matches q) tasks)) in
  let processed_tasks :=
    distinct atom_eqb (flat_map Mol.task_ids molecules) in
  filter (fun i => negb (existsb (atom_eqb i) processed_tasks)) all_tasks.

Definition to_process_forms (tasks : list Task.t) (molecules : list Mol.t)
  : list string :=
  let ids := to_process_tasks tasks molecules in
  distinct String.eqb
    (map Task.formula_pretty
         (filter (fun t => existsb (atom_eqb (Task.task_id t)) ids) tasks)).

Definition updated_forms (tasks : list Task.t) (molecules : list Mol.t)
  : list string :=
  distinct String.eqb
    (map Task.formula_pretty
         (filter (matches (update_q molecules)) tasks)).

Definition forms_to_update (tasks : list Task.t) (molecules : list Mol.t)
  : list string :=
  distinct String.eqb
    (updated_forms tasks molecules ++ to_process_forms tasks molecules).

(** [get_items]: one list of tasks per formula to update. *)
Definition get_items (tasks : list Task.t) (molecules : list Mol.t)
  : list (list Task.t) :=
  map (fun formula => filter (matches (tasks_q formula)) tasks)
      (forms_to_update tasks molecules).
End MoleculesBuilder.

(** ** Structure metadata *)

(** [sep.join(l)]. *)
Fixpoint join (sep : string) (l : list string) : string :=
  match l with
  | [] => EmptyString
  | [s] => s
  | s :: l' => (s ++ sep ++ join sep l')%string
  end.

(** A pymatgen structure, as far as [structure_metadata] reads it: its
    number of sites and, of its composition, the symbols of the elements,
    the two dicts and the two formulas. *)
Module Structure.
Record t : Type := {
  num_sites : Z;
  symbols : list string;
  composition : dict;
  reduced_composition : dict;
  reduced_formula : string;
  anonymized_formula : string
}.
End Structure.

(** [sorted(set([e.symbol for e in comp.elements]))]. *)
Definition elsyms (structure : Structure.t) : list string :=
  sorted String.ltb (distinct String.eqb (Structure.symbols structure)).

Definition structure_metadata (structure : Structure.t) : dict :=
  dict_display
    [(AStr "nsites", PAtom (AInt (Structure.num_sites structure)));
     (AStr "elements", PList (map (fun e => PAtom (AStr e)) (elsyms structure)));
     (AStr "nelements",
      PAtom (AInt (Z.of_nat (List.length (elsyms structure)))));
     (AStr "composition", PDict (Structure.composition structure));
     (AStr "composition_reduced",
      PDict (Structure.reduced_composition structure));
     (AStr "formula_pretty",
      PAtom (AStr (Structure.reduced_formula structure)));
     (AStr "formula_anonymous",
      PAtom (AStr (Structure.anonymized_formula structure)));
     (AStr "chemsys", PAtom (AStr (join "-" (elsyms structure))))].

(** ** Vocabulary of the statements *)

(** The candidates of one target field, in the order of [all_props]. *)
Definition field_props (all_props : list Cand.t) (k : string) : list Cand.t :=
  filter (fun p => String.eqb (Cand.molecules_key p) k) all_props.

(** The first candidate of a list that none outranks. *)
Definition winner (props : list Cand.t) : option Cand.t :=
  first_min (fun a b => rank_ltb b a) props.

(** [a] ranks at least as high as [b]: a higher quality score, or the same
    score and an energy that is not higher. *)
Definition outranks (a b : Cand.t) : Prop :=
  Cand.quality_score b < Cand.quality_score a \/
  (Cand.quality_score b = Cand.quality_score a /\
   Cand.energy a <= Cand.energy b).

(** The provenance entries about one target field. *)
Definition origin_field (o : pyval) : option pyval :=
  match o with
  | PDict d => dict_get (AStr "molecules_key") d
  | _ => None
  end.

Definition about (k : string) (o : pyval) : bool :=
  match origin_field o with
  | Some (PAtom (AStr s)) => String.eqb s k
  | _ => false
  end.

(** The top-level key that [set_] writes for a path. *)
Definition target_key (path : string) : atom :=
  match to_path_tokens path with
  | [] => ANone
  | key :: _ => AStr key
  end.

Definition writes (path k : string) : bool :=
  atom_eqb (AStr k) (target_key path).

(** What the loop body of [make_mol] emits for a group with winner [w]. *)
Definition resolved (props : list Cand.t) (w : Cand.t) : Cand.t :=
  if Cand.aggregate w
  then Cand.aggregated (map Cand.value (sorted_by_rank props)) w
  else w.

(** The representative of a scalar among those equal to it: [True] and
    [False] stand with [1] and [0]. *)
Definition norm (a : atom) : atom :=
  match a with
  | ABool b => AInt (Z.b2z b)
  | _ => a
  end.

(** The field names of the document display are pairwise different. *)
Definition distinct_fields (self : Builder.t) : Prop :=
  NoDup [Builder.molecules_lu_field self; "created_at"; "task_ids";
         Builder.molecules_key self; "origins"; "task_types"].

(** No rule of the settings table writes the top-level key [k]. *)
Definition untouched (self : Builder.t) (k : string) : Prop :=
  forall r, In r (Builder.settings self) ->
            writes (Rule.molecules_key r) k = false.

(** The sort key of a candidate, when [ID_to_int] returns one. *)
Definition key_of (p : Cand.t) : id_key :=
  match ID_to_int (Cand.task_id p) with
  | inr k => k
  | inl _ => KNum 0
  end.

(** The order of two candidates in [sorted_by_ID]. *)
Definition id_ltb (p q : Cand.t) : bool := key_ltb (key_of p) (key_of q).

(** A task id is represented in the molecule store. *)
Definition represented (molecules : list Mol.t) (i : atom) : bool :=
  existsb (atom_eqb i) (flat_map Mol.task_ids molecules).

(** A task passes the criteria of the caller's query, apart from those
    under the keys [except]. *)
Definition meets_except (except : list string) (query : criteria)
    (t : Task.t) : Prop :=
  forall k test, crit_get k query = Some test -> ~ In k except ->
                 test t = true.

(** A task was updated after every document of the molecule store. *)
Definition newer_than_store (molecules : list Mol.t) (t : Task.t) : Prop :=
  forall m, In m molecules -> Mol.last_updated m < Task.last_updated t.

(** The tasks of the store have pairwise different ids, as its unique index
    on the key field has it. *)
Definition unique_ids (tasks : list Task.t) : Prop :=
  forall t1 t2, In t1 tasks -> In t2 tasks ->
                atom_eqb (Task.task_id t1) (Task.task_id t2) = true -> t1 = t2.

(** Equality of sort keys. *)
Definition id_key_eqb (a b : id_key) : bool :=
  match a, b with
  | KTuple p n, KTuple p' n' => String.eqb p p' && (n =? n')
  | KNum x, KNum y => x =? y
  | _, _ => false
  end.

(** A document with the pass timestamp, as [update_targets] stamps it. *)
Definition stamped (timestamp : Z) (doc : dict) : dict :=
  dict_set (AStr "_bt") (PAtom (AInt timestamp)) doc.

(** Two candidates tie when they have the same quality score and the same
    energy. *)
Definition ties (a b : Cand.t) : Prop :=
  Cand.quality_score a = Cand.quality_score b /\
  Cand.energy a = Cand.energy b.

(** The only candidates of one target field that tie are equal. *)
Definition no_ties (all_props : list Cand.t) : Prop :=
  forall a b, In a all_props -> In b all_props ->
              Cand.molecules_key a = Cand.molecules_key b ->
              ties a b -> a = b.

(** The keys of a candidate dict. *)
Definition prop_keys : list string :=
  ["value"; "task_type"; "task_id"; "quality_score"; "track"; "aggregate";
   "last_updated"; "energy"; "molecules_key"].

(** ** Example data *)

Module Examples.
(** A classifier that reads the task type off the [orig] entry. *)
Definition classify (orig : pyval) : string :=
  match orig with
  | PAtom (AStr s) => s
  | _ => ""
  end.

Definition rule (molecules_key tasks_key : string)
    (quality_score : list (string * Z)) (track aggregate : bool) : Rule.t :=
  {| Rule.molecules_key := molecules_key; Rule.tasks_key := tasks_key;
     Rule.quality_score := quality_score; Rule.optional := true;
     Rule.track := track; Rule.aggregate := aggregate |}.

Definition builder (settings : list Rule.t) : Builder.t :=
  {| Builder.settings := settings; Builder.tasks_key := "task_id";
     Builder.tasks_lu_field := "last_updated";
     Builder.molecules_key := "task_id";
     Builder.molecules_lu_field := "last_updated";
     Builder.query := [] |}.

(** A successful task of formula [formula] with an [output.energy] and a
    [tag] entry. *)
Definition task (task_id : atom) (t_type formula : string)
    (last_updated energy : Z) : Task.t :=
  {| Task.task_id := task_id; Task.orig := PAtom (AStr t_type);
     Task.state := "successful"; Task.formula_pretty := formula;
     Task.last_updated := last_updated; Task.energy := Some energy;
     Task.initial_molecule := Some (PAtom (AStr formula));
     Task.doc := [(AStr "output",
                   PDict [(AStr "energy", PAtom (AInt energy))]);
                  (AStr "tag", PAtom task_id)] |}.

(** The scenario of three tasks on one tracked field: two of quality 10
    with energies -5 and -7, one of quality 5 with energy -100. *)
Definition energy_rule : Rule.t :=
  rule "energy_result" "output.energy" [("opt", 10); ("sp", 5)] true false.

Definition t1 : Task.t := task (AStr "eg-1") "opt" "H2O" 30 (-5).
Definition t2 : Task.t := task (AStr "eg-2") "opt" "H2O" 10 (-7).
Definition t3 : Task.t := task (AStr "eg-3") "sp" "H2O" 20 (-100).

Definition scenario_props : list Cand.t :=
  all_props_of classify (builder [energy_rule]) [t1; t2; t3].

(** Two rules on one target field, only the lower ranked one marked
    aggregate. *)
Definition mixed_rules : list Rule.t :=
  [rule "tags" "tag" [("opt", 10)] true false;
   rule "tags" "output.energy" [("opt", 5)] false true].

Definition mixed_props : list Cand.t :=
  task_to_prop_list classify (builder mixed_rules) t1.

(** One rule marked aggregate. *)
Definition tags_rule : Rule.t :=
  rule "tags" "tag" [("opt", 10); ("sp", 5)] true true.

Definition tags_props : list Cand.t :=
  all_props_of classify (builder [tags_rule]) [t1; t2; t3].

(** A rule whose source path no task has. *)
Definition gap_rule : Rule.t :=
  rule "bandgap" "output.gap" [("opt", 10); ("sp", 5)] true false.

(** A rule that fills the structural field. *)
Definition structure_rule : Rule.t :=
  rule "structure" "output" [("opt", 10); ("sp", 5)] true false.

(** A rule that targets the [created_at] field of the document. *)
Definition created_at_rule : Rule.t :=
  rule "created_at" "output.energy" [("opt", 10)] false false.

(** Tasks of one group under several task ids. *)
Definition with_id (task_id : atom) : Task.t :=
  task task_id "opt" "H2O" 10 (-5).

Definition id_mol (ids : list atom) : dict :=
  match make_mol classify (builder [energy_rule]) (map with_id ids) with
  | inr mol => mol
  | inl _ => []
  end.

(** A grouper that puts every structure in a group of its own. *)
Definition each_alone (structures : list (nat * pyval))
  : result (list (list (nat * pyval))) :=
  ret (map (fun s => [s]) structures).

(** Tasks 1, 2 and 3 are represented in the molecule store; task 4 is new
    and shares the formula of task 1. *)
Definition stored_tasks : list Task.t :=
  [task (AInt 1) "opt" "H2O" 10 (-5); task (AInt 2) "opt" "CO2" 20 (-7);
   task (AInt 3) "sp" "CH4" 30 (-9); task (AInt 4) "sp" "H2O" 40 (-6)].


(** The document of the three-task scenario. *)
Definition scenario_mol : dict :=
  match make_mol classify (builder [energy_rule]) [t1; t2; t3] with
  | inr mol => mol
  | inl _ => []
  end.
End Examples.

(** Further example data. *)
Module MoreExamples.
(** A task without candidates under [energy_rule]: its type is not rated. *)
Definition unrated : Task.t :=
  Examples.task (AStr "eg-9") "freq" "H2O" 5 (-1).

(** Two tasks whose ids are of different kinds. *)
Definition mixed_ids : list Task.t :=
  [Examples.with_id (AStr "eg-1"); Examples.with_id (AInt 5)].

(** A store in which every selected task is represented and none is newer
    than the latest molecule. *)
Definition settled_molecules : list Mol.t :=
  [{| Mol.task_ids := [AInt 1; AInt 4]; Mol.last_updated := 40 |};
   {| Mol.task_ids := [AInt 2]; Mol.last_updated := 20 |};
   {| Mol.task_ids := [AInt 3]; Mol.last_updated := 30 |}].

(** The document of a rated task and a task that yields no candidate. *)
Definition unrated_mol : dict :=
  match make_mol Examples.classify (Examples.builder [Examples.energy_rule])
                 [Examples.t1; unrated] with
  | inr mol => mol
  | inl _ => []
  end.

(** The documents of a batch of two tasks, each in a group of its own. *)
Definition pair_docs : list dict :=
  match process_item Examples.classify
          (Examples.builder [Examples.energy_rule]) Examples.each_alone
          [Examples.t1; Examples.t2] with
  | inr docs => docs
  | inl _ => []
  end.

(** A builder on a task store keyed by a field that candidates lack. *)
Definition renamed_builder : Builder.t :=
  {| Builder.settings := [Examples.energy_rule];
     Builder.tasks_key := "calc_id";
     Builder.tasks_lu_field := "last_updated";
     Builder.molecules_key := "task_id";
     Builder.molecules_lu_field := "last_updated";
     Builder.query := [] |}.


Definition opt_builder : Builder.t :=
  {| Builder.settings := [];
     Builder.tasks_key := "task_id";
     Builder.tasks_lu_field := "last_updated";
     Builder.molecules_key := "task_id";
     Builder.molecules_lu_field := "last_updated";
     Builder.query :=
       [("orig", fun t => String.eqb (Examples.classify (Task.orig t))
                                     "opt")] |}.

(** Tasks 1 and 2 are represented, task 2 was updated after its document;
    task 3 is new. *)
Definition early_tasks : list Task.t :=
  [Examples.task (AInt 1) "opt" "H2O" 10 (-5);
   Examples.task (AInt 2) "opt" "CO2" 40 (-7);
   Examples.task (AInt 3) "sp" "CH4" 28 (-9)].

Definition early_molecules : list Mol.t :=
  [{| Mol.task_ids := [AInt 1]; Mol.last_updated := 10 |};
   {| Mol.task_ids := [AInt 2]; Mol.last_updated := 30 |}].

(** A document with a structure and a document without one. *)
Definition with_structure : dict :=
  [(AStr "task_id", PAtom (AStr "eg-1"));
   (AStr "structure", PDict [(AStr "sites", PList [])])].

Definition without_structure : dict :=
  [(AStr "task_id", PAtom (AStr "eg-2"))].

Definition water : Structure.t :=
  {| Structure.num_sites := 3; Structure.symbols := ["O"; "H"; "H"];
     Structure.composition := [(AStr "H", PAtom (AInt 2));
                               (AStr "O", PAtom (AInt 1))];
     Structure.reduced_composition := [(AStr "H", PAtom (AInt 2));
                                       (AStr "O", PAtom (AInt 1))];
     Structure.reduced_formula := "H2O";
     Structure.anonymized_formula := "AB2" |}.

(** The same elements as [water], listed otherwise. *)
Definition peroxide : Structure.t :=
  {| Structure.num_sites := 4; Structure.symbols := ["H"; "O"; "O"; "H"];
     Structure.composition := [(AStr "H", PAtom (AInt 2));
                               (AStr "O", PAtom (AInt 2))];
     Structure.reduced_composition := [(AStr "H", PAtom (AInt 1));
                                       (AStr "O", PAtom (AInt 1))];
     Structure.reduced_formula := "H2O2";
     Structure.anonymized_formula := "AB" |}.
End MoreExamples.

(** * Properties *)

Unset Implicit Arguments.

(** ** Results *)

Lemma bind_inr {A B} (m : result A) (f : A -> result B) (b : B) :
  bind m f = inr b -> exists a, m = inr a /\ f a = inr b.
Proof.
  destruct m as [e | a]; simpl; intros H.
  - discriminate H.
  - exists a. split; [reflexivity | exact H].
Qed.

Lemma mapM_inr {A B} (f : A -> result B) (l : list A) (r : list B) :
  mapM f l = inr r -> Forall2 (fun x y => f x = inr y) l r.
Proof.
  revert r. induction l as [| x l IH]; simpl; intros r H.
  - injection H as <-. constructor.
  - apply bind_inr in H. destruct H as (y & Hy & H).
    apply bind_inr in H. destruct H as (ys & Hys & H).
    injection H as <-. constructor; auto.
Qed.

Lemma mapM_total {A B} (f : A -> result B) (g : A -> B) (l : list A) :
  (forall x, In x l -> f x = inr (g x)) -> mapM f l = inr (map g l).
Proof.
  induction l as [| x l IH]; simpl; intros H.
  - reflexivity.
  - rewrite (H x (or_introl eq_refl)). simpl.
    rewrite IH by auto. reflexivity.
Qed.

Lemma mapM_fails {A B} (f : A -> result B) (l : list A) (x : A) (e : exn) :
  In x l -> f x = inl e -> exists e', mapM f l = inl e'.
Proof.
  induction l as [| y l IH]; simpl; intros Hin Hx.
  - contradiction.
  - destruct (f y) as [e1 | b] eqn:Hy; simpl.
    + exists e1. reflexivity.
    + destruct Hin as [-> | Hin].
      * congruence.
      * destruct (IH Hin Hx) as (e' & ->). exists e'. reflexivity.
Qed.

(** ** The order of strings *)

Lemma ascii_compare_refl (c : ascii) : Ascii.compare c c = Eq.
Proof. unfold Ascii.compare. apply N.compare_refl. Qed.

Lemma string_compare_refl (s : string) : String.compare s s = Eq.
Proof.
  induction s as [| c s IH]; simpl.
  - reflexivity.
  - rewrite ascii_compare_refl. exact IH.
Qed.

Lemma ascii_compare_lt_trans (a b c : ascii) :
  Ascii.compare a b = Lt -> Ascii.compare b c = Lt -> Ascii.compare a c = Lt.
Proof.
  unfold Ascii.compare. rewrite !N.compare_lt_iff. apply N.lt_trans.
Qed.

Lemma string_compare_lt_trans (s1 s2 s3 : string) :
  String.compare s1 s2 = Lt -> String.compare s2 s3 = Lt ->
  String.compare s1 s3 = Lt.
Proof.
  revert s2 s3.
  induction s1 as [| a s1 IH]; intros [| b s2] [| c s3]; simpl;
    try congruence.
  destruct (Ascii.compare a b) eqn:Hab; try discriminate;
    destruct (Ascii.compare b c) eqn:Hbc; try discriminate; intros H1 H2.
  - apply Ascii.compare_eq_iff in Hab, Hbc. subst.
    rewrite ascii_compare_refl. eapply IH; eassumption.
  - apply Ascii.compare_eq_iff in Hab. subst. rewrite Hbc. reflexivity.
  - apply Ascii.compare_eq_iff in Hbc. subst. rewrite Hab. reflexivity.
  - rewrite (ascii_compare_lt_trans _ _ _ Hab Hbc). reflexivity.
Qed.

Lemma string_ltb_lt (s1 s2 : string) :
  String.ltb s1 s2 = true <-> String.compare s1 s2 = Lt.
Proof.
  unfold String.ltb. destruct (String.compare s1 s2); split; congruence.
Qed.

Lemma string_ltb_irrefl (s : string) : String.ltb s s = false.
Proof. unfold String.ltb. rewrite string_compare_refl. reflexivity. Qed.

Lemma string_ltb_trans (s1 s2 s3 : string) :
  String.ltb s1 s2 = true -> String.ltb s2 s3 = true ->
  String.ltb s1 s3 = true.
Proof. rewrite !string_ltb_lt. apply string_compare_lt_trans. Qed.

(** Two strings are equal or one is below the other. *)
Lemma string_trichotomy (s1 s2 : string) :
  String.ltb s1 s2 = true \/ s1 = s2 \/ String.ltb s2 s1 = true.
Proof.
  rewrite !string_ltb_lt.
  destruct (String.compare s1 s2) eqn:H.
  - right. left. apply String.compare_eq_iff. exact H.
  - left. reflexivity.
  - right. right. rewrite String.compare_antisym, H. reflexivity.
Qed.

Lemma string_ltb_asym (s1 s2 : string) :
  String.ltb s1 s2 = true -> String.ltb s2 s1 = false.
Proof.
  intros H. destruct (String.ltb s2 s1) eqn:H'; [| reflexivity].
  pose proof (string_ltb_trans _ _ _ H H') as Hc.
  rewrite string_ltb_irrefl in Hc. discriminate.
Qed.

Lemma string_ltb_negtrans (s1 s2 s3 : string) :
  String.ltb s1 s2 = false -> String.ltb s2 s3 = false ->
  String.ltb s1 s3 = false.
Proof.
  intros H12 H23.
  destruct (String.ltb s1 s3) eqn:H13; [| reflexivity].
  destruct (string_trichotomy s1 s2) as [H | [-> | H]].
  - congruence.
  - congruence.
  - destruct (string_trichotomy s2 s3) as [H' | [-> | H']].
    + congruence.
    + congruence.
    + pose proof (string_ltb_trans _ _ _ H' H) as Hc.
      apply string_ltb_asym in Hc. congruence.
Qed.

(** ** Stable sorting *)

Section SortingFacts.
Variable A : Type.
Variable lt : A -> A -> bool.

Lemma insert_perm (x : A) (l : list A) :
  Permutation (insert lt x l) (x :: l).
Proof.
  induction l as [| y l IH]; simpl.
  - apply Permutation_refl.
  - destruct (lt y x).
    + eapply perm_trans; [apply perm_skip, IH | apply perm_swap].
    + apply Permutation_refl.
Qed.

Lemma sorted_perm (l : list A) : Permutation (sorted lt l) l.
Proof.
  induction l as [| x l IH]; simpl.
  - constructor.
  - eapply perm_trans; [apply insert_perm | apply perm_skip, IH].
Qed.

Lemma sorted_In (l : list A) (x : A) : In x (sorted lt l) <-> In x l.
Proof.
  split; apply Permutation_in;
    [apply sorted_perm | apply Permutation_sym, sorted_perm].
Qed.

(** The head of the sorted list is the first minimum of the input. *)
Lemma hd_sorted (l : list A) : hd_error (sorted lt l) = first_min lt l.
Proof.
  induction l as [| x l IH]; simpl.
  - reflexivity.
  - rewrite <- IH. destruct (sorted lt l) as [| y s]; simpl.
    + reflexivity.
    + destruct (lt y x); reflexivity.
Qed.

(** A stable sort does not reorder the elements that a predicate selects,
    when no two of them are strictly ordered. *)
Section Stable.
Variable P : A -> bool.
Hypothesis P_ties : forall x y, P x = true -> P y = true -> lt y x = false.

Lemma filter_insert (x : A) (l : list A) :
  filter P (insert lt x l) = filter P (x :: l).
Proof.
  induction l as [| y l IH]; simpl.
  - reflexivity.
  - destruct (lt y x) eqn:Hyx; simpl.
    + simpl in IH. rewrite IH.
      destruct (P x) eqn:Px, (P y) eqn:Py; try reflexivity.
      rewrite (P_ties _ _ Px Py) in Hyx. discriminate.
    + reflexivity.
Qed.

Lemma filter_sorted (l : list A) : filter P (sorted lt l) = filter P l.
Proof.
  induction l as [| x l IH]; simpl.
  - reflexivity.
  - rewrite filter_insert. simpl. rewrite IH. reflexivity.
Qed.
End Stable.

Hypothesis lt_trans :
  forall x y z, lt x y = true -> lt y z = true -> lt x z = true.
Hypothesis lt_negtrans :
  forall x y z, lt x y = false -> lt y z = false -> lt x z = false.
Hypothesis lt_irrefl : forall x, lt x x = false.

Lemma lt_asym (x y : A) : lt x y = true -> lt y x = false.
Proof.
  intros H. destruct (lt y x) eqn:H'; [| reflexivity].
  rewrite <- (lt_irrefl x). symmetry. eapply lt_trans; eassumption.
Qed.

(** The first minimum splits the list: everything before it is strictly
    above it, nothing after it is below it. *)
Lemma first_min_split (l : list A) (m : A) :
  first_min lt l = Some m ->
  exists l1 l2, l = l1 ++ m :: l2 /\
    (forall y, In y l1 -> lt m y = true) /\
    (forall y, In y l2 -> lt y m = false).
Proof.
  revert m. induction l as [| x l IH]; simpl; intros m H.
  - discriminate.
  - destruct (first_min lt l) as [m' |] eqn:Hm.
    + destruct (IH m' eq_refl) as (l1 & l2 & -> & H1 & H2).
      destruct (lt m' x) eqn:Hx; injection H as <-.
      * exists (x :: l1), l2. split; [reflexivity |]. split; [| exact H2].
        intros y [<- | Hy]; auto.
      * exists [], (l1 ++ m' :: l2). split; [reflexivity |].
        split; [intros y [] |].
        intros y Hy. apply in_app_or in Hy.
        destruct Hy as [Hy | [<- | Hy]].
        -- destruct (lt y x) eqn:Hyx; [| reflexivity].
           rewrite <- Hx. symmetry. eapply lt_trans; [apply H1 |]; eauto.
        -- exact Hx.
        -- eapply lt_negtrans; [apply H2 |]; eauto.
    + injection H as <-. destruct l as [| y l].
      * exists [], []. split; [reflexivity |]. split; intros y [].
      * simpl in Hm. destruct (first_min lt l) as [m' |].
        -- destruct (lt m' y); discriminate.
        -- discriminate.
Qed.

Lemma first_min_least (l : list A) (m : A) :
  first_min lt l = Some m -> In m l /\ forall y, In y l -> lt y m = false.
Proof.
  intros H. destruct (first_min_split _ _ H) as (l1 & l2 & -> & H1 & H2).
  split; [apply in_or_app; right; left; reflexivity |].
  intros y Hy. apply in_app_or in Hy. destruct Hy as [Hy | [<- | Hy]].
  - apply lt_asym. auto.
  - apply lt_irrefl.
  - auto.
Qed.

Lemma insert_sorted (x : A) (l : list A) :
  StronglySorted (fun a b => lt b a = false) l ->
  StronglySorted (fun a b => lt b a = false) (insert lt x l).
Proof.
  induction 1 as [| y l Hs IH Hy]; simpl.
  - repeat constructor.
  - destruct (lt y x) eqn:Hyx.
    + constructor; [exact IH |].
      rewrite Forall_forall in *. intros z Hz.
      apply (Permutation_in _ (insert_perm x l)) in Hz.
      destruct Hz as [<- | Hz]; [apply lt_asym; exact Hyx | auto].
    + constructor; [constructor; assumption |].
      constructor; [exact Hyx |].
      rewrite Forall_forall in *. intros z Hz.
      eapply lt_negtrans; [apply Hy |]; eauto.
Qed.

Lemma sorted_sorted (l : list A) :
  StronglySorted (fun a b => lt b a = false) (sorted lt l).
Proof.
  induction l as [| x l IH]; simpl.
  - constructor.
  - apply insert_sorted, IH.
Qed.
End SortingFacts.

(** ** Grouping a sorted list *)

Section GroupbyFacts.
Variables A K : Type.
Variable key : A -> K.
Variable keqb : K -> K -> bool.
Variable klt : K -> K -> bool.

Hypothesis keqb_eq : forall a b, keqb a b = true <-> a = b.
Hypothesis klt_trans :
  forall a b c, klt a b = true -> klt b c = true -> klt a c = true.
Hypothesis klt_irrefl : forall a, klt a a = false.
Hypothesis klt_total :
  forall a b, klt a b = false -> klt b a = false -> a = b.

Let has_key (k : K) (x : A) : bool := keqb (key x) k.
Let key_le (a b : A) : Prop := klt (key b) (key a) = false.
Let group_lt (g h : K * list A) : Prop := klt (fst g) (fst h) = true.

Lemma keqb_refl (a : K) : keqb a a = true.
Proof. apply keqb_eq. reflexivity. Qed.

Lemma keqb_neq (a b : K) : a <> b -> keqb a b = false.
Proof.
  intros H. destruct (keqb a b) eqn:E; [| reflexivity].
  apply keqb_eq in E. contradiction.
Qed.

Lemma groupby_nil (l : list A) : groupby keqb key l = [] -> l = [].
Proof.
  destruct l as [| x l]; simpl; [reflexivity |].
  destruct (groupby keqb key l) as [| [k g] rest].
  - discriminate.
  - destruct (keqb (key x) k); discriminate.
Qed.

(** The first group carries the key of the first element. *)
Lemma groupby_head (x : A) (l : list A) :
  exists g rest, groupby keqb key (x :: l) = (key x, g) :: rest.
Proof.
  simpl. destruct (groupby keqb key l) as [| [k g] rest].
  - eauto.
  - destruct (keqb (key x) k) eqn:E.
    + apply keqb_eq in E. subst k. eauto.
    + eauto.
Qed.

Lemma filter_none (k : K) (l : list A) :
  (forall y, In y l -> key y <> k) -> filter (has_key k) l = [].
Proof.
  induction l as [| y l IH]; simpl; intros H.
  - reflexivity.
  - unfold has_key at 1. rewrite keqb_neq by auto. apply IH. auto.
Qed.

(** On a list sorted by key, the groups have strictly increasing keys and
    each group is the sublist of the elements with its key. *)
Lemma groupby_sorted (l : list A) :
  StronglySorted key_le l ->
  StronglySorted group_lt (groupby keqb key l) /\
  forall k g, In (k, g) (groupby keqb key l) ->
              g = filter (has_key k) l /\ g <> [].
Proof.
  induction 1 as [| x l Hs IH Hx].
  - split; [constructor | intros k g []].
  - destruct IH as [IHs IHf]. rewrite Forall_forall in Hx.
    simpl. destruct (groupby keqb key l) as [| [k' g'] rest] eqn:Hg.
    + apply groupby_nil in Hg. subst l.
      split; [repeat constructor |].
      intros k g [H | []]. injection H as <- <-.
      simpl. unfold has_key. rewrite keqb_refl.
      split; [reflexivity | discriminate].
    + (* the head of [l] carries the key [k'] *)
      assert (Hk' : forall y, In y l -> klt (key y) k' = false).
      { destruct l as [| y0 l0]; [discriminate |].
        destruct (groupby_head y0 l0) as (g0 & r0 & E).
        rewrite E in Hg. injection Hg as <- _ _.
        intros y [<- | Hy]; [apply klt_irrefl |].
        inversion Hs as [| ? ? _ Hy0]. subst.
        rewrite Forall_forall in Hy0. apply Hy0. exact Hy. }
      inversion IHs as [| ? ? Hrest Hlt]. subst.
      rewrite Forall_forall in Hlt.
      destruct (keqb (key x) k') eqn:E.
      * apply keqb_eq in E. subst k'.
        split.
        -- constructor; [exact Hrest |].
           rewrite Forall_forall. exact Hlt.
        -- intros k g [H | H].
           ++ injection H as <- <-.
              destruct (IHf (key x) g' (or_introl eq_refl)) as [-> _].
              simpl. unfold has_key at 2. rewrite keqb_refl.
              split; [reflexivity | discriminate].
           ++ destruct (IHf k g (or_intror H)) as [-> Hne].
              split; [| exact Hne].
              simpl. unfold has_key at 2. rewrite keqb_neq; [reflexivity |].
              intros <-. specialize (Hlt _ H). unfold group_lt in Hlt.
              simpl in Hlt. rewrite klt_irrefl in Hlt. discriminate.
      * assert (Hxk : klt (key x) k' = true).
        { destruct (klt (key x) k') eqn:Hc; [reflexivity |].
          destruct l as [| y0 l0]; [discriminate |].
          destruct (groupby_head y0 l0) as (g0 & r0 & E0).
          rewrite E0 in Hg. injection Hg as <- _ _.
          specialize (Hx y0 (or_introl eq_refl)). unfold key_le in Hx.
          rewrite (klt_total _ _ Hc Hx), keqb_refl in E. discriminate. }
        assert (Hall : forall k g, In (k, g) ((k', g') :: rest) ->
                                   klt (key x) k = true).
        { intros k g [H | H].
          - injection H as <- _. exact Hxk.
          - eapply klt_trans; [exact Hxk |]. apply (Hlt _ H). }
        split.
        -- constructor; [exact IHs |].
           rewrite Forall_forall. intros [k g] H. apply (Hall _ _ H).
        -- intros k g [H | H].
           ++ injection H as <- <-. simpl. unfold has_key at 1.
              rewrite keqb_refl. split; [| discriminate].
              rewrite filter_none; [reflexivity |].
              intros y Hy Heq. specialize (Hk' y Hy).
              rewrite Heq in Hk'. congruence.
           ++ destruct (IHf k g H) as [-> Hne]. split; [| exact Hne].
              simpl. unfold has_key at 2. rewrite keqb_neq; [reflexivity |].
              intros <-. specialize (Hall _ _ H).
              rewrite klt_irrefl in Hall. discriminate.
Qed.

Lemma group_keys_nodup (gs : list (K * list A)) :
  StronglySorted group_lt gs -> NoDup (map fst gs).
Proof.
  induction 1 as [| g gs Hs IH Hg]; simpl.
  - constructor.
  - constructor; [| exact IH].
    rewrite Forall_forall in Hg. intros Hin.
    apply in_map_iff in Hin. destruct Hin as (h & Heq & Hh).
    specialize (Hg h Hh). unfold group_lt in Hg.
    rewrite Heq, klt_irrefl in Hg. discriminate.
Qed.

(** Every element of the list falls in the group of its key. *)
Lemma groupby_covers (l : list A) (x : A) :
  In x l -> exists g, In (key x, g) (groupby keqb key l) /\ In x g.
Proof.
  induction l as [| y l IH]; simpl; intros Hin; [contradiction |].
  destruct Hin as [-> | Hin].
  - destruct (groupby keqb key l) as [| [k g] rest].
    + exists [x]. simpl. auto.
    + destruct (keqb (key x) k) eqn:E.
      * apply keqb_eq in E. subst k. exists (x :: g). simpl. auto.
      * exists [x]. simpl. auto.
  - destruct (IH Hin) as (g & Hg & Hx).
    destruct (groupby keqb key l) as [| [k g0] rest]; [contradiction |].
    destruct (keqb (key y) k) eqn:E.
    + destruct Hg as [Hg | Hg].
      * injection Hg as <- <-. exists (y :: g0). simpl. auto.
      * exists g. simpl. auto.
    + exists g. simpl. auto.
Qed.
End GroupbyFacts.

(** ** The conflict resolver *)

Lemma rank_ltb_spec (a b : Cand.t) :
  rank_ltb a b = false <-> outranks a b.
Proof.
  unfold rank_ltb, outranks.
  destruct (Z.eqb_spec (Cand.quality_score a) (Cand.quality_score b)) as [E | E].
  - rewrite Z.ltb_ge. lia.
  - rewrite Z.ltb_ge. lia.
Qed.

Lemma rank_gt_trans (x y z : Cand.t) :
  rank_ltb y x = true -> rank_ltb z y = true -> rank_ltb z x = true.
Proof.
  unfold rank_ltb.
  destruct (Z.eqb_spec (Cand.quality_score y) (Cand.quality_score x)),
           (Z.eqb_spec (Cand.quality_score z) (Cand.quality_score y)),
           (Z.eqb_spec (Cand.quality_score z) (Cand.quality_score x));
    rewrite ?Z.ltb_lt; lia.
Qed.

Lemma rank_gt_negtrans (x y z : Cand.t) :
  rank_ltb y x = false -> rank_ltb z y = false -> rank_ltb z x = false.
Proof.
  unfold rank_ltb.
  destruct (Z.eqb_spec (Cand.quality_score y) (Cand.quality_score x)),
           (Z.eqb_spec (Cand.quality_score z) (Cand.quality_score y)),
           (Z.eqb_spec (Cand.quality_score z) (Cand.quality_score x));
    rewrite ?Z.ltb_ge; lia.
Qed.

Lemma rank_ltb_irrefl (x : Cand.t) : rank_ltb x x = false.
Proof. unfold rank_ltb. rewrite Z.eqb_refl. apply Z.ltb_irrefl. Qed.

Lemma hd_sorted_by_rank (props : list Cand.t) :
  hd_error (sorted_by_rank props) = winner props.
Proof. apply hd_sorted. Qed.

(** The winner is a candidate of the list and ranks at least as high as
    every candidate of the list. *)
Lemma winner_outranks (props : list Cand.t) (w : Cand.t) :
  winner props = Some w ->
  In w props /\ forall c, In c props -> outranks w c.
Proof.
  intros H.
  destruct (first_min_least _ (fun a b => rank_ltb b a)
              rank_gt_trans rank_gt_negtrans rank_ltb_irrefl _ _ H)
    as [Hin Hle].
  split; [exact Hin |].
  intros c Hc. apply rank_ltb_spec. apply Hle. exact Hc.
Qed.

Lemma winner_exists (props : list Cand.t) :
  props <> [] -> exists w, winner props = Some w.
Proof.
  destruct props as [| x l]; [congruence |]. intros _.
  unfold winner. simpl.
  destruct (first_min _ l) as [m |]; [destruct (rank_ltb x m) |]; eauto.
Qed.

(** What the loop body returns for a group with winner [w]. *)
Lemma best_prop_winner (props : list Cand.t) (w : Cand.t) :
  winner props = Some w ->
  best_prop props = inr (resolved props w).
Proof.
  rewrite <- hd_sorted_by_rank. unfold best_prop, resolved.
  destruct (sorted_by_rank props) as [| p s]; simpl; intros H.
  - discriminate.
  - injection H as ->. destruct (Cand.aggregate w); reflexivity.
Qed.

Lemma best_prop_key (props : list Cand.t) (b : Cand.t) (k : string) :
  (forall c, In c props -> Cand.molecules_key c = k) ->
  best_prop props = inr b -> Cand.molecules_key b = k.
Proof.
  intros Hk H. destruct props as [| x l].
  - discriminate.
  - destruct (winner_exists (x :: l)) as (w & Hw); [discriminate |].
    rewrite (best_prop_winner _ _ Hw) in H. injection H as <-.
    apply winner_outranks in Hw. destruct Hw as [Hin _].
    unfold resolved. destruct (Cand.aggregate w); simpl; auto.
Qed.

Lemma sorted_by_molecules_key_sorted (all_props : list Cand.t) :
  StronglySorted
    (fun a b => String.ltb (Cand.molecules_key b) (Cand.molecules_key a) = false)
    (sorted_by_molecules_key all_props).
Proof.
  apply sorted_sorted.
  - intros x y z. apply string_ltb_trans.
  - intros x y z. apply string_ltb_negtrans.
  - intros x. apply string_ltb_irrefl.
Qed.

Lemma string_ltb_total (a b : string) :
  String.ltb a b = false -> String.ltb b a = false -> a = b.
Proof.
  intros H1 H2. destruct (string_trichotomy a b) as [H | [H | H]]; congruence.
Qed.

(** The groups that [make_mol] loops over are the non-empty
    [field_props], one per target field. *)
Lemma grouped_props_spec (all_props : list Cand.t) :
  let groups := groupby String.eqb Cand.molecules_key
                        (sorted_by_molecules_key all_props) in
  NoDup (map fst groups) /\
  (forall k g, In (k, g) groups -> g = field_props all_props k /\ g <> []) /\
  (forall c, In c all_props ->
             In (Cand.molecules_key c,
                 field_props all_props (Cand.molecules_key c)) groups).
Proof.
  intros groups.
  destruct (groupby_sorted _ _ Cand.molecules_key String.eqb String.ltb
              String.eqb_eq string_ltb_trans string_ltb_irrefl
              string_ltb_total
              _ (sorted_by_molecules_key_sorted all_props)) as [Hs Hf].
  assert (Hfilter : forall k,
             filter (fun p => String.eqb (Cand.molecules_key p) k)
                    (sorted_by_molecules_key all_props)
             = field_props all_props k).
  { intros k. apply filter_sorted. intros x y Hx Hy.
    apply String.eqb_eq in Hx, Hy. rewrite Hx, Hy.
    apply string_ltb_irrefl. }
  split; [| split].
  - exact (group_keys_nodup _ _ String.ltb string_ltb_irrefl _ Hs).
  - intros k g Hin. destruct (Hf k g Hin) as [-> Hne].
    rewrite Hfilter in *. split; [reflexivity | exact Hne].
  - intros c Hc.
    destruct (groupby_covers _ _ Cand.molecules_key String.eqb String.eqb_eq
                (sorted_by_molecules_key all_props) c) as (g & Hg & _).
    { apply sorted_In. exact Hc. }
    destruct (Hf _ _ Hg) as [Heq _]. rewrite Hfilter in Heq.
    rewrite <- Heq. exact Hg.
Qed.

Lemma mapM_succeeds {A B} (f : A -> result B) (l : list A) :
  (forall x, In x l -> exists y, f x = inr y) ->
  exists r, mapM f l = inr r.
Proof.
  induction l as [| x l IH]; simpl; intros H.
  - eexists. reflexivity.
  - destruct (H x (or_introl eq_refl)) as (y & ->).
    destruct IH as (r & ->); [auto |]. simpl. eexists. reflexivity.
Qed.

Lemma Forall2_In_r {A B} (R : A -> B -> Prop) (l : list A) (r : list B) (y : B) :
  Forall2 R l r -> In y r -> exists x, In x l /\ R x y.
Proof.
  induction 1 as [| x y' l r Hxy _ IH]; simpl; intros Hin.
  - contradiction.
  - destruct Hin as [<- | Hin].
    + eauto.
    + destruct (IH Hin) as (x' & Hx' & HR). eauto.
Qed.

Lemma Forall2_In_l {A B} (R : A -> B -> Prop) (l : list A) (r : list B) (x : A) :
  Forall2 R l r -> In x l -> exists y, In y r /\ R x y.
Proof.
  induction 1 as [| x' y l r Hxy _ IH]; simpl; intros Hin.
  - contradiction.
  - destruct Hin as [<- | Hin].
    + eauto.
    + destruct (IH Hin) as (y' & Hy' & HR). eauto.
Qed.

Lemma Forall2_map_eq {A B C} (R : A -> B -> Prop) (f : A -> C) (g : B -> C)
    (l : list A) (r : list B) :
  (forall x y, R x y -> f x = g y) -> Forall2 R l r -> map f l = map g r.
Proof.
  intros H. induction 1 as [| x y l r Hxy _ IH]; simpl.
  - reflexivity.
  - rewrite (H _ _ Hxy), IH. reflexivity.
Qed.

Lemma Forall2_with_In {A B} (R : A -> B -> Prop) (l : list A) (r : list B) :
  Forall2 R l r -> Forall2 (fun x y => In x l /\ R x y) l r.
Proof.
  intros H.
  enough (G : forall l0, (forall x, In x l -> In x l0) ->
                         Forall2 (fun x y => In x l0 /\ R x y) l r)
    by (apply G; auto).
  induction H as [| x y l r Hxy _ IH]; intros l0 Hsub.
  - constructor.
  - constructor.
    + split; [apply Hsub; left; reflexivity | exact Hxy].
    + apply IH. intros x' Hx'. apply Hsub. right. exact Hx'.
Qed.

Lemma field_props_key (all_props : list Cand.t) (k : string) (c : Cand.t) :
  In c (field_props all_props k) <-> In c all_props /\ Cand.molecules_key c = k.
Proof.
  unfold field_props. rewrite filter_In, String.eqb_eq. reflexivity.
Qed.

(** [best_props] always returns; it returns one resolved property per
    target field that has candidates, the one of that field's winner. *)
Lemma best_props_spec (all_props : list Cand.t) :
  exists best,
    best_props all_props = inr best /\
    NoDup (map Cand.molecules_key best) /\
    (forall b, In b best ->
       exists w, winner (field_props all_props (Cand.molecules_key b)) = Some w /\
                 b = resolved (field_props all_props (Cand.molecules_key b)) w) /\
    (forall c, In c all_props ->
       exists b, In b best /\ Cand.molecules_key b = Cand.molecules_key c).
Proof.
  destruct (grouped_props_spec all_props) as (Hnd & Hg & Hc).
  unfold best_props.
  set (groups := groupby String.eqb Cand.molecules_key
                         (sorted_by_molecules_key all_props)) in *.
  assert (Hkey : forall g b, In g groups -> best_prop (snd g) = inr b ->
                             Cand.molecules_key b = fst g).
  { intros [k g] b Hin Hb. simpl in *.
    destruct (Hg k g Hin) as [-> _].
    eapply best_prop_key; [| exact Hb].
    intros c Hcin. apply field_props_key in Hcin. tauto. }
  destruct (mapM_succeeds (fun g => best_prop (snd g)) groups) as (best & Hbest).
  { intros [k g] Hin. simpl. destruct (Hg k g Hin) as [_ Hne].
    destruct (winner_exists _ Hne) as (w & Hw).
    rewrite (best_prop_winner _ _ Hw). eauto. }
  exists best. split; [exact Hbest |].
  pose proof (mapM_inr _ _ _ Hbest) as HF.
  assert (HF' : Forall2 (fun g b => In g groups /\ best_prop (snd g) = inr b)
                        groups best).
  { apply Forall2_with_In. exact HF. }
  split; [| split].
  - rewrite <- (Forall2_map_eq (fun g b => In g groups /\
                                           best_prop (snd g) = inr b)
                               fst Cand.molecules_key groups best).
    + exact Hnd.
    + intros g b [Hin Hb]. symmetry. eapply Hkey; eassumption.
    + exact HF'.
  - intros b Hb.
    destruct (Forall2_In_r _ _ _ b HF' Hb) as ([k g] & _ & Hin & Hgb).
    pose proof (Hkey _ _ Hin Hgb) as Hk. simpl in *. subst k.
    destruct (Hg _ g Hin) as [-> Hne].
    destruct (winner_exists _ Hne) as (w & Hw).
    rewrite (best_prop_winner _ _ Hw) in Hgb. injection Hgb as Hgb.
    exists w. split; [exact Hw | symmetry; exact Hgb].
  - intros c Hcin.
    destruct (Forall2_In_l _ _ _ _ HF' (Hc c Hcin)) as (b & Hb & Hin & Hgb).
    exists b. split; [exact Hb |].
    apply (Hkey _ _ Hin Hgb).
Qed.

Lemma resolved_key (props : list Cand.t) (w : Cand.t) :
  Cand.molecules_key (resolved props w) = Cand.molecules_key w.
Proof. unfold resolved. destruct (Cand.aggregate w); reflexivity. Qed.

(** The resolved property of one target field. *)
Lemma best_props_field (all_props : list Cand.t) (k : string) (w : Cand.t) :
  winner (field_props all_props k) = Some w ->
  exists best,
    best_props all_props = inr best /\
    NoDup (map Cand.molecules_key best) /\
    In (resolved (field_props all_props k) w) best /\
    forall b, In b best -> Cand.molecules_key b = k ->
              b = resolved (field_props all_props k) w.
Proof.
  intros Hw.
  destruct (best_props_spec all_props) as (best & Hbest & Hnd & HR & HL).
  exists best. split; [exact Hbest |]. split; [exact Hnd |].
  destruct (winner_outranks _ _ Hw) as [Hin _].
  apply field_props_key in Hin. destruct Hin as [Hin Hk].
  assert (Huniq : forall b, In b best -> Cand.molecules_key b = k ->
                            b = resolved (field_props all_props k) w).
  { intros b Hb Hbk. destruct (HR b Hb) as (w' & Hw' & Heq).
    rewrite Hbk in Hw', Heq. congruence. }
  split; [| exact Huniq].
  destruct (HL w Hin) as (b & Hb & Hbk).
  rewrite <- (Huniq b Hb); [exact Hb | congruence].
Qed.

Lemma StronglySorted_impl {A} (R S : A -> A -> Prop) (l : list A) :
  (forall a b, R a b -> S a b) -> StronglySorted R l -> StronglySorted S l.
Proof.
  intros H. induction 1 as [| x l _ IH Hx]; constructor.
  - exact IH.
  - eapply Forall_impl; [| exact Hx]. intros b. apply H.
Qed.

(** [sorted_by_rank] keeps every candidate and lists them from the highest
    rank down. *)
Lemma sorted_by_rank_spec (props : list Cand.t) :
  Permutation (sorted_by_rank props) props /\
  StronglySorted outranks (sorted_by_rank props).
Proof.
  split; [apply sorted_perm |].
  apply StronglySorted_impl with (R := fun a b => rank_ltb a b = false).
  - intros a b. apply rank_ltb_spec.
  - unfold sorted_by_rank.
    apply (sorted_sorted _ (fun a b => rank_ltb b a)
             rank_gt_trans rank_gt_negtrans rank_ltb_irrefl).
Qed.

(** *** Provenance entries *)

Lemma about_origin (k : string) (p : Cand.t) :
  about k (origin p) = String.eqb (Cand.molecules_key p) k.
Proof. reflexivity. Qed.

Lemma origins_about (k : string) (best : list Cand.t) :
  filter (about k) (origins best) =
  map origin (filter (fun b => String.eqb (Cand.molecules_key b) k)
                     (filter Cand.track best)).
Proof.
  unfold origins. induction (filter Cand.track best) as [| b l IH]; simpl.
  - reflexivity.
  - rewrite about_origin. destruct (String.eqb (Cand.molecules_key b) k);
      simpl; rewrite IH; reflexivity.
Qed.

Lemma filter_key_single (best : list Cand.t) (b : Cand.t) :
  NoDup (map Cand.molecules_key best) -> In b best ->
  filter (fun x => String.eqb (Cand.molecules_key x) (Cand.molecules_key b))
         best = [b].
Proof.
  induction best as [| x l IH]; simpl; intros Hnd Hin.
  - contradiction.
  - inversion Hnd as [| ? ? Hx Hnd']. subst.
    destruct Hin as [-> | Hin].
    + rewrite String.eqb_refl. f_equal.
      apply filter_none with (key := Cand.molecules_key) (keqb := String.eqb).
      * apply String.eqb_eq.
      * intros y Hy Heq. apply Hx. rewrite <- Heq. apply in_map. exact Hy.
    + destruct (String.eqb_spec (Cand.molecules_key x) (Cand.molecules_key b))
        as [E | E].
      * exfalso. apply Hx. rewrite E. apply in_map. exact Hin.
      * apply IH; assumption.
Qed.

Lemma filter_filter_comm {A} (f g : A -> bool) (l : list A) :
  filter f (filter g l) = filter g (filter f l).
Proof.
  induction l as [| x l IH]; simpl.
  - reflexivity.
  - destruct (f x) eqn:Hf, (g x) eqn:Hg; simpl; rewrite ?Hf, ?Hg, IH;
      reflexivity.
Qed.

(** The provenance entries about a field whose resolved property is [b]. *)
Lemma origins_of_field (best : list Cand.t) (b : Cand.t) :
  NoDup (map Cand.molecules_key best) -> In b best ->
  filter (about (Cand.molecules_key b)) (origins best) =
  if Cand.track b then [origin b] else [].
Proof.
  intros Hnd Hin. rewrite origins_about, filter_filter_comm.
  rewrite (filter_key_single best b Hnd Hin). simpl.
  destruct (Cand.track b); reflexivity.
Qed.

Lemma origins_of_no_field (best : list Cand.t) (k : string) :
  (forall b, In b best -> Cand.molecules_key b <> k) ->
  filter (about k) (origins best) = [].
Proof.
  intros H. rewrite origins_about, filter_filter_comm.
  rewrite filter_none with (key := Cand.molecules_key) (keqb := String.eqb).
  - reflexivity.
  - apply String.eqb_eq.
  - exact H.
Qed.

(** ** Claims on the conflict resolver *)

(** C1. For a target field none of whose candidates is marked aggregate, the
    resolver emits exactly one property for the field, and it is a candidate
    [w] of the field that ranks at least as high as every candidate of the
    field: no candidate has a higher quality score, and none with the same
    score has a lower energy. Hence of two candidates with equal scores the
    one with the strictly higher energy does not win, and of two candidates
    with unequal scores the one with the lower score does not win, whatever
    the energies. The emitted property is the candidate [w] itself, so it
    carries the [track] flag it had. *)
Theorem resolver_selects_best_candidate
    (all_props : list Cand.t) (k : string) :
  field_props all_props k <> [] ->
  (forall c, In c (field_props all_props k) -> Cand.aggregate c = false) ->
  exists best w,
    best_props all_props = inr best /\
    In w (field_props all_props k) /\
    (forall c, In c (field_props all_props k) ->
       Cand.quality_score c <= Cand.quality_score w /\
       (Cand.quality_score c = Cand.quality_score w ->
        Cand.energy w <= Cand.energy c)) /\
    (forall c1 c2,
       In c1 (field_props all_props k) -> In c2 (field_props all_props k) ->
       Cand.quality_score c1 = Cand.quality_score c2 ->
       Cand.energy c1 < Cand.energy c2 -> w <> c2) /\
    (forall c1 c2,
       In c1 (field_props all_props k) -> In c2 (field_props all_props k) ->
       Cand.quality_score c1 < Cand.quality_score c2 -> w <> c1) /\
    In w best /\
    (forall b, In b best -> Cand.molecules_key b = k -> b = w).
Proof.
  intros Hne Hagg.
  destruct (winner_exists _ Hne) as (w & Hw).
  destruct (best_props_field all_props k w Hw) as (best & Hbest & _ & Hin & Huniq).
  destruct (winner_outranks _ _ Hw) as [Hwin Hout].
  assert (Hres : resolved (field_props all_props k) w = w).
  { unfold resolved. rewrite (Hagg w Hwin). reflexivity. }
  rewrite Hres in *.
  exists best, w. repeat split; try assumption.
  - destruct (Hout c H) as [Hlt | [Heq Hle]]; lia.
  - intros Heq. destruct (Hout c H) as [Hlt | [_ Hle]]; lia.
  - intros c1 c2 H1 H2 Hq He ->.
    destruct (Hout c1 H1) as [Hlt | [_ Hle]]; lia.
  - intros c1 c2 H1 H2 Hq ->.
    destruct (Hout c2 H2) as [Hlt | [Heq _]]; lia.
Qed.

(** C1 at the scenario of the three tasks: the field [energy_result] has
    candidates, none of them aggregate. *)
Lemma resolver_selects_best_candidate_witness :
  exists best w,
    best_props Examples.scenario_props = inr best /\
    In w (field_props Examples.scenario_props "energy_result") /\
    (forall c, In c (field_props Examples.scenario_props "energy_result") ->
       Cand.quality_score c <= Cand.quality_score w /\
       (Cand.quality_score c = Cand.quality_score w ->
        Cand.energy w <= Cand.energy c)) /\
    (forall c1 c2,
       In c1 (field_props Examples.scenario_props "energy_result") ->
       In c2 (field_props Examples.scenario_props "energy_result") ->
       Cand.quality_score c1 = Cand.quality_score c2 ->
       Cand.energy c1 < Cand.energy c2 -> w <> c2) /\
    (forall c1 c2,
       In c1 (field_props Examples.scenario_props "energy_result") ->
       In c2 (field_props Examples.scenario_props "energy_result") ->
       Cand.quality_score c1 < Cand.quality_score c2 -> w <> c1) /\
    In w best /\
    (forall b, In b best -> Cand.molecules_key b = "energy_result" -> b = w).
Proof.
  apply (resolver_selects_best_candidate Examples.scenario_props
           "energy_result").
  - vm_compute. discriminate.
  - intros c Hc. vm_compute in Hc.
    destruct Hc as [<- | [<- | [<- | []]]]; reflexivity.
Defined.

(** The scenario itself: the resolved value comes from the second task. *)
Example scenario_winner :
  option_map Cand.task_id (winner Examples.scenario_props)
  = Some (AStr "eg-2") /\
  option_map (map Cand.task_id)
    (match best_props Examples.scenario_props with
     | inr best => Some best
     | inl _ => None
     end) = Some [AStr "eg-2"].
Proof. split; reflexivity. Qed.

(** C3, as the code has it. For a target field whose winner (the first
    candidate of the highest quality score and, among those, of the lowest
    energy) is marked aggregate, the resolver emits exactly one property for
    the field; its value is the list of the values of all candidates of the
    field, each candidate once, from the highest rank down (descending
    quality score, then ascending energy); its [track] flag is false, and
    no provenance entry is about the field. *)
Theorem aggregate_winner_lists_all_values
    (all_props : list Cand.t) (k : string) (w : Cand.t) :
  winner (field_props all_props k) = Some w ->
  Cand.aggregate w = true ->
  exists best b sorted_props,
    best_props all_props = inr best /\
    In b best /\
    Cand.molecules_key b = k /\
    (forall b', In b' best -> Cand.molecules_key b' = k -> b' = b) /\
    Permutation sorted_props (field_props all_props k) /\
    StronglySorted outranks sorted_props /\
    Cand.value b = PList (map Cand.value sorted_props) /\
    Cand.track b = false /\
    filter (about k) (origins best) = [].
Proof.
  intros Hw Hagg.
  destruct (best_props_field all_props k w Hw) as (best & Hbest & Hnd & Hin & Huniq).
  destruct (sorted_by_rank_spec (field_props all_props k)) as [Hperm Hsorted].
  destruct (winner_outranks _ _ Hw) as [Hwin _].
  apply field_props_key in Hwin. destruct Hwin as [_ Hk].
  assert (Hres : resolved (field_props all_props k) w =
                 Cand.aggregated
                   (map Cand.value (sorted_by_rank (field_props all_props k))) w).
  { unfold resolved. rewrite Hagg. reflexivity. }
  rewrite Hres in *.
  eexists best, _, (sorted_by_rank (field_props all_props k)).
  split; [exact Hbest |]. split; [exact Hin |].
  split; [exact Hk |]. split; [exact Huniq |].
  split; [exact Hperm |]. split; [exact Hsorted |].
  split; [reflexivity |]. split; [reflexivity |].
  rewrite <- Hk at 1.
  change (Cand.molecules_key w) with
    (Cand.molecules_key
       (Cand.aggregated
          (map Cand.value (sorted_by_rank (field_props all_props k))) w)).
  rewrite (origins_of_field _ _ Hnd Hin). reflexivity.
Qed.

(** A field all of whose candidates are marked aggregate has a winner that
    is marked aggregate. *)
Lemma uniform_aggregate_winner (all_props : list Cand.t) (k : string) :
  field_props all_props k <> [] ->
  (forall c, In c (field_props all_props k) -> Cand.aggregate c = true) ->
  exists w, winner (field_props all_props k) = Some w /\
            Cand.aggregate w = true.
Proof.
  intros Hne Hall. destruct (winner_exists _ Hne) as (w & Hw).
  exists w. split; [exact Hw |].
  apply Hall. apply (winner_outranks _ _ Hw).
Qed.

(** C3 at the three tasks and a rule marked aggregate. *)
Lemma aggregate_winner_lists_all_values_witness :
  exists best b sorted_props,
    best_props Examples.tags_props = inr best /\
    In b best /\
    Cand.molecules_key b = "tags" /\
    (forall b', In b' best -> Cand.molecules_key b' = "tags" -> b' = b) /\
    Permutation sorted_props (field_props Examples.tags_props "tags") /\
    StronglySorted outranks sorted_props /\
    Cand.value b = PList (map Cand.value sorted_props) /\
    Cand.track b = false /\
    filter (about "tags") (origins best) = [].
Proof.
  refine (aggregate_winner_lists_all_values Examples.tags_props "tags"
            _ _ _).
  - vm_compute. reflexivity.
  - reflexivity.
Defined.

(** C3 fails as stated. With two rules on the field [tags], the higher
    ranked one not marked aggregate and the lower ranked one marked
    aggregate, a candidate of the field has [aggregate = true], yet the
    field is resolved to the single value of the first rule, with [track]
    still true and a provenance entry about the field. *)
Lemma aggregate_of_lower_ranked_candidate_ignored :
  (exists c, In c (field_props Examples.mixed_props "tags") /\
             Cand.aggregate c = true) /\
  (exists b, best_props Examples.mixed_props = inr [b] /\
             Cand.value b = PAtom (AStr "eg-1") /\
             Cand.track b = true /\
             filter (about "tags") (origins [b]) = [origin b]) /\
  (exists mol, make_mol Examples.classify
                 (Examples.builder Examples.mixed_rules) [Examples.t1]
               = inr mol /\
               dict_get (AStr "tags") mol = Some (PAtom (AStr "eg-1"))).
Proof.
  split; [| split].
  - eexists. split; [right; left; reflexivity | reflexivity].
  - eexists. repeat split.
  - eexists. split; reflexivity.
Qed.

(** ** Claims on provenance *)

(** C6. The provenance entries are those of the resolved properties with
    [track = true]. Let [w] be the winner of a target field and [b] the
    property resolved from it: [w] itself, or, when [w] is marked aggregate,
    [w] updated in place to the list of values and to [track = false]. If
    [b] has [track = true], exactly one entry is about the field, and it
    carries the field, task type, task id and [last_updated] of [w]. If [b]
    has [track = false], as every aggregated property has, no entry is about
    the field; nor is any about a field without candidates. *)
Theorem origins_follow_tracked_winners (all_props : list Cand.t) :
  exists best,
    best_props all_props = inr best /\
    (forall k w,
       winner (field_props all_props k) = Some w ->
       let b := resolved (field_props all_props k) w in
       In b best /\
       (Cand.track b = true ->
        filter (about k) (origins best) = [origin w] /\
        origin w = PDict [(AStr "molecules_key", PAtom (AStr k));
                          (AStr "task_type", PAtom (AStr (Cand.task_type w)));
                          (AStr "task_id", PAtom (Cand.task_id w));
                          (AStr "last_updated",
                           PAtom (AInt (Cand.last_updated w)))]) /\
       (Cand.track b = false -> filter (about k) (origins best) = []) /\
       (Cand.aggregate w = true -> Cand.track b = false) /\
       (Cand.aggregate w = false -> b = w)) /\
    (forall k, field_props all_props k = [] ->
               filter (about k) (origins best) = []).
Proof.
  destruct (best_props_spec all_props) as (best & Hbest & Hnd & HR & HL).
  exists best. split; [exact Hbest |]. split.
  - intros k w Hw b.
    destruct (best_props_field all_props k w Hw)
      as (best' & Hbest' & _ & Hin & _).
    assert (best' = best) by congruence. subst best'.
    destruct (winner_outranks _ _ Hw) as [Hwin _].
    apply field_props_key in Hwin. destruct Hwin as [_ Hk].
    pose proof (origins_of_field _ _ Hnd Hin) as Ho.
    rewrite resolved_key, Hk in Ho. fold b in Ho, Hin.
    split; [exact Hin |].
    assert (Hagg : Cand.aggregate w = true -> Cand.track b = false).
    { intros H. unfold b, resolved. rewrite H. reflexivity. }
    assert (Hsame : Cand.aggregate w = false -> b = w).
    { intros H. unfold b, resolved. rewrite H. reflexivity. }
    split; [| split; [| split; assumption]].
    + intros Ht. rewrite Ht in Ho.
      destruct (Cand.aggregate w) eqn:Ea.
      * rewrite Hagg in Ht by reflexivity. discriminate.
      * rewrite (Hsame eq_refl) in Ho.
        split; [exact Ho |]. rewrite <- Hk. reflexivity.
    + intros Ht. rewrite Ht in Ho. exact Ho.
  - intros k Hk. apply origins_of_no_field. intros b Hb Hbk.
    destruct (HR b Hb) as (w & Hw & _). rewrite Hbk, Hk in Hw.
    discriminate.
Qed.

(** C6 at the scenario of the three tasks: the one provenance entry about
    [energy_result] is that of the second task. *)
Lemma origins_follow_tracked_winners_witness :
  exists best,
    best_props Examples.scenario_props = inr best /\
    filter (about "energy_result") (origins best)
    = [PDict [(AStr "molecules_key", PAtom (AStr "energy_result"));
              (AStr "task_type", PAtom (AStr "opt"));
              (AStr "task_id", PAtom (AStr "eg-2"));
              (AStr "last_updated", PAtom (AInt 10))]] /\
    filter (about "structure") (origins best) = [].
Proof.
  destruct (origins_follow_tracked_winners Examples.scenario_props)
    as (best & Hbest & Hw & Hnone).
  exists best. split; [exact Hbest |]. split.
  - refine (eq_trans
              (proj1 (proj1 (proj2 (Hw "energy_result" _ _)) _)) _).
    + vm_compute. reflexivity.
    + reflexivity.
    + reflexivity.
  - apply Hnone. reflexivity.
Defined.

(** ** Dicts *)

Lemma atom_eqb_norm (a b : atom) : atom_eqb a b = true <-> norm a = norm b.
Proof.
  destruct a as [| x | x | x], b as [| y | y | y]; simpl;
    try (split; [discriminate | congruence]);
    try (split; reflexivity).
  - destruct x, y; simpl; split; congruence.
  - rewrite Z.eqb_eq. split; congruence.
  - rewrite Z.eqb_eq. split; congruence.
  - rewrite Z.eqb_eq. split; congruence.
  - rewrite String.eqb_eq. split; congruence.
Qed.

Lemma atom_eqb_refl (a : atom) : atom_eqb a a = true.
Proof. apply atom_eqb_norm. reflexivity. Qed.

Lemma atom_eqb_sym (a b : atom) : atom_eqb a b = atom_eqb b a.
Proof.
  destruct (atom_eqb a b) eqn:E, (atom_eqb b a) eqn:E'; try reflexivity.
  - apply atom_eqb_norm in E. symmetry in E. apply atom_eqb_norm in E.
    congruence.
  - apply atom_eqb_norm in E'. symmetry in E'. apply atom_eqb_norm in E'.
    congruence.
Qed.

Lemma atom_eqb_trans (a b c : atom) :
  atom_eqb a b = true -> atom_eqb b c = true -> atom_eqb a c = true.
Proof. rewrite !atom_eqb_norm. congruence. Qed.

Lemma dict_get_set_same (k : atom) (v : pyval) (d : dict) :
  dict_get k (dict_set k v d) = Some v.
Proof.
  induction d as [| [k' v'] d IH]; simpl.
  - rewrite atom_eqb_refl. reflexivity.
  - destruct (atom_eqb k k') eqn:E; simpl; rewrite E; auto.
Qed.

Lemma dict_get_set_other (j k : atom) (v : pyval) (d : dict) :
  atom_eqb j k = false -> dict_get j (dict_set k v d) = dict_get j d.
Proof.
  intros Hjk. induction d as [| [k' v'] d IH]; simpl.
  - rewrite Hjk. reflexivity.
  - destruct (atom_eqb k k') eqn:E; simpl.
    + destruct (atom_eqb j k') eqn:E'; [| reflexivity].
      rewrite atom_eqb_sym in E.
      rewrite (atom_eqb_trans _ _ _ E' E) in Hjk. discriminate.
    + rewrite IH. reflexivity.
Qed.

Lemma dict_has_set (j k : atom) (v : pyval) (d : dict) :
  dict_has j (dict_set k v d) = atom_eqb j k || dict_has j d.
Proof.
  unfold dict_has. destruct (atom_eqb j k) eqn:E; simpl.
  - induction d as [| [k' v'] d IH]; simpl.
    + rewrite E. reflexivity.
    + destruct (atom_eqb k k') eqn:E'; simpl.
      * rewrite (atom_eqb_trans _ _ _ E E'). reflexivity.
      * destruct (atom_eqb j k'); [reflexivity | exact IH].
  - rewrite dict_get_set_other by exact E. reflexivity.
Qed.

(** *** What [set_] changes *)

Lemma set_tokens_shape (tokens : list string) (v : pyval) (d d' : dict) :
  set_tokens tokens v d = inr d' ->
  exists x, d' = dict_set (match tokens with
                           | [] => ANone
                           | key :: _ => AStr key
                           end) x d.
Proof.
  destruct tokens as [| key [| key' rest]]; simpl; intros H.
  - injection H as <-. eauto.
  - injection H as <-. eauto.
  - destruct (dict_get (AStr key) d) as [[a | l | sub] |].
    + discriminate.
    + discriminate.
    + apply bind_inr in H. destruct H as (sub' & _ & H).
      injection H as <-. eauto.
    + apply bind_inr in H. destruct H as (sub' & _ & H).
      injection H as <-. eauto.
Qed.

Lemma set__shape (obj obj' : dict) (path : string) (v : pyval) :
  set_ obj path v = inr obj' ->
  exists x, obj' = dict_set (target_key path) x obj.
Proof. apply set_tokens_shape. Qed.

(** A path of a single name is stored at that name, and [set_] returns. *)
Lemma set__flat (obj : dict) (path : string) (v : pyval) :
  contains "." path = false ->
  set_ obj path v = inr (dict_set (AStr path) v obj).
Proof.
  intros H. unfold set_, to_path_tokens. rewrite H. reflexivity.
Qed.

Section Merge.
Variable A : Type.
Variable path_of : A -> string.
Variable value_of : A -> pyval.

Let step (m : dict) (x : A) : result dict := set_ m (path_of x) (value_of x).

(** The keys that the merge loop does not write keep their values. *)
Lemma merge_other (l : list A) (m m' : dict) (j : atom) :
  foldM step m l = inr m' ->
  (forall x, In x l -> atom_eqb j (target_key (path_of x)) = false) ->
  dict_get j m' = dict_get j m.
Proof.
  revert m. induction l as [| x l IH]; simpl; intros m H Hj.
  - injection H as <-. reflexivity.
  - apply bind_inr in H. destruct H as (m1 & H1 & H).
    apply set__shape in H1. destruct H1 as (y & ->).
    rewrite (IH _ H) by auto.
    apply dict_get_set_other. auto.
Qed.

(** The merge loop removes no key. *)
Lemma merge_keeps (l : list A) (m m' : dict) (j : atom) :
  foldM step m l = inr m' -> dict_has j m = true -> dict_has j m' = true.
Proof.
  revert m. induction l as [| x l IH]; simpl; intros m H Hj.
  - injection H as <-. exact Hj.
  - apply bind_inr in H. destruct H as (m1 & H1 & H).
    apply set__shape in H1. destruct H1 as (y & ->).
    apply (IH _ H). rewrite dict_has_set, Hj. apply orb_true_r.
Qed.

(** A key is in the merged document only if it was there before or an
    element wrote it. *)
Lemma merge_has (l : list A) (m m' : dict) (j : atom) :
  foldM step m l = inr m' -> dict_has j m' = true ->
  dict_has j m = true \/
  exists x, In x l /\ atom_eqb j (target_key (path_of x)) = true.
Proof.
  revert m. induction l as [| y l IH]; simpl; intros m H Hj.
  - injection H as <-. auto.
  - apply bind_inr in H. destruct H as (m1 & H1 & H).
    apply set__shape in H1. destruct H1 as (z & ->).
    destruct (IH _ H Hj) as [Hm | (x & Hx & Hw)].
    + rewrite dict_has_set in Hm. apply orb_true_iff in Hm.
      destruct Hm as [Hm | Hm]; eauto.
    + eauto.
Qed.

(** The loop returns when every path is a single name. *)
Lemma merge_flat (l : list A) (m : dict) :
  (forall x, In x l -> contains "." (path_of x) = false) ->
  exists m', foldM step m l = inr m'.
Proof.
  revert m. induction l as [| x l IH]; simpl; intros m H.
  - eexists. reflexivity.
  - unfold step at 1. rewrite set__flat by auto. simpl. apply IH. auto.
Qed.
End Merge.

(** ** Candidates and their tasks *)

Section Extraction.
Variable task_type : pyval -> string.
Variable self : Builder.t.

(** A candidate carries the id and timestamp of its task and the target
    field and flags of its rule. *)
Lemma task_to_prop_list_spec (task : Task.t) (p : Cand.t) :
  In p (task_to_prop_list task_type self task) ->
  Cand.task_id p = Task.task_id task /\
  Cand.last_updated p = Task.last_updated task /\
  exists r, In r (Builder.settings self) /\
            Cand.molecules_key p = Rule.molecules_key r /\
            Cand.track p = Rule.track r /\
            Cand.aggregate p = Rule.aggregate r.
Proof.
  unfold task_to_prop_list. rewrite in_flat_map.
  intros (r & Hr & Hp). unfold rule_to_prop in Hp.
  destruct (assoc _ _) as [score |]; [| contradiction].
  destruct (has _ _); [| contradiction].
  destruct Hp as [<- | []]. simpl. eauto 10.
Qed.

Lemma all_props_of_spec (task_group : list Task.t) (p : Cand.t) :
  In p (all_props_of task_type self task_group) ->
  exists t r, In t task_group /\ In r (Builder.settings self) /\
              Cand.task_id p = Task.task_id t /\
              Cand.last_updated p = Task.last_updated t /\
              Cand.molecules_key p = Rule.molecules_key r.
Proof.
  unfold all_props_of. rewrite in_flat_map. intros (t & Ht & Hp).
  destruct (task_to_prop_list_spec _ _ Hp) as (Hid & Hlu & r & Hr & Hk & _).
  exists t, r. auto.
Qed.

(** The steps of [make_mol], when it reaches the end of the merge loop. *)
Lemma merged_mol_of_inr (task_group : list Task.t) (all_props : list Cand.t)
    (mol : dict) :
  merged_mol_of self task_group all_props = inr mol ->
  exists mol_id best updated created,
    mol_id_of self all_props = inr mol_id /\
    best_props all_props = inr best /\
    py_max (map Cand.last_updated all_props) = inr updated /\
    py_min (map Cand.last_updated all_props) = inr created /\
    foldM (fun m prop => set_ m (Cand.molecules_key prop) (Cand.value prop))
          (mol_display self updated created
             (distinct atom_eqb (map Task.task_id task_group)) mol_id
             (origins best)
             (dict_display
                (map (fun t => (Cand.task_id t,
                                PAtom (AStr (Cand.task_type t))))
                     all_props)))
          best = inr mol.
Proof.
  unfold merged_mol_of. intros H.
  apply bind_inr in H. destruct H as (mol_id & H3 & H).
  apply bind_inr in H. destruct H as (best & H4 & H).
  apply bind_inr in H. destruct H as (updated & H5 & H).
  apply bind_inr in H. destruct H as (created & H6 & H).
  exists mol_id, best, updated, created. auto 10.
Qed.

Lemma make_mol_inr (task_group : list Task.t) (mol : dict) :
  make_mol task_type self task_group = inr mol ->
  merged_mol task_type self task_group = inr mol /\
  dict_has (AStr "structure") mol = false.
Proof.
  unfold make_mol. intros H.
  apply bind_inr in H. destruct H as (m & Hm & H).
  destruct (dict_has (AStr "structure") m) eqn:Hs; [discriminate |].
  injection H as <-. auto.
Qed.

(** The resolved properties target fields of candidates. *)
Lemma best_props_keys (all_props best : list Cand.t) (b : Cand.t) :
  best_props all_props = inr best -> In b best ->
  exists p, In p all_props /\ Cand.molecules_key p = Cand.molecules_key b.
Proof.
  intros Hbest Hb.
  destruct (best_props_spec all_props) as (best' & Hbest' & _ & HR & _).
  assert (best' = best) by congruence. subst best'.
  destruct (HR b Hb) as (w & Hw & _).
  destruct (winner_outranks _ _ Hw) as [Hin _].
  apply field_props_key in Hin. destruct Hin as [Hin Hk]. eauto.
Qed.
End Extraction.

(** ** Claims on the document *)

(** C10. When no task of the group yields a candidate, [make_mol] raises:
    the list of possible molecule ids is empty and indexing its first
    element fails, before the document is built; the maximum and the minimum
    of the empty list of timestamps would fail as well. *)
Theorem make_mol_needs_a_candidate
    (task_type : pyval -> string) (self : Builder.t)
    (task_group : list Task.t) :
  task_group <> [] ->
  all_props_of task_type self task_group = [] ->
  make_mol task_type self task_group = inl IndexError /\
  py_max (map Cand.last_updated (all_props_of task_type self task_group))
    = inl ValueError /\
  py_min (map Cand.last_updated (all_props_of task_type self task_group))
    = inl ValueError.
Proof.
  intros _ H. unfold make_mol, merged_mol. rewrite H.
  repeat split; reflexivity.
Qed.

(** C10 at a task whose only rule has an absent, optional source path. *)
Lemma make_mol_needs_a_candidate_witness :
  make_mol Examples.classify (Examples.builder [Examples.gap_rule])
           [Examples.t1] = inl IndexError /\
  py_max (map Cand.last_updated
            (all_props_of Examples.classify
               (Examples.builder [Examples.gap_rule]) [Examples.t1]))
    = inl ValueError /\
  py_min (map Cand.last_updated
            (all_props_of Examples.classify
               (Examples.builder [Examples.gap_rule]) [Examples.t1]))
    = inl ValueError.
Proof.
  apply (make_mol_needs_a_candidate Examples.classify
           (Examples.builder [Examples.gap_rule]) [Examples.t1]).
  - discriminate.
  - reflexivity.
Defined.

(** C4, what the code does instead. Whenever the document that [make_mol]
    has assembled contains the key [structure], [make_mol] raises a
    [NameError] and returns no document: the metadata is never computed. *)
Theorem structure_metadata_raises_NameError
    (task_type : pyval -> string) (self : Builder.t)
    (task_group : list Task.t) (mol : dict) :
  merged_mol task_type self task_group = inr mol ->
  dict_has (AStr "structure") mol = true ->
  make_mol task_type self task_group = inl NameError.
Proof.
  intros Hm Hs. unfold make_mol. rewrite Hm. simpl. rewrite Hs. reflexivity.
Qed.

(** C4 at a task whose rule fills [structure]. *)
Lemma structure_metadata_raises_NameError_witness :
  make_mol Examples.classify (Examples.builder [Examples.structure_rule])
           [Examples.t1] = inl NameError.
Proof.
  eapply (structure_metadata_raises_NameError Examples.classify
            (Examples.builder [Examples.structure_rule]) [Examples.t1]).
  - vm_compute. reflexivity.
  - vm_compute. reflexivity.
Defined.

(** No document that [make_mol] returns contains the key [structure]. *)
Lemma make_mol_has_no_structure
    (task_type : pyval -> string) (self : Builder.t)
    (task_group : list Task.t) (mol : dict) :
  make_mol task_type self task_group = inr mol -> valid mol = false.
Proof. intros H. apply (make_mol_inr _ _ _ _ H). Qed.

(** *** The document display *)

Lemma distinct_fields_neq (self : Builder.t) :
  distinct_fields self ->
  let lu := Builder.molecules_lu_field self in
  let key := Builder.molecules_key self in
  (lu <> "created_at" /\ lu <> "task_ids" /\ lu <> key /\ lu <> "origins" /\
   lu <> "task_types") /\
  ("created_at" <> key /\ "task_ids" <> key /\ key <> "origins" /\
   key <> "task_types").
Proof.
  unfold distinct_fields. intros H.
  repeat match goal with
         | H : NoDup (_ :: _) |- _ =>
             let Hn := fresh "Hn" in
             apply NoDup_cons_iff in H; destruct H as [Hn H]; simpl in Hn
         end.
  repeat split; intros E; (apply Hn; auto 10) || (apply Hn0; auto 10)
    || (apply Hn1; auto 10) || (apply Hn2; auto 10).
Qed.

Lemma astr_eqb (a b : string) : atom_eqb (AStr a) (AStr b) = String.eqb a b.
Proof. reflexivity. Qed.

Lemma mol_display_has (self : Builder.t) (updated created : Z)
    (task_ids : list atom) (mol_id : pyval) (os : list pyval) (tt : dict)
    (j : string) :
  dict_has (AStr j)
           (mol_display self updated created task_ids mol_id os tt) = true ->
  In j [Builder.molecules_lu_field self; "created_at"; "task_ids";
        Builder.molecules_key self; "origins"; "task_types"].
Proof.
  cbv beta iota delta [mol_display dict_display fold_left fst snd].
  rewrite !dict_has_set, !astr_eqb.
  change (dict_has (AStr j) []) with false.
  rewrite !orb_true_iff, !String.eqb_eq.
  intros H. decompose [or] H; subst; simpl; auto 10; congruence.
Qed.

Lemma mol_display_timestamps (self : Builder.t) (updated created : Z)
    (task_ids : list atom) (mol_id : pyval) (os : list pyval) (tt : dict) :
  distinct_fields self ->
  dict_get (AStr (Builder.molecules_lu_field self))
           (mol_display self updated created task_ids mol_id os tt)
    = Some (PAtom (AInt updated)) /\
  dict_get (AStr "created_at")
           (mol_display self updated created task_ids mol_id os tt)
    = Some (PAtom (AInt created)).
Proof.
  intros H. apply distinct_fields_neq in H. simpl in H.
  destruct H as [(H1 & H2 & H3 & H4 & H5) (H6 & _)].
  cbv beta iota delta [mol_display dict_display fold_left fst snd].
  split.
  - rewrite !dict_get_set_other
      by (rewrite astr_eqb; apply String.eqb_neq; assumption).
    apply dict_get_set_same.
  - rewrite dict_get_set_other by reflexivity.
    rewrite dict_get_set_other by reflexivity.
    rewrite dict_get_set_other
      by (rewrite astr_eqb; apply String.eqb_neq; assumption).
    rewrite dict_get_set_other by reflexivity.
    apply dict_get_set_same.
Qed.

Lemma mol_display_id (self : Builder.t) (updated created : Z)
    (task_ids : list atom) (mol_id : pyval) (os : list pyval) (tt : dict) :
  distinct_fields self ->
  dict_get (AStr (Builder.molecules_key self))
           (mol_display self updated created task_ids mol_id os tt)
    = Some mol_id.
Proof.
  intros H. apply distinct_fields_neq in H. simpl in H.
  destruct H as [_ (_ & _ & H3 & H4)].
  cbv beta iota delta [mol_display dict_display fold_left fst snd].
  rewrite !dict_get_set_other
    by (rewrite astr_eqb; apply String.eqb_neq; assumption).
  apply dict_get_set_same.
Qed.

(** *** Maximum and minimum *)

Lemma fold_max_spec (l : list Z) (x : Z) :
  In (fold_left Z.max l x) (x :: l) /\
  forall y, In y (x :: l) -> y <= fold_left Z.max l x.
Proof.
  revert x. induction l as [| z l IH]; intros x; simpl.
  - split; [auto | intros y [<- | []]; lia].
  - destruct (IH (Z.max x z)) as [Hin Hle]. split.
    + destruct Hin as [Hin | Hin]; [| auto].
      rewrite <- Hin. destruct (Z.max_spec x z) as [[_ ->] | [_ ->]]; auto.
    + intros y Hy.
      assert (Hm : Z.max x z <= fold_left Z.max l (Z.max x z))
        by (apply Hle; left; reflexivity).
      destruct Hy as [<- | [<- | Hy]]; [lia | lia |].
      apply Hle. right. exact Hy.
Qed.

Lemma fold_min_spec (l : list Z) (x : Z) :
  In (fold_left Z.min l x) (x :: l) /\
  forall y, In y (x :: l) -> fold_left Z.min l x <= y.
Proof.
  revert x. induction l as [| z l IH]; intros x; simpl.
  - split; [auto | intros y [<- | []]; lia].
  - destruct (IH (Z.min x z)) as [Hin Hle]. split.
    + destruct Hin as [Hin | Hin]; [| auto].
      rewrite <- Hin. destruct (Z.min_spec x z) as [[_ ->] | [_ ->]]; auto.
    + intros y Hy.
      assert (Hm : fold_left Z.min l (Z.min x z) <= Z.min x z)
        by (apply Hle; left; reflexivity).
      destruct Hy as [<- | [<- | Hy]]; [lia | lia |].
      apply Hle. right. exact Hy.
Qed.

Lemma py_max_spec (l : list Z) (m : Z) :
  py_max l = inr m -> In m l /\ forall y, In y l -> y <= m.
Proof.
  destruct l as [| x l]; simpl; intros H; [discriminate |].
  injection H as <-. apply fold_max_spec.
Qed.

Lemma py_min_spec (l : list Z) (m : Z) :
  py_min l = inr m -> In m l /\ forall y, In y l -> m <= y.
Proof.
  destruct l as [| x l]; simpl; intros H; [discriminate |].
  injection H as <-. apply fold_min_spec.
Qed.

(** A key that no rule writes is written by no resolved property. *)
Lemma untouched_best (task_type : pyval -> string) (self : Builder.t)
    (task_group : list Task.t) (best : list Cand.t) (k : string) :
  untouched self k ->
  best_props (all_props_of task_type self task_group) = inr best ->
  forall b, In b best ->
            atom_eqb (AStr k) (target_key (Cand.molecules_key b)) = false.
Proof.
  intros Hk Hbest b Hb.
  destruct (best_props_keys _ _ _ Hbest Hb) as (p & Hp & Hpk).
  destruct (all_props_of_spec _ _ _ _ Hp) as (t & r & _ & Hr & _ & _ & Hrk).
  rewrite <- Hpk, Hrk. apply (Hk r Hr).
Qed.

(** C5, as the code has it. When the field names of the document display
    are pairwise different and no rule of the settings table writes the
    store's [last_updated] field or [created_at], every document that
    [make_mol] returns has, under these two keys, the maximum and the
    minimum of [last_updated] over all candidates of the group, whichever of
    them won a field. Hence [created_at] is at most the updated timestamp,
    and both lie between the least and the greatest [last_updated] of the
    tasks of the group. *)
Theorem timestamps_span_all_candidates
    (task_type : pyval -> string) (self : Builder.t)
    (task_group : list Task.t) (mol : dict) :
  make_mol task_type self task_group = inr mol ->
  distinct_fields self ->
  untouched self (Builder.molecules_lu_field self) ->
  untouched self "created_at" ->
  exists updated created,
    dict_get (AStr (Builder.molecules_lu_field self)) mol
      = Some (PAtom (AInt updated)) /\
    dict_get (AStr "created_at") mol = Some (PAtom (AInt created)) /\
    (exists p, In p (all_props_of task_type self task_group) /\
               Cand.last_updated p = updated) /\
    (exists p, In p (all_props_of task_type self task_group) /\
               Cand.last_updated p = created) /\
    (forall p, In p (all_props_of task_type self task_group) ->
               created <= Cand.last_updated p <= updated) /\
    created <= updated /\
    (forall lo hi,
       (forall t, In t task_group -> lo <= Task.last_updated t <= hi) ->
       lo <= created /\ updated <= hi).
Proof.
  intros Hmol Hd Hlu Hcr.
  apply make_mol_inr in Hmol. destruct Hmol as [Hmol _].
  apply merged_mol_of_inr in Hmol.
  destruct Hmol as (mol_id & best & updated & created &
                    _ & Hbest & Hmax & Hmin & Hfold).
  exists updated, created.
  destruct (mol_display_timestamps self updated created
              (distinct atom_eqb (map Task.task_id task_group)) mol_id
              (origins best)
              (dict_display
                 (map (fun t => (Cand.task_id t,
                                 PAtom (AStr (Cand.task_type t))))
                      (all_props_of task_type self task_group))) Hd)
    as [Hu Hc].
  rewrite <- Hu, <- Hc.
  split; [| split].
  - apply (merge_other _ _ _ _ _ _ _ Hfold).
    apply (untouched_best _ _ _ _ _ Hlu Hbest).
  - apply (merge_other _ _ _ _ _ _ _ Hfold).
    apply (untouched_best _ _ _ _ _ Hcr Hbest).
  - apply py_max_spec in Hmax. apply py_min_spec in Hmin.
    destruct Hmax as [Hmax_in Hmax], Hmin as [Hmin_in Hmin].
    rewrite in_map_iff in Hmax_in, Hmin_in.
    destruct Hmax_in as (pu & Hpu & Hpu_in), Hmin_in as (pc & Hpc & Hpc_in).
    assert (Hall : forall p, In p (all_props_of task_type self task_group) ->
                             created <= Cand.last_updated p <= updated).
    { intros p Hp. split; [apply Hmin | apply Hmax]; apply in_map; exact Hp. }
    split; [eauto |]. split; [eauto |]. split; [exact Hall |].
    split; [specialize (Hall pu Hpu_in); lia |].
    intros lo hi Hb.
    destruct (all_props_of_spec _ _ _ _ Hpu_in) as (tu & _ & Htu & _ & _ & Hlu' & _).
    destruct (all_props_of_spec _ _ _ _ Hpc_in) as (tc & _ & Htc & _ & _ & Hlc' & _).
    pose proof (Hb tu Htu). pose proof (Hb tc Htc). lia.
Qed.

(** C5 at the scenario of the three tasks. *)
Lemma timestamps_span_all_candidates_witness :
  exists updated created,
    dict_get (AStr "last_updated") Examples.scenario_mol
      = Some (PAtom (AInt updated)) /\
    dict_get (AStr "created_at") Examples.scenario_mol
      = Some (PAtom (AInt created)) /\
    (exists p, In p Examples.scenario_props /\ Cand.last_updated p = updated) /\
    (exists p, In p Examples.scenario_props /\ Cand.last_updated p = created) /\
    (forall p, In p Examples.scenario_props ->
               created <= Cand.last_updated p <= updated) /\
    created <= updated /\
    (forall lo hi,
       (forall t, In t [Examples.t1; Examples.t2; Examples.t3] ->
                  lo <= Task.last_updated t <= hi) ->
       lo <= created /\ updated <= hi).
Proof.
  apply (timestamps_span_all_candidates Examples.classify
           (Examples.builder [Examples.energy_rule])
           [Examples.t1; Examples.t2; Examples.t3] Examples.scenario_mol).
  - vm_compute. reflexivity.
  - unfold distinct_fields. simpl.
    repeat (constructor; [simpl; intuition discriminate |]). constructor.
  - intros r [<- | []]. reflexivity.
  - intros r [<- | []]. reflexivity.
Defined.

(** C5 fails as stated. With a rule whose target field is [created_at],
    the resolved value of that rule replaces the minimum that the display
    had stored: the document of two tasks last updated at 30 and 10 is
    returned with [created_at] at the winning energy -7, below every
    [last_updated] of the group. *)
Lemma created_at_overwritten_by_rule :
  exists mol,
    make_mol Examples.classify (Examples.builder [Examples.created_at_rule])
             [Examples.t1; Examples.t2] = inr mol /\
    dict_get (AStr "created_at") mol = Some (PAtom (AInt (-7))) /\
    dict_get (AStr "last_updated") mol = Some (PAtom (AInt 30)) /\
    py_min (map Cand.last_updated
              (all_props_of Examples.classify
                 (Examples.builder [Examples.created_at_rule])
                 [Examples.t1; Examples.t2])) = inr 10.
Proof. eexists. repeat split; vm_compute; reflexivity. Qed.

(** ** Claims on validation *)

Lemma valid_stamped (timestamp : Z) (doc : dict) :
  valid (dict_set (AStr "_bt") (PAtom (AInt timestamp)) doc) = valid doc.
Proof. unfold valid. rewrite dict_has_set. reflexivity. Qed.

(** Every document of the batch is a valid document of the input, stamped. *)
Lemma update_targets_batch (timestamp : Z) (items : list (list dict))
    (batch : list dict) (d : dict) :
  update_targets timestamp items = Some batch -> In d batch ->
  valid d = true /\
  exists d0, In d0 (List.concat items) /\ valid d0 = true /\
             d = dict_set (AStr "_bt") (PAtom (AInt timestamp)) d0.
Proof.
  unfold update_targets.
  set (kept := filter (fun i => truthy i && valid i) (List.concat items)).
  intros H Hd.
  assert (Hb : batch = map (dict_set (AStr "_bt") (PAtom (AInt timestamp)))
                           kept).
  { destruct (map _ kept); [discriminate | congruence]. }
  subst batch. apply in_map_iff in Hd. destruct Hd as (d0 & <- & Hd0).
  apply filter_In in Hd0. destruct Hd0 as [Hin Hv].
  apply andb_true_iff in Hv. destruct Hv as [_ Hv].
  rewrite valid_stamped. eauto.
Qed.

(** A group none of whose candidates writes [structure] has no such key in
    its assembled document. *)
Lemma merged_mol_without_structure
    (task_type : pyval -> string) (self : Builder.t)
    (task_group : list Task.t) (mol : dict) :
  merged_mol task_type self task_group = inr mol ->
  (forall p, In p (all_props_of task_type self task_group) ->
             writes (Cand.molecules_key p) "structure" = false) ->
  Builder.molecules_lu_field self <> "structure" ->
  Builder.molecules_key self <> "structure" ->
  dict_has (AStr "structure") mol = false.
Proof.
  intros Hm Hnone Hlu Hkey.
  destruct (dict_has (AStr "structure") mol) eqn:Hs; [| reflexivity].
  exfalso. unfold merged_mol in Hm. apply merged_mol_of_inr in Hm.
  destruct Hm as (mol_id & best & updated & created &
                  _ & Hbest & _ & _ & Hfold).
  destruct (merge_has _ _ _ _ _ _ _ Hfold Hs) as [Hd | (b & Hb & Hw)].
  - apply mol_display_has in Hd. simpl in Hd.
    decompose [or] Hd; try discriminate; try contradiction; congruence.
  - destruct (best_props_keys _ _ _ Hbest Hb) as (p & Hp & Hpk).
    specialize (Hnone p Hp). unfold writes in Hnone.
    rewrite Hpk in Hnone. congruence.
Qed.

(** ** The order of task ids *)

(** Tuples compare on the prefix first, then on the number. *)
Lemma key_ltb_tuple (p p' : string) (n n' : Z) :
  key_ltb (KTuple p n) (KTuple p' n') = true <->
  String.ltb p p' = true \/ (p = p' /\ n < n').
Proof.
  simpl. destruct (String.eqb_spec p p') as [-> | Hne].
  - rewrite Z.ltb_lt, string_ltb_irrefl. intuition discriminate.
  - intuition congruence.
Qed.

Lemma key_ltb_num (x y : Z) : key_ltb (KNum x) (KNum y) = true <-> x < y.
Proof. simpl. apply Z.ltb_lt. Qed.

Lemma key_ltb_irrefl (a : id_key) : key_ltb a a = false.
Proof.
  destruct a as [p n | z]; simpl.
  - rewrite String.eqb_refl. apply Z.ltb_irrefl.
  - apply Z.ltb_irrefl.
Qed.

Lemma key_ltb_trans (a b c : id_key) :
  key_ltb a b = true -> key_ltb b c = true -> key_ltb a c = true.
Proof.
  destruct a as [p n | x], b as [p' n' | y], c as [p'' n'' | z];
    try (simpl; congruence).
  - rewrite !key_ltb_tuple.
    intros [H1 | [-> H1]] [H2 | [-> H2]].
    + left. eapply string_ltb_trans; eassumption.
    + left. exact H1.
    + left. exact H2.
    + right. split; [reflexivity | lia].
  - rewrite !key_ltb_num. lia.
Qed.

Lemma key_ltb_trichotomy (a b : id_key) :
  key_ltb a b = true \/ a = b \/ key_ltb b a = true.
Proof.
  destruct a as [p n | x], b as [p' n' | y]; try (simpl; auto; fail).
  - rewrite !key_ltb_tuple.
    destruct (string_trichotomy p p') as [H | [-> | H]]; [auto | | auto].
    destruct (Z.lt_trichotomy n n') as [H | [-> | H]]; auto 6.
  - change (key_ltb (KNum x) (KNum y) = true \/ KNum x = KNum y \/
            key_ltb (KNum y) (KNum x) = true).
    rewrite !key_ltb_num.
    destruct (Z.lt_trichotomy x y) as [H | [-> | H]]; auto.
Qed.

Lemma key_ltb_total (a b : id_key) :
  key_ltb a b = false -> key_ltb b a = false -> a = b.
Proof.
  intros H1 H2. destruct (key_ltb_trichotomy a b) as [H | [H | H]]; congruence.
Qed.

Lemma key_ltb_negtrans (a b c : id_key) :
  key_ltb a b = false -> key_ltb b c = false -> key_ltb a c = false.
Proof.
  intros H1 H2. destruct (key_ltb a c) eqn:H3; [| reflexivity].
  destruct (key_ltb_trichotomy a b) as [H | [-> | H]]; [congruence.. |].
  rewrite (key_ltb_trans _ _ _ H H3) in H2. discriminate.
Qed.

Lemma id_ltb_trans (p q r : Cand.t) :
  id_ltb p q = true -> id_ltb q r = true -> id_ltb p r = true.
Proof. apply key_ltb_trans. Qed.

Lemma id_ltb_negtrans (p q r : Cand.t) :
  id_ltb p q = false -> id_ltb q r = false -> id_ltb p r = false.
Proof. apply key_ltb_negtrans. Qed.

Lemma id_ltb_irrefl (p : Cand.t) : id_ltb p p = false.
Proof. apply key_ltb_irrefl. Qed.

(** *** [sorted_by_ID] as a sort of the candidates *)

Lemma insert_map {A B} (lt : B -> B -> bool) (g : A -> B) (x : A) (l : list A) :
  insert lt (g x) (map g l) = map g (insert (fun a b => lt (g a) (g b)) x l).
Proof.
  induction l as [| y l IH]; simpl.
  - reflexivity.
  - destruct (lt (g y) (g x)); simpl; [rewrite IH |]; reflexivity.
Qed.

Lemma sorted_map {A B} (lt : B -> B -> bool) (g : A -> B) (l : list A) :
  sorted lt (map g l) = map g (sorted (fun a b => lt (g a) (g b)) l).
Proof.
  induction l as [| x l IH]; simpl.
  - reflexivity.
  - rewrite IH. apply insert_map.
Qed.

Lemma combine_map_self {A B} (f : A -> B) (l : list A) :
  combine (map f l) l = map (fun x => (f x, x)) l.
Proof.
  induction l as [| x l IH]; simpl; [| rewrite IH]; reflexivity.
Qed.

Lemma mapM_keys (l : list Cand.t) (keys : list id_key) :
  mapM (fun p => ID_to_int (Cand.task_id p)) l = inr keys ->
  keys = map key_of l /\
  forall p, In p l -> ID_to_int (Cand.task_id p) = inr (key_of p).
Proof.
  intros H. apply mapM_inr in H.
  induction H as [| p k l keys Hp _ [IH1 IH2]].
  - split; [reflexivity | intros p []].
  - assert (Hk : key_of p = k) by (unfold key_of; rewrite Hp; reflexivity).
    split.
    + simpl. rewrite Hk, IH1. reflexivity.
    + intros q [<- | Hq]; [rewrite Hk; exact Hp | auto].
Qed.

(** [sorted_by_ID] returns exactly when every task id has a key and the
    keys are of one kind; it returns the stable sort on the keys. *)
Lemma sorted_by_ID_inr (l s : list Cand.t) :
  sorted_by_ID l = inr s <->
  (forall p, In p l -> ID_to_int (Cand.task_id p) = inr (key_of p)) /\
  comparable (map key_of l) = true /\
  s = sorted id_ltb l.
Proof.
  unfold sorted_by_ID. split.
  - intros H. apply bind_inr in H. destruct H as (keys & Hk & H).
    apply mapM_keys in Hk. destruct Hk as [-> Hk].
    destruct (comparable (map key_of l)); [| discriminate].
    injection H as <-. split; [exact Hk |]. split; [reflexivity |].
    rewrite combine_map_self, sorted_map, map_map. simpl. apply map_id.
  - intros (Hk & Hc & ->).
    rewrite (mapM_total _ key_of l Hk). simpl. rewrite Hc.
    rewrite combine_map_self, sorted_map, map_map. simpl.
    rewrite map_id. reflexivity.
Qed.

Lemma same_kind_sym (a b : id_key) : same_kind a b = same_kind b a.
Proof. destruct a, b; reflexivity. Qed.

Lemma same_kind_trans (a b c : id_key) :
  same_kind a b = true -> same_kind b c = true -> same_kind a c = true.
Proof. destruct a, b, c; simpl; congruence. Qed.

(** The keys compare when any two of them are of one kind. *)
Lemma comparable_iff (keys : list id_key) :
  comparable keys = true <->
  forall a b, In a keys -> In b keys -> same_kind a b = true.
Proof.
  destruct keys as [| k keys]; simpl.
  - split; [intros _ a b [] | reflexivity].
  - rewrite forallb_forall. split.
    + intros H a b Ha Hb.
      assert (Hk : forall c, k = c \/ In c keys -> same_kind k c = true).
      { intros c [<- | Hc]; [destruct k; reflexivity | auto]. }
      apply same_kind_trans with k; [rewrite same_kind_sym |]; auto.
    + intros H c Hc. apply H; auto.
Qed.

Lemma sorted_by_ID_perm (l l' s : list Cand.t) :
  Permutation l l' -> sorted_by_ID l = inr s ->
  sorted_by_ID l' = inr (sorted id_ltb l').
Proof.
  intros HP H. apply sorted_by_ID_inr in H. destruct H as (Hk & Hc & _).
  apply sorted_by_ID_inr. split; [| split; [| reflexivity]].
  - intros p Hp. apply Hk. apply (Permutation_in _ (Permutation_sym HP) Hp).
  - rewrite comparable_iff in *. intros a b Ha Hb.
    apply Hc; eapply Permutation_in;
      try (apply Permutation_map, Permutation_sym, HP); assumption.
Qed.

(** *** What [ID_to_int] makes of a string *)

Lemma split_cons (sep c : ascii) (s : string) :
  split sep (String c s) =
  if Ascii.eqb c sep then EmptyString :: split sep s
  else match split sep s with
       | w :: ws => String c w :: ws
       | [] => [String c EmptyString]
       end.
Proof. reflexivity. Qed.

Lemma contains_cons (c c' : ascii) (s : string) :
  contains c (String c' s) = Ascii.eqb c c' || contains c s.
Proof. reflexivity. Qed.

Lemma split_prefix (p n : string) :
  contains "-" p = false ->
  split "-" (p ++ String "-" n)%string = p :: split "-" n.
Proof.
  induction p as [| c p IH]; intros H.
  - reflexivity.
  - rewrite contains_cons in H. apply orb_false_iff in H.
    destruct H as [Hc Hp].
    change (String c p ++ String "-" n)%string
      with (String c (p ++ String "-" n)%string).
    rewrite split_cons, Ascii.eqb_sym, Hc, (IH Hp). reflexivity.
Qed.

Lemma split_plain (s : string) :
  contains "-" s = false -> split "-" s = [s].
Proof.
  induction s as [| c s IH]; intros H.
  - reflexivity.
  - rewrite contains_cons in H. apply orb_false_iff in H.
    destruct H as [Hc Hs].
    rewrite split_cons, Ascii.eqb_sym, Hc, (IH Hs). reflexivity.
Qed.

(** An id [<prefix>-<digits>] is keyed by the pair of the prefix and the
    number; an id without a dash is keyed by the pair of itself and its
    number, not by the number. *)
Lemma ID_to_int_prefixed (p n : string) :
  contains "-" p = false -> contains "-" n = false ->
  ID_to_int (AStr (p ++ String "-" n)%string)
  = (z <- py_int n ;; ret (KTuple p z)).
Proof.
  intros Hp Hn. unfold ID_to_int.
  rewrite (split_prefix _ _ Hp), (split_plain _ Hn). reflexivity.
Qed.

Lemma ID_to_int_plain (s : string) :
  contains "-" s = false ->
  ID_to_int (AStr s) = (z <- py_int s ;; ret (KTuple s z)).
Proof. intros Hs. unfold ID_to_int. rewrite (split_plain _ Hs). reflexivity. Qed.

Lemma ID_to_int_number (z : Z) : ID_to_int (AInt z) = inr (KNum z).
Proof. reflexivity. Qed.

(** *** The molecule id *)

Lemma item_task_id (p : Cand.t) :
  Cand.item "task_id" p = inr (PAtom (Cand.task_id p)).
Proof. reflexivity. Qed.

Lemma mol_id_of_inr (self : Builder.t) (l : list Cand.t) (i : pyval) :
  Builder.tasks_key self = "task_id" ->
  mol_id_of self l = inr i ->
  exists w, first_min id_ltb l = Some w /\ i = PAtom (Cand.task_id w) /\
            sorted_by_ID l = inr (sorted id_ltb l).
Proof.
  intros Hkey H. unfold mol_id_of in H. rewrite Hkey in H.
  apply bind_inr in H. destruct H as (s & Hs & H).
  pose proof Hs as Hs'. apply sorted_by_ID_inr in Hs'.
  destruct Hs' as (_ & _ & ->).
  rewrite (mapM_total _ (fun p => PAtom (Cand.task_id p))) in H
    by (intros; apply item_task_id).
  simpl in H. rewrite <- hd_sorted.
  destruct (sorted id_ltb l) as [| w s]; [discriminate |].
  injection H as <-. exists w. auto.
Qed.

Lemma mol_id_of_sorted (self : Builder.t) (l s : list Cand.t) (w : Cand.t) :
  Builder.tasks_key self = "task_id" ->
  sorted_by_ID l = inr s -> first_min id_ltb l = Some w ->
  mol_id_of self l = inr (PAtom (Cand.task_id w)).
Proof.
  intros Hkey Hs Hw. unfold mol_id_of. rewrite Hkey, Hs. simpl.
  apply sorted_by_ID_inr in Hs. destruct Hs as (_ & _ & ->).
  rewrite (mapM_total _ (fun p => PAtom (Cand.task_id p)))
    by (intros; apply item_task_id).
  simpl. rewrite <- hd_sorted in Hw.
  destruct (sorted id_ltb l) as [| w' s]; [discriminate |].
  injection Hw as ->. reflexivity.
Qed.

Lemma first_min_some {A} (lt : A -> A -> bool) (l : list A) :
  l <> [] -> exists m, first_min lt l = Some m.
Proof.
  destruct l as [| x l]; [congruence |]. intros _. simpl.
  destruct (first_min lt l) as [m |]; [destruct (lt m x) |]; eauto.
Qed.

(** The least keys of two orderings of one list are the same key. *)
Lemma first_min_perm_key (l l' : list Cand.t) (w w' : Cand.t) :
  Permutation l l' ->
  first_min id_ltb l = Some w -> first_min id_ltb l' = Some w' ->
  key_of w = key_of w'.
Proof.
  intros HP Hw Hw'.
  destruct (first_min_least _ id_ltb id_ltb_trans id_ltb_negtrans
              id_ltb_irrefl _ _ Hw) as [Hin Hle].
  destruct (first_min_least _ id_ltb id_ltb_trans id_ltb_negtrans
              id_ltb_irrefl _ _ Hw') as [Hin' Hle'].
  apply key_ltb_total.
  - apply Hle'. apply (Permutation_in _ HP Hin).
  - apply Hle. apply (Permutation_in _ (Permutation_sym HP) Hin').
Qed.

(** The document carries the molecule id under the key of the store. *)
Lemma make_mol_id (task_type : pyval -> string) (self : Builder.t)
    (task_group : list Task.t) (mol : dict) :
  make_mol task_type self task_group = inr mol ->
  distinct_fields self ->
  untouched self (Builder.molecules_key self) ->
  exists i, mol_id_of self (all_props_of task_type self task_group) = inr i /\
            dict_get (AStr (Builder.molecules_key self)) mol = Some i.
Proof.
  intros Hmol Hd Hu.
  apply make_mol_inr in Hmol. destruct Hmol as [Hmol _].
  apply merged_mol_of_inr in Hmol.
  destruct Hmol as (mol_id & best & updated & created &
                    Hid & Hbest & _ & _ & Hfold).
  exists mol_id. split; [exact Hid |].
  rewrite (merge_other _ _ _ _ _ _ _ Hfold).
  - apply mol_display_id. exact Hd.
  - apply (untouched_best _ _ _ _ _ Hu Hbest).
Qed.

(** C2, as the code has it. Let the task store be keyed by [task_id], the
    field names of the display be pairwise different and no rule write the
    key field of the molecule store.

    - The id of a returned document is the task id of the candidate [w]
      that comes first in the stable sort of all candidates of the group on
      [ID_to_int]: every candidate has a key, none has a key below that of
      [w], and the candidates listed before [w] have keys strictly above it.
      The id is taken from the whole candidate list, once, whatever the
      target fields.
    - Two documents made from reorderings of one candidate list have the
      same id when candidates with equal keys have equal task ids.
    - Reordering the candidate list changes neither whether the id is found
      nor the key of the candidate it is taken from.
    - A string id [<prefix>-<digits>] is keyed by the pair of the prefix and
      the number, a string without a dash by the pair of itself and its
      number, an integer id by itself; pairs compare on the prefix first,
      then on the number. *)
Theorem mol_id_is_first_least_task_id
    (task_type : pyval -> string) (self : Builder.t) :
  Builder.tasks_key self = "task_id" ->
  distinct_fields self ->
  untouched self (Builder.molecules_key self) ->
  (forall task_group mol,
     make_mol task_type self task_group = inr mol ->
     exists w before after,
       all_props_of task_type self task_group = before ++ w :: after /\
       dict_get (AStr (Builder.molecules_key self)) mol
         = Some (PAtom (Cand.task_id w)) /\
       (forall p, In p (all_props_of task_type self task_group) ->
          ID_to_int (Cand.task_id p) = inr (key_of p) /\
          key_ltb (key_of p) (key_of w) = false) /\
       (forall p, In p before -> key_ltb (key_of w) (key_of p) = true)) /\
  (forall task_group task_group' mol mol',
     make_mol task_type self task_group = inr mol ->
     make_mol task_type self task_group' = inr mol' ->
     Permutation (all_props_of task_type self task_group)
                 (all_props_of task_type self task_group') ->
     (forall p q, In p (all_props_of task_type self task_group) ->
                  In q (all_props_of task_type self task_group) ->
                  key_of p = key_of q -> Cand.task_id p = Cand.task_id q) ->
     dict_get (AStr (Builder.molecules_key self)) mol'
     = dict_get (AStr (Builder.molecules_key self)) mol) /\
  (forall all_props all_props' w,
     Permutation all_props all_props' ->
     mol_id_of self all_props = inr (PAtom (Cand.task_id w)) ->
     first_min id_ltb all_props = Some w ->
     exists w', first_min id_ltb all_props' = Some w' /\
                mol_id_of self all_props' = inr (PAtom (Cand.task_id w')) /\
                key_of w' = key_of w) /\
  (forall prefix digits,
     contains "-" prefix = false -> contains "-" digits = false ->
     ID_to_int (AStr (prefix ++ String "-" digits)%string)
     = (z <- py_int digits ;; ret (KTuple prefix z))) /\
  (forall digits,
     contains "-" digits = false ->
     ID_to_int (AStr digits) = (z <- py_int digits ;; ret (KTuple digits z))) /\
  (forall z, ID_to_int (AInt z) = inr (KNum z)) /\
  (forall prefix n prefix' n',
     key_ltb (KTuple prefix n) (KTuple prefix' n') = true <->
     String.ltb prefix prefix' = true \/ (prefix = prefix' /\ n < n')) /\
  (forall x y, key_ltb (KNum x) (KNum y) = true <-> x < y).
Proof.
  intros Hkey Hd Hu.
  repeat match goal with
         | |- _ /\ _ => split
         end;
    [| | | apply ID_to_int_prefixed | apply ID_to_int_plain
     | apply ID_to_int_number | intros; apply key_ltb_tuple
     | apply key_ltb_num].
  - intros task_group mol Hmol.
    destruct (make_mol_id _ _ _ _ Hmol Hd Hu) as (i & Hi & Hget).
    destruct (mol_id_of_inr _ _ _ Hkey Hi) as (w & Hw & -> & Hs).
    apply sorted_by_ID_inr in Hs. destruct Hs as (Hk & _ & _).
    destruct (first_min_split _ id_ltb id_ltb_trans id_ltb_negtrans _ _ Hw)
      as (before & after & Heq & Hb & Ha).
    destruct (first_min_least _ id_ltb id_ltb_trans id_ltb_negtrans
                id_ltb_irrefl _ _ Hw) as [_ Hle].
    exists w, before, after. split; [exact Heq |]. split; [exact Hget |].
    split; [| exact Hb].
    intros p Hp. split; [apply Hk, Hp | apply Hle, Hp].
  - intros tg tg' mol mol' Hmol Hmol' HP Hinj.
    destruct (make_mol_id _ _ _ _ Hmol Hd Hu) as (i & Hi & ->).
    destruct (make_mol_id _ _ _ _ Hmol' Hd Hu) as (i' & Hi' & ->).
    destruct (mol_id_of_inr _ _ _ Hkey Hi) as (w & Hw & -> & _).
    destruct (mol_id_of_inr _ _ _ Hkey Hi') as (w' & Hw' & -> & _).
    pose proof (first_min_perm_key _ _ _ _ HP Hw Hw') as Hk.
    destruct (first_min_least _ id_ltb id_ltb_trans id_ltb_negtrans
                id_ltb_irrefl _ _ Hw) as [Hin _].
    destruct (first_min_least _ id_ltb id_ltb_trans id_ltb_negtrans
                id_ltb_irrefl _ _ Hw') as [Hin' _].
    apply (Permutation_in _ (Permutation_sym HP)) in Hin'.
    rewrite (Hinj w w' Hin Hin' Hk). reflexivity.
  - intros l l' w HP Hi Hw.
    destruct (mol_id_of_inr _ _ _ Hkey Hi) as (w0 & Hw0 & _ & Hs).
    destruct (first_min_some id_ltb l') as (w' & Hw').
    { intros ->. apply Permutation_sym, Permutation_nil in HP. subst l.
      discriminate. }
    exists w'. split; [exact Hw' |]. split.
    + apply (mol_id_of_sorted _ _ _ _ Hkey (sorted_by_ID_perm _ _ _ HP Hs) Hw').
    + symmetry. apply (first_min_perm_key _ _ _ _ HP Hw Hw').
Qed.

(** C2 at the builder of the examples: among [eg-12] and [eg-3] the id is
    [eg-3], among [eg-9] and [abc-1] it is [abc-1], in either order. *)
Lemma mol_id_is_first_least_task_id_witness :
  dict_get (AStr "task_id") (Examples.id_mol [AStr "eg-12"; AStr "eg-3"])
    = Some (PAtom (AStr "eg-3")) /\
  dict_get (AStr "task_id") (Examples.id_mol [AStr "eg-9"; AStr "abc-1"])
    = Some (PAtom (AStr "abc-1")) /\
  dict_get (AStr "task_id") (Examples.id_mol [AStr "eg-3"; AStr "eg-12"])
    = dict_get (AStr "task_id") (Examples.id_mol [AStr "eg-12"; AStr "eg-3"]) /\
  dict_get (AStr "task_id") (Examples.id_mol [AStr "abc-1"; AStr "eg-9"])
    = dict_get (AStr "task_id") (Examples.id_mol [AStr "eg-9"; AStr "abc-1"]).
Proof.
  assert (H := mol_id_is_first_least_task_id Examples.classify
                 (Examples.builder [Examples.energy_rule])).
  destruct H as (_ & Hperm & _).
  - reflexivity.
  - unfold distinct_fields. simpl.
    repeat (constructor; [simpl; intuition discriminate |]). constructor.
  - intros r [<- | []]. reflexivity.
  - split; [reflexivity |]. split; [reflexivity |]. split.
    + apply (Hperm (map Examples.with_id [AStr "eg-12"; AStr "eg-3"])
                   (map Examples.with_id [AStr "eg-3"; AStr "eg-12"])).
      * vm_compute. reflexivity.
      * vm_compute. reflexivity.
      * apply perm_swap.
      * intros p q Hp Hq. vm_compute in Hp, Hq.
        destruct Hp as [<- | [<- | []]], Hq as [<- | [<- | []]];
          vm_compute; congruence.
    + apply (Hperm (map Examples.with_id [AStr "eg-9"; AStr "abc-1"])
                   (map Examples.with_id [AStr "abc-1"; AStr "eg-9"])).
      * vm_compute. reflexivity.
      * vm_compute. reflexivity.
      * apply perm_swap.
      * intros p q Hp Hq. vm_compute in Hp, Hq.
        destruct Hp as [<- | [<- | []]], Hq as [<- | [<- | []]];
          vm_compute; congruence.
Defined.

(** C2 fails as stated, twice. The ids [eg-3] and [eg-03] have the same
    key, and the stable sort lets the input order decide between them: the
    two orders of one group give two ids. And a purely numeric string is
    keyed by the pair of the string and its number, so that ["10"] comes
    before ["9"]. *)
Lemma mol_id_depends_on_order :
  dict_get (AStr "task_id") (Examples.id_mol [AStr "eg-3"; AStr "eg-03"])
    = Some (PAtom (AStr "eg-3")) /\
  dict_get (AStr "task_id") (Examples.id_mol [AStr "eg-03"; AStr "eg-3"])
    = Some (PAtom (AStr "eg-03")) /\
  ID_to_int (AStr "eg-3") = ID_to_int (AStr "eg-03") /\
  ID_to_int (AStr "10") = inr (KTuple "10" 10) /\
  dict_get (AStr "task_id") (Examples.id_mol [AStr "9"; AStr "10"])
    = Some (PAtom (AStr "10")).
Proof. repeat split; reflexivity. Qed.

(** ** Distinct elements *)

Section Distinct.
Variable A : Type.
Variable eqb : A -> A -> bool.

Lemma distinct_incl (l : list A) (x : A) : In x (distinct eqb l) -> In x l.
Proof.
  induction l as [| y l IH]; simpl; [auto |].
  intros [-> | H]; [auto |].
  apply filter_In in H. right. apply IH, H.
Qed.

Lemma existsb_filter (f g : A -> bool) (l : list A) :
  (forall y, f y = true -> g y = true) ->
  existsb f (filter g l) = existsb f l.
Proof.
  intros H. induction l as [| y l IH]; simpl; [reflexivity |].
  destruct (g y) eqn:Hg; simpl.
  - rewrite IH. reflexivity.
  - rewrite IH. destruct (f y) eqn:Hf; [| reflexivity].
    rewrite (H y Hf) in Hg. discriminate.
Qed.

Hypothesis eqb_sym : forall x y, eqb x y = eqb y x.
Hypothesis eqb_trans :
  forall x y z, eqb x y = true -> eqb y z = true -> eqb x z = true.

(** [distinct] keeps one element of each class of equal elements. *)
Lemma existsb_distinct (l : list A) (x : A) :
  existsb (eqb x) (distinct eqb l) = existsb (eqb x) l.
Proof.
  induction l as [| y l IH]; simpl; [reflexivity |].
  destruct (eqb x y) eqn:Hxy; simpl; [reflexivity |].
  rewrite existsb_filter; [exact IH |].
  intros z Hxz. destruct (eqb y z) eqn:Hyz; [| reflexivity].
  rewrite eqb_sym in Hyz.
  rewrite (eqb_trans _ _ _ Hxz Hyz) in Hxy. discriminate.
Qed.

Hypothesis eqb_eq : forall x y, eqb x y = true <-> x = y.

Lemma distinct_In (l : list A) (x : A) : In x (distinct eqb l) <-> In x l.
Proof.
  split; [apply distinct_incl |].
  induction l as [| y l IH]; simpl; [auto |].
  intros [-> | H]; [auto |].
  destruct (eqb y x) eqn:E.
  - apply eqb_eq in E. auto.
  - right. apply filter_In. rewrite E. auto.
Qed.

Lemma distinct_NoDup (l : list A) : NoDup (distinct eqb l).
Proof.
  induction l as [| y l IH]; simpl; constructor.
  - intros H. apply filter_In in H. destruct H as [_ H].
    rewrite (proj2 (eqb_eq y y) eq_refl) in H. discriminate.
  - apply NoDup_filter, IH.
Qed.
End Distinct.

(** ** Claims on the change set *)

Lemma existsb_atom (i : atom) (l : list atom) :
  existsb (atom_eqb i) l = true <-> exists j, In j l /\ atom_eqb i j = true.
Proof. apply existsb_exists. Qed.

(** *** Criteria dicts *)

Lemma crit_get_set (k k' : string) (test : Task.t -> bool) (c : criteria) :
  crit_get k' (crit_set k test c)
  = if String.eqb k' k then Some test else crit_get k' c.
Proof.
  induction c as [| [k0 test0] c IH]; simpl; [reflexivity |].
  destruct (String.eqb_spec k k0) as [-> | Hk]; simpl.
  - destruct (String.eqb_spec k' k0); reflexivity.
  - rewrite IH. destruct (String.eqb_spec k' k0) as [-> | Hk'];
      [| reflexivity].
    destruct (String.eqb_spec k0 k); [congruence | reflexivity].
Qed.

Lemma crit_get_In (k : string) (c : criteria) (test : Task.t -> bool) :
  crit_get k c = Some test -> In (k, test) c.
Proof.
  induction c as [| [k0 test0] c IH]; simpl; [discriminate |].
  destruct (String.eqb_spec k k0) as [-> | Hk].
  - intros H. injection H as <-. left. reflexivity.
  - intros H. right. apply IH, H.
Qed.

Lemma crit_get_key (e : string * (Task.t -> bool)) (c : criteria) :
  In e c -> exists test, crit_get (fst e) c = Some test.
Proof.
  induction c as [| [k0 test0] c IH]; simpl; [contradiction |].
  intros H. destruct (String.eqb_spec (fst e) k0) as [E | Hk].
  - eexists. reflexivity.
  - destruct H as [<- | H]; [simpl in Hk; congruence | apply IH, H].
Qed.

(** A task matches a criteria dict when it passes the criterion found
    under each key. *)
Lemma matches_spec (c : criteria) (t : Task.t) :
  matches c t = true <->
  forall k test, crit_get k c = Some test -> test t = true.
Proof.
  unfold matches. rewrite forallb_forall. split.
  - intros H k test Hg. specialize (H (k, test) (crit_get_In _ _ _ Hg)).
    cbn [fst] in H. rewrite Hg in H. exact H.
  - intros H e He. destruct (crit_get_key e c He) as (test & Hg).
    rewrite Hg. apply (H _ _ Hg).
Qed.

(** After an assignment, the new criterion holds together with the old
    ones under the other keys. *)
Lemma matches_set (k : string) (test : Task.t -> bool) (c : criteria)
    (t : Task.t) :
  matches (crit_set k test c) t = true <->
  test t = true /\
  forall k' test', crit_get k' c = Some test' -> k' <> k -> test' t = true.
Proof.
  rewrite matches_spec. split.
  - intros H. split.
    + apply (H k). rewrite crit_get_set, String.eqb_refl. reflexivity.
    + intros k' test' Hg Hne. apply (H k'). rewrite crit_get_set.
      destruct (String.eqb_spec k' k); [contradiction | exact Hg].
  - intros [Ht Ho] k' test' Hg. rewrite crit_get_set in Hg.
    destruct (String.eqb_spec k' k) as [-> | Hne].
    + injection Hg as <-. exact Ht.
    + apply (Ho k' test' Hg Hne).
Qed.

Lemma meets_except_weaken (ex ex' : list string) (c : criteria)
    (t : Task.t) :
  (forall k, In k ex -> In k ex') ->
  meets_except ex c t -> meets_except ex' c t.
Proof.
  intros Hsub H k test Hg Hn. apply (H k test Hg). intros Hk.
  apply Hn, Hsub, Hk.
Qed.

(** The criteria [q] select the successful tasks that pass the caller's
    criteria on the other fields. *)
Lemma q_matches (self : Builder.t) (t : Task.t) :
  matches (q self) t = true <->
  Task.state t = "successful" /\
  meets_except ["state"] (Builder.query self) t.
Proof.
  unfold q. rewrite matches_set, String.eqb_eq. unfold meets_except.
  split; intros [Hs H]; (split; [exact Hs |]).
  - intros k test Hg Hn. apply (H k test Hg). intros ->. apply Hn.
    left. reflexivity.
  - intros k test Hg Hne. apply (H k test Hg). intros [E | []].
    congruence.
Qed.

Lemma q_get (self : Builder.t) (k : string) :
  crit_get k (q self)
  = if String.eqb k "state"
    then Some (fun t => String.eqb (Task.state t) "successful")
    else crit_get k (Builder.query self).
Proof. unfold q. apply crit_get_set. Qed.

(** The test of [lu_filter] holds of the tasks updated after every
    document of the molecule store. *)
Lemma checkpoint_newer (molecules : list Mol.t) (t : Task.t) :
  match checkpoint molecules with
  | Some c => c <? Task.last_updated t
  | None => true
  end = true <->
  newer_than_store molecules t.
Proof.
  unfold checkpoint, newer_than_store.
  destruct molecules as [| m ms]; cbn [map].
  - split; [intros _ m [] | reflexivity].
  - rewrite Z.ltb_lt.
    destruct (fold_max_spec (map Mol.last_updated ms) (Mol.last_updated m))
      as [Hin Hle].
    split.
    + intros H m' Hm'.
      assert (Mol.last_updated m'
              <= fold_left Z.max (map Mol.last_updated ms)
                           (Mol.last_updated m)).
      { apply Hle.
        change (In (Mol.last_updated m') (map Mol.last_updated (m :: ms))).
        apply in_map. exact Hm'. }
      lia.
    + intros H.
      change (In (fold_left Z.max (map Mol.last_updated ms)
                            (Mol.last_updated m))
                 (map Mol.last_updated (m :: ms))) in Hin.
      apply in_map_iff in Hin. destruct Hin as (m' & E & Hm').
      rewrite <- E. apply H, Hm'.
Qed.

(** The criteria [update_q] select the successful tasks updated after the
    molecule store that pass the caller's criteria on the fields other
    than [state] and the [lu_field]: the caller's criterion on the
    [lu_field] is replaced. *)
Lemma update_q_matches (self : Builder.t) (molecules : list Mol.t)
    (t : Task.t) :
  Builder.tasks_lu_field self <> "state" ->
  (matches (update_q self molecules) t = true <->
   Task.state t = "successful" /\
   newer_than_store molecules t /\
   meets_except ["state"; Builder.tasks_lu_field self]
                (Builder.query self) t).
Proof.
  intros Hlu. unfold update_q, lu_filter, crit_update.
  cbn [fold_left fst snd]. rewrite matches_set, checkpoint_newer.
  split.
  - intros [Hn H]. split; [| split; [exact Hn |]].
    + apply String.eqb_eq.
      apply (H "state" (fun t => String.eqb (Task.state t) "successful")).
      * rewrite q_get. reflexivity.
      * congruence.
    + intros k test Hg Hk. apply (H k test).
      * rewrite q_get. destruct (String.eqb_spec k "state") as [-> | Hne];
          [| exact Hg].
        exfalso. apply Hk. left. reflexivity.
      * intros ->. apply Hk. right. left. reflexivity.
  - intros (Hs & Hn & Hm). split; [exact Hn |].
    intros k test Hg Hne. rewrite q_get in Hg.
    destruct (String.eqb_spec k "state") as [-> | Hk].
    + injection Hg as <-. apply String.eqb_eq, Hs.
    + apply (Hm k test Hg). intros [E | [E | []]]; congruence.
Qed.

(** The criteria [tasks_q] select the successful tasks of the formula that
    pass the caller's criteria on the fields other than [state] and
    [formula_pretty]. *)
Lemma tasks_q_matches (self : Builder.t) (formula : string) (t : Task.t) :
  matches (tasks_q self formula) t = true <->
  Task.formula_pretty t = formula /\
  Task.state t = "successful" /\
  meets_except ["state"; "formula_pretty"] (Builder.query self) t.
Proof.
  unfold tasks_q. rewrite matches_set, String.eqb_eq.
  split.
  - intros [Hf H]. split; [exact Hf | split].
    + apply String.eqb_eq.
      apply (H "state" (fun t => String.eqb (Task.state t) "successful")).
      * rewrite q_get. reflexivity.
      * discriminate.
    + intros k test Hg Hk. apply (H k test).
      * rewrite q_get. destruct (String.eqb_spec k "state") as [-> | Hne];
          [| exact Hg].
        exfalso. apply Hk. left. reflexivity.
      * intros ->. apply Hk. right. left. reflexivity.
  - intros (Hf & Hs & Hm). split; [exact Hf |].
    intros k test Hg Hne. rewrite q_get in Hg.
    destruct (String.eqb_spec k "state") as [-> | Hk].
    + injection Hg as <-. apply String.eqb_eq, Hs.
    + apply (Hm k test Hg). intros [E | [E | []]]; congruence.
Qed.

Section ChangeSet.
Variable self : Builder.t.
Variable tasks : list Task.t.
Variable molecules : list Mol.t.
Hypothesis ids_unique : unique_ids tasks.

(** The tasks whose id is among the ids to process are the tasks that
    match [q] and are not represented. *)
Lemma to_process_tasks_spec (t : Task.t) :
  In t tasks ->
  (existsb (atom_eqb (Task.task_id t)) (to_process_tasks self tasks molecules)
     = true <->
   matches (q self) t = true /\
   represented molecules (Task.task_id t) = false).
Proof.
  intros Ht. unfold to_process_tasks, represented.
  rewrite existsb_atom. split.
  - intros (j & Hj & Htj). apply filter_In in Hj. destruct Hj as [Hj Hnp].
    apply distinct_incl, in_map_iff in Hj. destruct Hj as (t' & <- & Ht').
    apply filter_In in Ht'. destruct Ht' as [Ht' Hq].
    rewrite (ids_unique t t' Ht Ht' Htj). split; [exact Hq |].
    rewrite (existsb_distinct _ atom_eqb atom_eqb_sym atom_eqb_trans) in Hnp.
    apply negb_true_iff in Hnp. exact Hnp.
  - intros [Hq Hr].
    assert (Hin : existsb (atom_eqb (Task.task_id t))
                    (distinct atom_eqb
                       (map Task.task_id (filter (matches (q self)) tasks)))
                  = true).
    { rewrite (existsb_distinct _ atom_eqb atom_eqb_sym atom_eqb_trans).
      apply existsb_atom. exists (Task.task_id t). split.
      - apply in_map, filter_In. auto.
      - apply atom_eqb_refl. }
    apply existsb_atom in Hin. destruct Hin as (j & Hj & Htj).
    exists j. split; [| exact Htj].
    apply filter_In. split; [exact Hj |].
    apply negb_true_iff.
    rewrite (existsb_distinct _ atom_eqb atom_eqb_sym atom_eqb_trans).
    destruct (existsb (atom_eqb j) (flat_map Mol.task_ids molecules))
      eqn:E; [| reflexivity].
    apply existsb_atom in E. destruct E as (i & Hi & Hji).
    assert (Hti : existsb (atom_eqb (Task.task_id t))
                    (flat_map Mol.task_ids molecules) = true).
    { apply existsb_atom. exists i. split; [exact Hi |].
      apply atom_eqb_trans with j; assumption. }
    congruence.
Qed.

(** The formulas of the new work. *)
Lemma to_process_forms_spec (f : string) :
  In f (to_process_forms self tasks molecules) <->
  exists t, In t tasks /\ Task.state t = "successful" /\
            meets_except ["state"] (Builder.query self) t /\
            represented molecules (Task.task_id t) = false /\
            Task.formula_pretty t = f.
Proof.
  unfold to_process_forms.
  rewrite (distinct_In _ String.eqb String.eqb_eq), in_map_iff.
  split.
  - intros (t & Hf & Ht). apply filter_In in Ht. destruct Ht as [Ht Hid].
    apply (to_process_tasks_spec t Ht) in Hid. destruct Hid as [Hq Hr].
    apply q_matches in Hq. exists t. tauto.
  - intros (t & Ht & Hs & Hm & Hr & Hf). exists t. split; [exact Hf |].
    apply filter_In. split; [exact Ht |].
    apply (to_process_tasks_spec t Ht). split; [| exact Hr].
    apply q_matches. auto.
Qed.

(** The formulas of the updated work. *)
Lemma updated_forms_spec (f : string) :
  Builder.tasks_lu_field self <> "state" ->
  (In f (updated_forms self tasks molecules) <->
   exists t, In t tasks /\ Task.state t = "successful" /\
             meets_except ["state"; Builder.tasks_lu_field self]
                          (Builder.query self) t /\
             newer_than_store molecules t /\
             Task.formula_pretty t = f).
Proof.
  intros Hlu. unfold updated_forms.
  rewrite (distinct_In _ String.eqb String.eqb_eq), in_map_iff.
  split.
  - intros (t & Hf & Ht). apply filter_In in Ht. destruct Ht as [Ht Hq].
    apply (update_q_matches _ _ _ Hlu) in Hq. exists t. tauto.
  - intros (t & Ht & Hs & Hm & Hn & Hf). exists t. split; [exact Hf |].
    apply filter_In. split; [exact Ht |].
    apply (update_q_matches _ _ _ Hlu). auto.
Qed.
End ChangeSet.




(** ** Claims on processing a batch *)

(** A candidate whose task id has no key makes [make_mol] raise. *)
Lemma make_mol_malformed (task_type : pyval -> string) (self : Builder.t)
    (task_group : list Task.t) (p : Cand.t) (e : exn) :
  In p (all_props_of task_type self task_group) ->
  ID_to_int (Cand.task_id p) = inl e ->
  exists e', make_mol task_type self task_group = inl e'.
Proof.
  intros Hp He.
  destruct (mapM_fails (fun p => ID_to_int (Cand.task_id p)) _ p e Hp He)
    as (e' & Hm).
  exists e'. unfold make_mol, merged_mol, merged_mol_of, mol_id_of, sorted_by_ID.
  rewrite Hm. reflexivity.
Qed.

(** C9, as the code has it. When the candidates of one group of a batch
    include a task id that [ID_to_int] cannot key, [make_mol] raises for
    that group, and [process_item], which catches nothing, raises for the
    batch: it returns no document, for that group or any other. *)
Theorem malformed_id_fails_the_batch
    (task_type : pyval -> string) (self : Builder.t)
    (grouper : list (nat * pyval) -> result (list (list (nat * pyval))))
    (tasks filtered_tasks task_group : list Task.t)
    (groups : list (list (nat * pyval))) (group : list (nat * pyval))
    (p : Cand.t) (e : exn) :
  filter_and_group_tasks task_type self grouper tasks
    = inr (filtered_tasks, groups) ->
  In group groups ->
  group_tasks filtered_tasks group = inr task_group ->
  In p (all_props_of task_type self task_group) ->
  ID_to_int (Cand.task_id p) = inl e ->
  (exists e', make_mol task_type self task_group = inl e') /\
  (exists e', process_item task_type self grouper tasks = inl e').
Proof.
  intros Hfg Hg Htg Hp He.
  destruct (make_mol_malformed _ _ _ _ _ Hp He) as (e1 & Hmol).
  split; [eauto |].
  unfold process_item.
  destruct (first tasks) as [e0 | t0]; [eexists; reflexivity |].
  cbn [bind]. rewrite Hfg. cbn [bind fst snd].
  apply (mapM_fails _ groups group e1 Hg).
  rewrite Htg. cbn [bind]. exact Hmol.
Qed.

(** C9 at a batch of two tasks, each in a group of its own, the second with
    the task id [bad]. *)
Lemma malformed_id_fails_the_batch_witness :
  (exists e', make_mol Examples.classify
                (Examples.builder [Examples.energy_rule])
                [Examples.with_id (AStr "bad")] = inl e') /\
  (exists e', process_item Examples.classify
                (Examples.builder [Examples.energy_rule]) Examples.each_alone
                [Examples.with_id (AStr "eg-1"); Examples.with_id (AStr "bad")]
              = inl e').
Proof.
  eapply (malformed_id_fails_the_batch Examples.classify
            (Examples.builder [Examples.energy_rule]) Examples.each_alone
            [Examples.with_id (AStr "eg-1"); Examples.with_id (AStr "bad")]
            _ [Examples.with_id (AStr "bad")]).
  - reflexivity.
  - right. left. reflexivity.
  - reflexivity.
  - left. reflexivity.
  - reflexivity.
Defined.

(** C9 fails as stated. In a batch of two groups, the first with the task id
    [eg-1] and the second with the malformed id [bad], the first group alone
    gives a document, yet [process_item] on the batch raises and returns no
    document at all. *)
Lemma malformed_id_loses_the_other_groups :
  (exists mol, make_mol Examples.classify
                 (Examples.builder [Examples.energy_rule])
                 [Examples.with_id (AStr "eg-1")] = inr mol) /\
  ID_to_int (AStr "bad") = inl ValueError /\
  filter_and_group_tasks Examples.classify
    (Examples.builder [Examples.energy_rule]) Examples.each_alone
    [Examples.with_id (AStr "eg-1"); Examples.with_id (AStr "bad")]
  = inr ([Examples.with_id (AStr "eg-1"); Examples.with_id (AStr "bad")],
         [[(0%nat, PAtom (AStr "H2O"))]; [(1%nat, PAtom (AStr "H2O"))]]) /\
  process_item Examples.classify
    (Examples.builder [Examples.energy_rule]) Examples.each_alone
    [Examples.with_id (AStr "eg-1"); Examples.with_id (AStr "bad")]
  = inl ValueError.
Proof.
  split; [eexists; reflexivity |]. repeat split; reflexivity.
Qed.

(** With the grouper of the source, which always raises, [process_item]
    returns no document for any batch. *)
Lemma process_item_with_stub
    (task_type : pyval -> string) (self : Builder.t) (tasks : list Task.t) :
  exists e, process_item task_type self group_structures tasks = inl e.
Proof.
  unfold process_item.
  destruct (first tasks) as [e0 | t0]; [eexists; reflexivity |].
  cbn [bind]. unfold filter_and_group_tasks.
  destruct (mapM _ (filter _ tasks)) as [e1 | mols]; cbn [bind];
    eexists; reflexivity.
Qed.

(** ** When [make_mol] returns *)

Lemma mol_display_origins (self : Builder.t) (updated created : Z)
    (task_ids : list atom) (mol_id : pyval) (os : list pyval) (tt : dict) :
  dict_get (AStr "origins")
           (mol_display self updated created task_ids mol_id os tt)
    = Some (PList os).
Proof.
  cbv beta iota delta [mol_display dict_display fold_left fst snd].
  rewrite dict_get_set_other by reflexivity.
  apply dict_get_set_same.
Qed.

(** The provenance entries of the resolver are those of the document, when
    no rule writes the key [origins]. *)
Lemma make_mol_origins (task_type : pyval -> string) (self : Builder.t)
    (task_group : list Task.t) (mol : dict) :
  make_mol task_type self task_group = inr mol ->
  untouched self "origins" ->
  exists best,
    best_props (all_props_of task_type self task_group) = inr best /\
    dict_get (AStr "origins") mol = Some (PList (origins best)).
Proof.
  intros Hmol Hu.
  apply make_mol_inr in Hmol. destruct Hmol as [Hmol _].
  apply merged_mol_of_inr in Hmol.
  destruct Hmol as (mol_id & best & updated & created &
                    _ & Hbest & _ & _ & Hfold).
  exists best. split; [exact Hbest |].
  rewrite (merge_other _ _ _ _ _ _ _ Hfold).
  - apply mol_display_origins.
  - apply (untouched_best _ _ _ _ _ Hu Hbest).
Qed.

(** [make_mol] returns a document for a group that has candidates, whose
    task ids all have keys of one kind, whose target fields are single
    names, and none of whose candidates writes [structure]. *)
Lemma make_mol_returns (task_type : pyval -> string) (self : Builder.t)
    (task_group : list Task.t) :
  Builder.tasks_key self = "task_id" ->
  Builder.molecules_lu_field self <> "structure" ->
  Builder.molecules_key self <> "structure" ->
  all_props_of task_type self task_group <> [] ->
  (forall p, In p (all_props_of task_type self task_group) ->
     ID_to_int (Cand.task_id p) = inr (key_of p) /\
     contains "." (Cand.molecules_key p) = false /\
     writes (Cand.molecules_key p) "structure" = false) ->
  comparable (map key_of (all_props_of task_type self task_group)) = true ->
  exists mol, make_mol task_type self task_group = inr mol.
Proof.
  intros Hkey Hlu Hmk Hne Hall Hcmp.
  set (all_props := all_props_of task_type self task_group) in *.
  assert (Hs : sorted_by_ID all_props = inr (sorted id_ltb all_props)).
  { apply sorted_by_ID_inr. split; [| auto]. intros p Hp. apply (Hall p Hp). }
  destruct (first_min_some id_ltb all_props Hne) as (w & Hw).
  pose proof (mol_id_of_sorted _ _ _ _ Hkey Hs Hw) as Hid.
  destruct (best_props_spec all_props) as (best & Hbest & _ & _ & _).
  destruct (merge_flat _ Cand.molecules_key Cand.value best
              (mol_display self
                 (fold_left Z.max (tl (map Cand.last_updated all_props))
                            (hd 0 (map Cand.last_updated all_props)))
                 (fold_left Z.min (tl (map Cand.last_updated all_props))
                            (hd 0 (map Cand.last_updated all_props)))
                 (distinct atom_eqb (map Task.task_id task_group))
                 (PAtom (Cand.task_id w)) (origins best)
                 (dict_display
                    (map (fun t => (Cand.task_id t,
                                    PAtom (AStr (Cand.task_type t))))
                         all_props))))
    as (mol & Hmol).
  { intros b Hb. destruct (best_props_keys _ _ _ Hbest Hb) as (p & Hp & <-).
    apply (Hall p Hp). }
  assert (Hm : merged_mol task_type self task_group = inr mol).
  { unfold merged_mol, merged_mol_of. fold all_props.
    rewrite Hid, Hbest. cbn [bind].
    destruct all_props as [| p0 l0]; [congruence |]. exact Hmol. }
  exists mol. unfold make_mol. rewrite Hm. cbn [bind].
  rewrite (merged_mol_without_structure _ _ _ _ Hm); auto.
  intros p Hp. apply (Hall p Hp).
Qed.

(** C7. A document is valid exactly when it contains the key [structure].
    Every document of the batch that [update_targets] hands to the store is
    valid, and a document that fails validation is not in the batch. For a
    group none of whose candidates writes [structure] (the store's field
    names being different from it), the document that [make_mol] assembles
    is returned, is rejected by [valid], and [update_targets] on it calls
    the store with nothing. Such a document is assembled and returned as
    soon as the group has candidates, their task ids have keys of one kind
    and their target fields are single names. *)
Theorem invalid_documents_never_reach_the_store :
  (forall doc, valid doc = true <-> dict_has (AStr "structure") doc = true) /\
  (forall timestamp items batch,
     update_targets timestamp items = Some batch ->
     (forall d, In d batch -> valid d = true) /\
     (forall d0, In d0 (List.concat items) -> valid d0 = false ->
        ~ In (dict_set (AStr "_bt") (PAtom (AInt timestamp)) d0) batch)) /\
  (forall task_type self task_group mol,
     merged_mol task_type self task_group = inr mol ->
     (forall p, In p (all_props_of task_type self task_group) ->
                writes (Cand.molecules_key p) "structure" = false) ->
     Builder.molecules_lu_field self <> "structure" ->
     Builder.molecules_key self <> "structure" ->
     make_mol task_type self task_group = inr mol /\
     valid mol = false /\
     forall timestamp, update_targets timestamp [[mol]] = None) /\
  (forall task_type self task_group,
     Builder.tasks_key self = "task_id" ->
     Builder.molecules_lu_field self <> "structure" ->
     Builder.molecules_key self <> "structure" ->
     all_props_of task_type self task_group <> [] ->
     (forall p, In p (all_props_of task_type self task_group) ->
        ID_to_int (Cand.task_id p) = inr (key_of p) /\
        contains "." (Cand.molecules_key p) = false /\
        writes (Cand.molecules_key p) "structure" = false) ->
     comparable (map key_of (all_props_of task_type self task_group)) = true ->
     exists mol, make_mol task_type self task_group = inr mol /\
                 valid mol = false /\
                 forall timestamp, update_targets timestamp [[mol]] = None).
Proof.
  split; [| split; [| split]].
  - intros doc. reflexivity.
  - intros timestamp items batch H. split.
    + intros d Hd. apply (update_targets_batch _ _ _ _ H Hd).
    + intros d0 _ Hv Hin.
      destruct (update_targets_batch _ _ _ _ H Hin) as [Hv' _].
      rewrite valid_stamped in Hv'. congruence.
  - intros task_type self task_group mol Hm Hnone Hlu Hkey.
    pose proof (merged_mol_without_structure _ _ _ _ Hm Hnone Hlu Hkey)
      as Hs.
    split; [| split].
    + unfold make_mol. rewrite Hm. simpl. rewrite Hs. reflexivity.
    + exact Hs.
    + intros timestamp. unfold update_targets. simpl.
      unfold valid. rewrite Hs, andb_false_r. reflexivity.
  - intros task_type self task_group Hkey Hlu Hmk Hne Hall Hcmp.
    destruct (make_mol_returns _ _ _ Hkey Hlu Hmk Hne Hall Hcmp)
      as (mol & Hmol).
    exists mol. split; [exact Hmol |].
    pose proof (make_mol_has_no_structure _ _ _ _ Hmol) as Hv.
    split; [exact Hv |].
    intros timestamp. unfold update_targets. simpl.
    rewrite Hv, andb_false_r. reflexivity.
Qed.

(** C7 at the scenario of the three tasks, whose only rule fills
    [energy_result]. *)
Lemma invalid_documents_never_reach_the_store_witness :
  make_mol Examples.classify (Examples.builder [Examples.energy_rule])
           [Examples.t1; Examples.t2; Examples.t3]
    = inr Examples.scenario_mol /\
  valid Examples.scenario_mol = false /\
  forall timestamp,
    update_targets timestamp [[Examples.scenario_mol]] = None.
Proof.
  apply (proj1 (proj2 (proj2 invalid_documents_never_reach_the_store))
           Examples.classify (Examples.builder [Examples.energy_rule])
           [Examples.t1; Examples.t2; Examples.t3] Examples.scenario_mol).
  - vm_compute. reflexivity.
  - intros p Hp. vm_compute in Hp.
    destruct Hp as [<- | [<- | [<- | []]]]; reflexivity.
  - discriminate.
  - discriminate.
Defined.

(** * Further properties of the builder *)

(** ** Extraction *)

Lemma assoc_In (k : string) (l : list (string * Z)) (v : Z) :
  assoc k l = Some v -> In k (map fst l).
Proof.
  induction l as [| [k' v'] l IH]; simpl; [discriminate |].
  destruct (String.eqb_spec k k') as [-> | _]; auto.
Qed.

Lemma rule_to_prop_length (task_type : pyval -> string) (task : Task.t)
    (r : Rule.t) :
  (List.length (rule_to_prop task_type task r) <= 1)%nat.
Proof.
  unfold rule_to_prop. destruct (assoc _ _); [destruct (has _ _) |]; simpl; lia.
Qed.

Lemma flat_map_length_le {A B} (f : A -> list B) (l : list A) (n : nat) :
  (forall x, In x l -> (List.length (f x) <= n)%nat) ->
  (List.length (flat_map f l) <= List.length l * n)%nat.
Proof.
  induction l as [| x l IH]; simpl; intros H; [lia |].
  rewrite length_app. specialize (H x (or_introl eq_refl)) as Hx.
  assert (List.length (flat_map f l) <= List.length l * n)%nat by auto.
  lia.
Qed.

(** X1. The candidates of a group are exactly the pairs of a task of the
    group and a rule of the settings table such that the rule rates the
    type of the task and the task has the source path of the rule. Such a
    candidate has the value at that path, the id, type and timestamp of the
    task, its energy (0 when the task has none), and the score, flags and
    target field of the rule. There are at most as many candidates as
    pairs. *)
Theorem candidates_are_rated_rules_of_tasks
    (task_type : pyval -> string) (self : Builder.t)
    (task_group : list Task.t) :
  (forall p,
     In p (all_props_of task_type self task_group) <->
     exists task r score,
       In task task_group /\ In r (Builder.settings self) /\
       assoc (task_type (Task.orig task)) (Rule.quality_score r) = Some score /\
       has (Task.doc task) (Rule.tasks_key r) = true /\
       p = {| Cand.value := get (Task.doc task) (Rule.tasks_key r);
              Cand.task_type := task_type (Task.orig task);
              Cand.task_id := Task.task_id task;
              Cand.quality_score := score;
              Cand.track := Rule.track r;
              Cand.aggregate := Rule.aggregate r;
              Cand.last_updated := Task.last_updated task;
              Cand.energy := match Task.energy task with
                             | Some e => e
                             | None => 0
                             end;
              Cand.molecules_key := Rule.molecules_key r |}) /\
  (List.length (all_props_of task_type self task_group)
   <= List.length task_group * List.length (Builder.settings self))%nat.
Proof.
  split.
  - intros p. unfold all_props_of, task_to_prop_list.
    rewrite in_flat_map. split.
    + intros (task & Ht & Hp). rewrite in_flat_map in Hp.
      destruct Hp as (r & Hr & Hp). unfold rule_to_prop in Hp.
      destruct (assoc _ _) as [score |] eqn:Ha; [| contradiction].
      destruct (has _ _) eqn:Hh; [| contradiction].
      destruct Hp as [<- | []]. exists task, r, score. auto 10.
    + intros (task & r & score & Ht & Hr & Ha & Hh & ->).
      exists task. split; [exact Ht |]. rewrite in_flat_map.
      exists r. split; [exact Hr |]. unfold rule_to_prop.
      rewrite Ha, Hh. left. reflexivity.
  - unfold all_props_of. apply flat_map_length_le. intros t _.
    unfold task_to_prop_list.
    rewrite <- (Nat.mul_1_r (List.length (Builder.settings self))).
    apply flat_map_length_le. intros r _. apply rule_to_prop_length.
Qed.

(** A task whose type no rule rates yields no candidate. *)
Lemma not_allowed_no_props (task_type : pyval -> string) (self : Builder.t)
    (task : Task.t) :
  in_allowed task_type self task = false ->
  task_to_prop_list task_type self task = [].
Proof.
  intros H. unfold task_to_prop_list.
  assert (G : forall rs,
             (forall r, In r rs -> In r (Builder.settings self)) ->
             flat_map (rule_to_prop task_type task) rs = []).
  { induction rs as [| r rs IH]; simpl; intros Hsub; [reflexivity |].
    rewrite IH by auto. unfold rule_to_prop.
    destruct (assoc _ _) as [score |] eqn:Ha; [| reflexivity].
    exfalso. apply assoc_In in Ha.
    unfold in_allowed in H.
    assert (Hex : existsb (String.eqb (task_type (Task.orig task)))
                    (allowed_tasks self) = true).
    { apply existsb_exists. exists (task_type (Task.orig task)).
      split; [| apply String.eqb_refl].
      unfold allowed_tasks. apply in_flat_map. exists r.
      split; [apply Hsub; left; reflexivity | exact Ha]. }
    congruence. }
  apply G. auto.
Qed.

(** X2. The filter of [filter_and_group_tasks] on the allowed task types
    drops no candidate: the tasks it removes are tasks that
    [task_to_prop_list] turns into nothing, so a batch and its filtered
    batch have the same candidates, in the same order. *)
Theorem allowed_filter_keeps_all_candidates
    (task_type : pyval -> string) (self : Builder.t) (tasks : list Task.t) :
  all_props_of task_type self (filter (in_allowed task_type self) tasks)
  = all_props_of task_type self tasks.
Proof.
  unfold all_props_of. induction tasks as [| t tasks IH]; simpl.
  - reflexivity.
  - destruct (in_allowed task_type self t) eqn:E; simpl.
    + rewrite IH. reflexivity.
    + rewrite (not_allowed_no_props _ _ _ E), IH. reflexivity.
Qed.

(** ** Task ids *)

Lemma split_nonempty (sep : ascii) (s : string) : split sep s <> [].
Proof.
  destruct s as [| c s]; [discriminate |]. rewrite split_cons.
  destruct (Ascii.eqb c sep); [discriminate |].
  destruct (split sep s); discriminate.
Qed.

(** Splitting around a separator splits both sides. *)
Lemma split_app (sep : ascii) (a b : string) :
  split sep (a ++ String sep b)%string = split sep a ++ split sep b.
Proof.
  induction a as [| c a IH].
  - change (EmptyString ++ String sep b)%string with (String sep b).
    rewrite split_cons, Ascii.eqb_refl. reflexivity.
  - change (String c a ++ String sep b)%string
      with (String c (a ++ String sep b)%string).
    rewrite !split_cons, IH.
    destruct (Ascii.eqb c sep); [reflexivity |].
    destruct (split sep a) as [| w ws] eqn:E.
    + exfalso. apply (split_nonempty _ _ E).
    + reflexivity.
Qed.

Lemma hd_app_nonempty {A} (d : A) (l l' : list A) :
  l <> [] -> hd d (l ++ l') = hd d l.
Proof. destruct l; [congruence | reflexivity]. Qed.

Lemma last_app_nonempty {A} (d : A) (l l' : list A) :
  l' <> [] -> last (l ++ l') d = last l' d.
Proof.
  intros H. induction l as [| x l IH]; [reflexivity |].
  simpl. destruct (l ++ l') eqn:E; [| exact IH].
  apply app_eq_nil in E. destruct E. contradiction.
Qed.

(** X3. [ID_to_int] reads only the text before the first dash and the text
    after the last dash of a string id: whatever stands between two dashes
    is ignored, so ids that differ only there have the same key. An id that
    ends with a dash has no number and raises [ValueError]; the only
    exceptions are [ValueError], for a string, and [Exception], for an id
    that is neither a string nor a number. *)
Theorem ID_to_int_reads_first_and_last_part :
  (forall a m n,
     ID_to_int (AStr (a ++ String "-" (m ++ String "-" n))%string)
     = ID_to_int (AStr (a ++ String "-" n)%string)) /\
  (forall a, ID_to_int (AStr (a ++ String "-" EmptyString)%string)
             = inl ValueError) /\
  (forall i e,
     ID_to_int i = inl e ->
     (i = ANone /\ e = Exception_) \/
     (exists s, i = AStr s /\ e = ValueError)).
Proof.
  split; [| split].
  - intros a m n. unfold ID_to_int.
    rewrite !split_app.
    rewrite !hd_app_nonempty by apply split_nonempty.
    rewrite !last_app_nonempty;
      try apply split_nonempty;
      try (intros E; apply app_eq_nil in E; destruct E as [_ E];
           apply (split_nonempty _ _ E)).
    reflexivity.
  - intros a. unfold ID_to_int. rewrite split_app.
    rewrite last_app_nonempty by discriminate. reflexivity.
  - intros [| b | z | s] e H; simpl in H; try discriminate.
    + left. injection H as <-. auto.
    + right. exists s. split; [reflexivity |].
      unfold ID_to_int in H.
      destruct (py_int (last (split "-" s) "")) as [e' | z] eqn:E;
        [| discriminate].
      simpl in H. injection H as <-.
      unfold py_int in E. destruct (_ : option Z); [discriminate |].
      injection E as <-. reflexivity.
Qed.

(** X3 at an id whose last part is not a number. *)
Lemma ID_to_int_reads_first_and_last_part_witness :
  ID_to_int (AStr "eg-x1") = inl ValueError /\
  ((AStr "eg-x1" = ANone /\ ValueError = Exception_) \/
   (exists s, AStr "eg-x1" = AStr s /\ ValueError = ValueError)).
Proof.
  split; [reflexivity |].
  apply (proj2 (proj2 ID_to_int_reads_first_and_last_part)).
  reflexivity.
Defined.

Lemma key_of_inr (p : Cand.t) :
  (exists k, ID_to_int (Cand.task_id p) = inr k) ->
  ID_to_int (Cand.task_id p) = inr (key_of p).
Proof. intros (k & H). unfold key_of. rewrite H. reflexivity. Qed.

(** X4. A group whose task ids all have keys, some of them strings and some
    of them numbers, has no molecule id: sorting tuples against numbers
    raises, and [make_mol] fails with a [TypeError]. *)
Theorem mixed_id_kinds_raise_TypeError
    (task_type : pyval -> string) (self : Builder.t)
    (task_group : list Task.t) (p q : Cand.t) :
  In p (all_props_of task_type self task_group) ->
  In q (all_props_of task_type self task_group) ->
  (forall c, In c (all_props_of task_type self task_group) ->
             exists k, ID_to_int (Cand.task_id c) = inr k) ->
  same_kind (key_of p) (key_of q) = false ->
  make_mol task_type self task_group = inl TypeError.
Proof.
  intros Hp Hq Hall Hk.
  unfold make_mol, merged_mol, merged_mol_of, mol_id_of, sorted_by_ID.
  rewrite (mapM_total _ key_of) by (intros c Hc; apply key_of_inr, Hall, Hc).
  cbn [bind].
  destruct (comparable (map key_of (all_props_of task_type self task_group)))
    eqn:Hc; [| reflexivity].
  rewrite comparable_iff in Hc.
  rewrite (Hc (key_of p) (key_of q)) in Hk by (apply in_map; assumption).
  discriminate.
Qed.

(** X4 at a task with the id [eg-1] and a task with the id 5. *)
Lemma mixed_id_kinds_raise_TypeError_witness :
  make_mol Examples.classify (Examples.builder [Examples.energy_rule])
           MoreExamples.mixed_ids = inl TypeError.
Proof.
  eapply (mixed_id_kinds_raise_TypeError Examples.classify
            (Examples.builder [Examples.energy_rule]) MoreExamples.mixed_ids).
  - left. reflexivity.
  - right. left. reflexivity.
  - intros c Hc. vm_compute in Hc.
    destruct Hc as [<- | [<- | []]]; eexists; reflexivity.
  - reflexivity.
Defined.

Lemma id_key_eqb_eq (a b : id_key) : id_key_eqb a b = true <-> a = b.
Proof.
  destruct a as [p n | x], b as [p' n' | y]; simpl;
    try (split; [discriminate | congruence]).
  - rewrite andb_true_iff, String.eqb_eq, Z.eqb_eq. split.
    + intros [-> ->]. reflexivity.
    + intros H. injection H as -> ->. auto.
  - rewrite Z.eqb_eq. split; congruence.
Qed.

(** X5. When [sorted_by_ID] returns, it returns a reordering of the
    candidates in which no candidate comes before one of a smaller key, and
    in which the candidates of any one key stand in their input order. *)
Theorem sorted_by_ID_is_a_stable_sort (l s : list Cand.t) :
  sorted_by_ID l = inr s ->
  Permutation s l /\
  StronglySorted (fun a b => key_ltb (key_of b) (key_of a) = false) s /\
  forall k, filter (fun c => id_key_eqb (key_of c) k) s
            = filter (fun c => id_key_eqb (key_of c) k) l.
Proof.
  intros H. apply sorted_by_ID_inr in H. destruct H as (_ & _ & ->).
  split; [apply sorted_perm |]. split.
  - apply (sorted_sorted _ id_ltb id_ltb_trans id_ltb_negtrans id_ltb_irrefl).
  - intros k. apply filter_sorted. intros x y Hx Hy.
    apply id_key_eqb_eq in Hx, Hy. unfold id_ltb. rewrite Hx, Hy.
    apply key_ltb_irrefl.
Qed.

(** X5 at the candidates of the three-task scenario. *)
Lemma sorted_by_ID_is_a_stable_sort_witness :
  Permutation (sorted id_ltb Examples.scenario_props) Examples.scenario_props /\
  StronglySorted (fun a b => key_ltb (key_of b) (key_of a) = false)
                 (sorted id_ltb Examples.scenario_props) /\
  forall k, filter (fun c => id_key_eqb (key_of c) k)
                   (sorted id_ltb Examples.scenario_props)
            = filter (fun c => id_key_eqb (key_of c) k) Examples.scenario_props.
Proof.
  apply (sorted_by_ID_is_a_stable_sort Examples.scenario_props).
  vm_compute. reflexivity.
Defined.

(** ** The resolved properties *)

Lemma StronglySorted_map {A B} (R : B -> B -> Prop) (f : A -> B) (l : list A) :
  StronglySorted (fun a b => R (f a) (f b)) l -> StronglySorted R (map f l).
Proof.
  induction 1 as [| x l _ IH Hx]; simpl; constructor.
  - exact IH.
  - rewrite Forall_forall in *. intros y Hy.
    apply in_map_iff in Hy. destruct Hy as (z & <- & Hz). auto.
Qed.

(** The target fields of the resolved properties are the keys of the
    groups, in the order of the groups. *)
Lemma best_props_group_keys (all_props best : list Cand.t) :
  best_props all_props = inr best ->
  map Cand.molecules_key best
  = map fst (groupby String.eqb Cand.molecules_key
                     (sorted_by_molecules_key all_props)).
Proof.
  intros Hbest. destruct (grouped_props_spec all_props) as (_ & Hg & _).
  unfold best_props in Hbest. apply mapM_inr, Forall2_with_In in Hbest.
  symmetry. eapply Forall2_map_eq; [| exact Hbest].
  intros [k g] b [Hin Hb]. simpl in *.
  destruct (Hg k g Hin) as [-> _]. symmetry.
  eapply best_prop_key; [| exact Hb].
  intros c Hc. apply field_props_key in Hc. tauto.
Qed.

(** The target fields of the resolved properties: sorted, distinct, and
    those with a candidate. *)
Lemma best_props_fields (all_props : list Cand.t) :
  exists best,
    best_props all_props = inr best /\
    StronglySorted (fun a b => String.ltb a b = true)
                   (map Cand.molecules_key best) /\
    NoDup (map Cand.molecules_key best) /\
    (forall k, In k (map Cand.molecules_key best) <->
               field_props all_props k <> []).
Proof.
  destruct (best_props_spec all_props) as (best & Hbest & Hnd & HR & HL).
  exists best. split; [exact Hbest |].
  split; [| split; [exact Hnd |]].
  - rewrite (best_props_group_keys _ _ Hbest).
    apply StronglySorted_map.
    apply (groupby_sorted _ _ Cand.molecules_key String.eqb String.ltb
             String.eqb_eq string_ltb_trans string_ltb_irrefl
             string_ltb_total _ (sorted_by_molecules_key_sorted all_props)).
  - intros k. rewrite in_map_iff. split.
    + intros (b & <- & Hb) E. destruct (HR b Hb) as (w & Hw & _).
      rewrite E in Hw. discriminate.
    + intros Hne. destruct (field_props all_props k) as [| c l] eqn:E;
        [congruence |].
      assert (Hc : In c (field_props all_props k)) by (rewrite E; left; auto).
      apply field_props_key in Hc. destruct Hc as [Hc <-].
      destruct (HL c Hc) as (b & Hb & Hk). eauto.
Qed.

(** X6. [best_props] always returns, with exactly one resolved property per
    target field that has a candidate and none for any other field; the
    resolved properties come in strictly ascending order of their target
    fields, and there are no more of them than candidates. *)
Theorem best_props_one_per_field_in_order (all_props : list Cand.t) :
  exists best,
    best_props all_props = inr best /\
    StronglySorted (fun a b => String.ltb a b = true)
                   (map Cand.molecules_key best) /\
    NoDup (map Cand.molecules_key best) /\
    (forall k, In k (map Cand.molecules_key best) <->
               field_props all_props k <> []) /\
    (List.length best <= List.length all_props)%nat.
Proof.
  destruct (best_props_fields all_props) as (best & Hbest & Hs & Hnd & Hkeys).
  exists best. repeat (split; [assumption |]).
  rewrite <- (length_map Cand.molecules_key best),
          <- (length_map Cand.molecules_key all_props).
  apply NoDup_incl_length; [exact Hnd |].
  intros k Hk. apply Hkeys in Hk.
  destruct (field_props all_props k) as [| c l] eqn:E; [congruence |].
  assert (Hc : In c (field_props all_props k)) by (rewrite E; left; auto).
  apply field_props_key in Hc. destruct Hc as [Hc <-].
  apply in_map. exact Hc.
Qed.

(** ** The fields of the document *)





Lemma dict_get_set_eq (j k : atom) (v : pyval) (d : dict) :
  atom_eqb j k = true -> dict_get j (dict_set k v d) = Some v.
Proof.
  intros E. induction d as [| [k' v'] d IH]; simpl.
  - rewrite E. reflexivity.
  - destruct (atom_eqb k k') eqn:E'; simpl.
    + rewrite (atom_eqb_trans _ _ _ E E'). reflexivity.
    + destruct (atom_eqb j k') eqn:E''; [| exact IH].
      rewrite atom_eqb_sym in E.
      rewrite (atom_eqb_trans _ _ _ E E'') in E'. discriminate.
Qed.

(** The keys of a display are those of its entries; the value under a key
    is that of one of its entries with this key. *)
Lemma fold_set_has (k : atom) (kvs : list (atom * pyval)) (d : dict) :
  dict_has k (fold_left (fun d kv => dict_set (fst kv) (snd kv) d) kvs d)
  = dict_has k d || existsb (fun kv => atom_eqb k (fst kv)) kvs.
Proof.
  revert d. induction kvs as [| [k' v'] kvs IH]; intros d; simpl.
  - rewrite orb_false_r. reflexivity.
  - rewrite IH, dict_has_set.
    destruct (atom_eqb k k'), (dict_has k d); reflexivity.
Qed.

Lemma fold_set_get (k : atom) (kvs : list (atom * pyval)) (d : dict)
    (v : pyval) :
  dict_get k (fold_left (fun d kv => dict_set (fst kv) (snd kv) d) kvs d)
    = Some v ->
  dict_get k d = Some v \/
  exists kv, In kv kvs /\ atom_eqb k (fst kv) = true /\ snd kv = v.
Proof.
  revert d. induction kvs as [| [k' v'] kvs IH]; intros d; simpl; intros H.
  - auto.
  - destruct (IH _ H) as [Hd | (kv & Hkv & Hk & Hv)].
    + destruct (atom_eqb k k') eqn:E.
      * rewrite (dict_get_set_eq _ _ _ _ E) in Hd. injection Hd as <-.
        right. exists (k', v'). auto.
      * rewrite dict_get_set_other in Hd by exact E. auto.
    + right. exists kv. auto.
Qed.

Lemma mol_display_task_ids (self : Builder.t) (updated created : Z)
    (task_ids : list atom) (mol_id : pyval) (os : list pyval) (tt : dict) :
  distinct_fields self ->
  dict_get (AStr "task_ids")
           (mol_display self updated created task_ids mol_id os tt)
    = Some (PList (map PAtom task_ids)).
Proof.
  intros H. apply distinct_fields_neq in H. simpl in H.
  destruct H as [_ (_ & H & _)].
  cbv beta iota delta [mol_display dict_display fold_left fst snd].
  rewrite dict_get_set_other by reflexivity.
  rewrite dict_get_set_other by reflexivity.
  rewrite dict_get_set_other
    by (rewrite astr_eqb; apply String.eqb_neq; assumption).
  apply dict_get_set_same.
Qed.

Lemma mol_display_task_types (self : Builder.t) (updated created : Z)
    (task_ids : list atom) (mol_id : pyval) (os : list pyval) (tt : dict) :
  dict_get (AStr "task_types")
           (mol_display self updated created task_ids mol_id os tt)
    = Some (PDict tt).
Proof.
  cbv beta iota delta [mol_display dict_display fold_left fst snd].
  apply dict_get_set_same.
Qed.

Lemma ForallOrdPairs_filter {A} (R : A -> A -> Prop) (f : A -> bool)
    (l : list A) :
  ForallOrdPairs R l -> ForallOrdPairs R (filter f l).
Proof.
  induction 1 as [| x l Hx _ IH]; simpl; [constructor |].
  destruct (f x); [| exact IH]. constructor; [| exact IH].
  rewrite Forall_forall in *. intros y Hy. apply filter_In in Hy.
  apply Hx, Hy.
Qed.

(** No two elements of [distinct] are equal. *)
Lemma distinct_pairwise {A} (eqb : A -> A -> bool) (l : list A) :
  ForallOrdPairs (fun a b => eqb a b = false) (distinct eqb l).
Proof.
  induction l as [| x l IH]; simpl; constructor.
  - rewrite Forall_forall. intros y Hy. apply filter_In in Hy.
    destruct Hy as [_ Hy]. apply negb_true_iff in Hy. exact Hy.
  - apply ForallOrdPairs_filter, IH.
Qed.

(** X8. In a returned document (task store keyed by [task_id], display
    fields pairwise different, no rule writing the id field or [task_ids]),
    [task_ids] lists the ids of the tasks of the group, each once: every
    task of the group is listed, whether or not it yielded a candidate,
    nothing else is listed, and the id of the document is among them. *)
Theorem task_ids_list_the_group_once
    (task_type : pyval -> string) (self : Builder.t)
    (task_group : list Task.t) (mol : dict) :
  make_mol task_type self task_group = inr mol ->
  Builder.tasks_key self = "task_id" ->
  distinct_fields self ->
  untouched self (Builder.molecules_key self) ->
  untouched self "task_ids" ->
  exists i ids,
    dict_get (AStr (Builder.molecules_key self)) mol = Some (PAtom i) /\
    dict_get (AStr "task_ids") mol = Some (PList (map PAtom ids)) /\
    existsb (atom_eqb i) ids = true /\
    (forall t, In t task_group ->
               existsb (atom_eqb (Task.task_id t)) ids = true) /\
    (forall j, In j ids -> exists t, In t task_group /\ Task.task_id t = j) /\
    ForallOrdPairs (fun a b => atom_eqb a b = false) ids.
Proof.
  intros Hmol Hkey Hd Hu Hut.
  destruct (make_mol_id _ _ _ _ Hmol Hd Hu) as (i0 & Hi & Hget).
  destruct (mol_id_of_inr _ _ _ Hkey Hi) as (w & Hw & -> & _).
  apply make_mol_inr in Hmol. destruct Hmol as [Hmol _].
  apply merged_mol_of_inr in Hmol.
  destruct Hmol as (mol_id & best & updated & created &
                    _ & Hbest & _ & _ & Hfold).
  set (ids := distinct atom_eqb (map Task.task_id task_group)) in *.
  assert (Hcover : forall t, In t task_group ->
                             existsb (atom_eqb (Task.task_id t)) ids = true).
  { intros t Ht. unfold ids.
    rewrite (existsb_distinct _ atom_eqb atom_eqb_sym atom_eqb_trans).
    apply existsb_atom. exists (Task.task_id t).
    split; [apply in_map, Ht | apply atom_eqb_refl]. }
  exists (Cand.task_id w), ids.
  split; [exact Hget |]. split; [| split; [| split; [exact Hcover | split]]].
  - rewrite (merge_other _ _ _ _ _ _ _ Hfold).
    + apply mol_display_task_ids. exact Hd.
    + apply (untouched_best _ _ _ _ _ Hut Hbest).
  - destruct (first_min_least _ id_ltb id_ltb_trans id_ltb_negtrans
                id_ltb_irrefl _ _ Hw) as [Hin _].
    destruct (all_props_of_spec _ _ _ _ Hin) as (t & _ & Ht & _ & -> & _).
    apply Hcover, Ht.
  - intros j Hj. apply distinct_incl, in_map_iff in Hj.
    destruct Hj as (t & <- & Ht). eauto.
  - apply distinct_pairwise.
Qed.

(** X8 at the scenario of the three tasks. *)
Lemma task_ids_list_the_group_once_witness :
  exists i ids,
    dict_get (AStr "task_id") Examples.scenario_mol = Some (PAtom i) /\
    dict_get (AStr "task_ids") Examples.scenario_mol
      = Some (PList (map PAtom ids)) /\
    existsb (atom_eqb i) ids = true /\
    (forall t, In t [Examples.t1; Examples.t2; Examples.t3] ->
               existsb (atom_eqb (Task.task_id t)) ids = true) /\
    (forall j, In j ids ->
       exists t, In t [Examples.t1; Examples.t2; Examples.t3] /\
                 Task.task_id t = j) /\
    ForallOrdPairs (fun a b => atom_eqb a b = false) ids.
Proof.
  apply (task_ids_list_the_group_once Examples.classify
           (Examples.builder [Examples.energy_rule])
           [Examples.t1; Examples.t2; Examples.t3] Examples.scenario_mol).
  - vm_compute. reflexivity.
  - reflexivity.
  - unfold distinct_fields. simpl.
    repeat (constructor; [simpl; intuition discriminate |]). constructor.
  - intros r [<- | []]. reflexivity.
  - intros r [<- | []]. reflexivity.
Defined.

(** X9. In a returned document (no rule writing [task_types]), [task_types]
    has an entry exactly for the task ids of the candidates, giving the
    task type of a candidate with that id: a task of the group that yielded
    no candidate is listed in [task_ids] but has no entry here. *)
Theorem task_types_cover_the_candidates
    (task_type : pyval -> string) (self : Builder.t)
    (task_group : list Task.t) (mol : dict) :
  make_mol task_type self task_group = inr mol ->
  untouched self "task_types" ->
  exists task_types,
    dict_get (AStr "task_types") mol = Some (PDict task_types) /\
    (forall p, In p (all_props_of task_type self task_group) ->
       exists q, In q (all_props_of task_type self task_group) /\
                 atom_eqb (Cand.task_id p) (Cand.task_id q) = true /\
                 dict_get (Cand.task_id p) task_types
                 = Some (PAtom (AStr (Cand.task_type q)))) /\
    (forall i, dict_has i task_types = true ->
       exists p, In p (all_props_of task_type self task_group) /\
                 atom_eqb i (Cand.task_id p) = true).
Proof.
  intros Hmol Hu.
  apply make_mol_inr in Hmol. destruct Hmol as [Hmol _].
  apply merged_mol_of_inr in Hmol.
  destruct Hmol as (mol_id & best & updated & created &
                    _ & Hbest & _ & _ & Hfold).
  set (all_props := all_props_of task_type self task_group) in *.
  set (kvs := map (fun t => (Cand.task_id t, PAtom (AStr (Cand.task_type t))))
                  all_props) in *.
  exists (dict_display kvs). split; [| split].
  - rewrite (merge_other _ _ _ _ _ _ _ Hfold).
    + apply mol_display_task_types.
    + apply (untouched_best _ _ _ _ _ Hu Hbest).
  - intros p Hp.
    assert (Hhas : dict_has (Cand.task_id p) (dict_display kvs) = true).
    { unfold dict_display. rewrite fold_set_has. apply orb_true_iff. right.
      apply existsb_exists. eexists. split; [apply in_map, Hp |].
      apply atom_eqb_refl. }
    unfold dict_has in Hhas.
    destruct (dict_get (Cand.task_id p) (dict_display kvs)) as [v |] eqn:E;
      [| discriminate].
    destruct (fold_set_get _ _ _ _ E) as [Hd | (kv & Hkv & Hk & Hv)];
      [discriminate |].
    apply in_map_iff in Hkv. destruct Hkv as (q & <- & Hq).
    exists q. simpl in *. subst v. auto.
  - intros i Hi. unfold dict_display in Hi. rewrite fold_set_has in Hi.
    simpl in Hi. apply existsb_exists in Hi.
    destruct Hi as (kv & Hkv & Hk).
    apply in_map_iff in Hkv. destruct Hkv as (q & <- & Hq). eauto.
Qed.

(** X9 at a group of the three tasks and a task that yields no candidate:
    the id of that task is listed in [task_ids] and has no entry in
    [task_types]. *)
Lemma task_types_cover_the_candidates_witness :
  (exists task_types,
     dict_get (AStr "task_types") Examples.scenario_mol
       = Some (PDict task_types) /\
     (forall p, In p Examples.scenario_props ->
        exists q, In q Examples.scenario_props /\
                  atom_eqb (Cand.task_id p) (Cand.task_id q) = true /\
                  dict_get (Cand.task_id p) task_types
                  = Some (PAtom (AStr (Cand.task_type q)))) /\
     (forall i, dict_has i task_types = true ->
        exists p, In p Examples.scenario_props /\
                  atom_eqb i (Cand.task_id p) = true)) /\
  dict_get (AStr "task_ids") MoreExamples.unrated_mol
    = Some (PList [PAtom (AStr "eg-1"); PAtom (AStr "eg-9")]) /\
  dict_get (AStr "task_types") MoreExamples.unrated_mol
    = Some (PDict [(AStr "eg-1", PAtom (AStr "opt"))]).
Proof.
  split.
  - apply (task_types_cover_the_candidates Examples.classify
             (Examples.builder [Examples.energy_rule])
             [Examples.t1; Examples.t2; Examples.t3] Examples.scenario_mol).
    + vm_compute. reflexivity.
    + intros r [<- | []]. reflexivity.
  - split; reflexivity.
Defined.

(** ** Processing and storing *)

(** X10. When [process_item] returns, it returns one document per group of
    the grouper, in the order of the groups: the document that [make_mol]
    makes of the tasks at the indices of the group, taken among the tasks
    of an allowed type. The batch was not empty. *)
Theorem process_item_one_document_per_group
    (task_type : pyval -> string) (self : Builder.t)
    (grouper : list (nat * pyval) -> result (list (list (nat * pyval))))
    (tasks : list Task.t) (docs : list dict) :
  process_item task_type self grouper tasks = inr docs ->
  tasks <> [] /\
  exists groups,
    filter_and_group_tasks task_type self grouper tasks
      = inr (filter (in_allowed task_type self) tasks, groups) /\
    Forall2 (fun group doc =>
               exists task_group,
                 group_tasks (filter (in_allowed task_type self) tasks) group
                   = inr task_group /\
                 make_mol task_type self task_group = inr doc)
            groups docs /\
    List.length docs = List.length groups.
Proof.
  unfold process_item. intros H.
  apply bind_inr in H. destruct H as (t0 & H0 & H).
  split; [intros ->; discriminate |].
  apply bind_inr in H. destruct H as ([filtered groups] & Hfg & H).
  cbn [fst snd] in H.
  assert (Hf : filtered = filter (in_allowed task_type self) tasks).
  { unfold filter_and_group_tasks in Hfg.
    apply bind_inr in Hfg. destruct Hfg as (mols & _ & Hfg).
    apply bind_inr in Hfg. destruct Hfg as (gs & _ & Hfg).
    injection Hfg as <- _. reflexivity. }
  subst filtered. exists groups. split; [exact Hfg |].
  apply mapM_inr in H.
  assert (HF : Forall2
                 (fun group doc =>
                    exists task_group,
                      group_tasks (filter (in_allowed task_type self) tasks)
                                  group = inr task_group /\
                      make_mol task_type self task_group = inr doc)
                 groups docs).
  { clear Hfg. induction H as [| g d gs ds Hgd _ IH]; [constructor |].
    constructor; [| exact IH]. apply bind_inr in Hgd. exact Hgd. }
  split; [exact HF |]. symmetry. apply (Forall2_length HF).
Qed.

(** X10 at a batch of two tasks, each in a group of its own. *)
Lemma process_item_one_document_per_group_witness :
  [Examples.t1; Examples.t2] <> [] /\
  exists groups,
    filter_and_group_tasks Examples.classify
      (Examples.builder [Examples.energy_rule]) Examples.each_alone
      [Examples.t1; Examples.t2]
    = inr (filter (in_allowed Examples.classify
                     (Examples.builder [Examples.energy_rule]))
                  [Examples.t1; Examples.t2], groups) /\
    Forall2 (fun group doc =>
               exists task_group,
                 group_tasks
                   (filter (in_allowed Examples.classify
                              (Examples.builder [Examples.energy_rule]))
                           [Examples.t1; Examples.t2]) group
                   = inr task_group /\
                 make_mol Examples.classify
                   (Examples.builder [Examples.energy_rule]) task_group
                 = inr doc)
            groups MoreExamples.pair_docs /\
    List.length MoreExamples.pair_docs = List.length groups.
Proof.
  apply (process_item_one_document_per_group Examples.classify
           (Examples.builder [Examples.energy_rule]) Examples.each_alone
           [Examples.t1; Examples.t2] MoreExamples.pair_docs).
  vm_compute. reflexivity.
Defined.


Lemma valid_truthy (doc : dict) : valid doc = true -> truthy doc = true.
Proof. destruct doc; [discriminate | reflexivity]. Qed.

Lemma filter_ext_eq {A} (f g : A -> bool) (l : list A) :
  (forall x, f x = g x) -> filter f l = filter g l.
Proof.
  intros H. induction l as [| x l IH]; simpl; [reflexivity |].
  rewrite H, IH. reflexivity.
Qed.

Lemma update_targets_filter (timestamp : Z) (items : list (list dict)) :
  update_targets timestamp items
  = match map (stamped timestamp) (filter valid (List.concat items)) with
    | [] => None
    | batch => Some batch
    end.
Proof.
  unfold update_targets. fold (stamped timestamp).
  rewrite (filter_ext_eq (fun i => truthy i && valid i) valid).
  { destruct (filter valid (List.concat items)); reflexivity. }
  intros d. destruct (valid d) eqn:E.
  - rewrite (valid_truthy _ E). reflexivity.
  - apply andb_false_r.
Qed.

(** The store is not called exactly when no document is valid. *)
Lemma update_targets_None (timestamp : Z) (items : list (list dict)) :
  update_targets timestamp items = None <->
  forall d, In d (List.concat items) -> valid d = false.
Proof.
  rewrite update_targets_filter.
  destruct (filter valid (List.concat items)) as [| d0 l] eqn:E; simpl.
  - split; [| reflexivity]. intros _ d Hd.
    destruct (valid d) eqn:Hv; [| reflexivity].
    assert (Hin : In d (filter valid (List.concat items)))
      by (apply filter_In; auto).
    rewrite E in Hin. contradiction.
  - split; [discriminate |]. intros H. exfalso.
    assert (Hin : In d0 (filter valid (List.concat items)))
      by (rewrite E; left; reflexivity).
    apply filter_In in Hin. destruct Hin as [Hin Hv].
    rewrite (H d0 Hin) in Hv. discriminate.
Qed.

(** Every document that [process_item] returns comes out of [make_mol]. *)
Lemma process_item_docs_made
    (task_type : pyval -> string) (self : Builder.t)
    (grouper : list (nat * pyval) -> result (list (list (nat * pyval))))
    (tasks : list Task.t) (docs : list dict) (d : dict) :
  process_item task_type self grouper tasks = inr docs -> In d docs ->
  exists task_group, make_mol task_type self task_group = inr d.
Proof.
  unfold process_item. intros H Hd.
  apply bind_inr in H. destruct H as (t0 & _ & H).
  apply bind_inr in H. destruct H as (fg & _ & H).
  apply mapM_inr in H.
  destruct (Forall2_In_r _ _ _ d H Hd) as (g & _ & Hgd).
  apply bind_inr in Hgd. destruct Hgd as (tg & _ & Hmol). eauto.
Qed.

(** X12. [update_targets] hands to the store the valid documents of its
    input, in their order, each with the pass timestamp under [_bt] and
    its other entries as they were; the test for empty documents removes
    nothing that [valid] keeps. The store is not called exactly when no
    document is valid. *)
Theorem update_targets_stamps_the_valid_documents
    (timestamp : Z) (items : list (list dict)) :
  (update_targets timestamp items = None <->
   forall d, In d (List.concat items) -> valid d = false) /\
  (forall batch,
     update_targets timestamp items = Some batch ->
     batch = map (stamped timestamp) (filter valid (List.concat items)) /\
     forall d, In d batch ->
               dict_get (AStr "_bt") d = Some (PAtom (AInt timestamp)) /\
               valid d = true) /\
  (forall d k, atom_eqb k (AStr "_bt") = false ->
               dict_get k (stamped timestamp d) = dict_get k d).
Proof.
  split; [apply update_targets_None | split].
  - intros batch H. rewrite update_targets_filter in H.
    assert (Hb : batch = map (stamped timestamp)
                             (filter valid (List.concat items))).
    { destruct (map _ (filter valid (List.concat items)));
        [discriminate | congruence]. }
    split; [exact Hb |]. subst batch. intros d Hd.
    apply in_map_iff in Hd. destruct Hd as (d0 & <- & Hd0).
    apply filter_In in Hd0. destruct Hd0 as [_ Hv].
    split; [apply dict_get_set_same |].
    unfold stamped. rewrite valid_stamped. exact Hv.
  - intros d k Hk. apply dict_get_set_other. exact Hk.
Qed.

(** X12 at a document with a structure and a document without one. *)
Lemma update_targets_stamps_the_valid_documents_witness :
  update_targets 7 [[MoreExamples.without_structure];
                    [MoreExamples.with_structure]]
  = Some [stamped 7 MoreExamples.with_structure] /\
  [stamped 7 MoreExamples.with_structure]
  = map (stamped 7)
        (filter valid (List.concat [[MoreExamples.without_structure];
                                    [MoreExamples.with_structure]])) /\
  forall d, In d [stamped 7 MoreExamples.with_structure] ->
            dict_get (AStr "_bt") d = Some (PAtom (AInt 7)) /\
            valid d = true.
Proof.
  split; [reflexivity |].
  apply (proj1 (proj2 (update_targets_stamps_the_valid_documents 7
                         [[MoreExamples.without_structure];
                          [MoreExamples.with_structure]]))).
  reflexivity.
Defined.

(** X13. Whatever the grouper, no document that [process_item] returns is
    ever handed to the store: every such document comes out of [make_mol],
    which returns no document with the key [structure], so [update_targets]
    on the results of any number of batches does not call the store. *)
Theorem no_processed_document_is_stored
    (task_type : pyval -> string) (self : Builder.t)
    (grouper : list (nat * pyval) -> result (list (list (nat * pyval))))
    (batches : list (list Task.t)) (items : list (list dict))
    (timestamp : Z) :
  Forall2 (fun tasks docs =>
             process_item task_type self grouper tasks = inr docs)
          batches items ->
  update_targets timestamp items = None.
Proof.
  intros H.
  apply update_targets_None.
  intros d Hd. apply in_concat in Hd. destruct Hd as (docs & Hdocs & Hd).
  destruct (Forall2_In_r _ _ _ docs H Hdocs) as (tasks & _ & Hp).
  destruct (process_item_docs_made _ _ _ _ _ _ Hp Hd) as (tg & Hmol).
  apply (make_mol_has_no_structure _ _ _ _ Hmol).
Qed.

(** X13 at one batch of two tasks, each in a group of its own. *)
Lemma no_processed_document_is_stored_witness :
  MoreExamples.pair_docs <> [] /\
  update_targets 7 [MoreExamples.pair_docs] = None.
Proof.
  split; [vm_compute; discriminate |].
  apply (no_processed_document_is_stored Examples.classify
           (Examples.builder [Examples.energy_rule]) Examples.each_alone
           [[Examples.t1; Examples.t2]]).
  constructor; [| constructor]. vm_compute. reflexivity.
Defined.


(** ** The lists of tasks to process *)

Section Items.
Variable self : Builder.t.
Variable tasks : list Task.t.
Variable molecules : list Mol.t.

(** The tasks yielded for a formula. *)
Let system (f : string) : list Task.t :=
  filter (matches (tasks_q self f)) tasks.

Lemma system_In (f : string) (t : Task.t) :
  In t (system f) <->
  In t tasks /\ Task.state t = "successful" /\
  meets_except ["state"; "formula_pretty"] (Builder.query self) t /\
  Task.formula_pretty t = f.
Proof.
  unfold system. rewrite filter_In, tasks_q_matches. tauto.
Qed.

Lemma get_items_In (l : list Task.t) :
  In l (get_items self tasks molecules) <->
  exists f, In f (forms_to_update self tasks molecules) /\ l = system f.
Proof.
  unfold get_items. rewrite in_map_iff. split.
  - intros (f & <- & Hf). exists f. split; [exact Hf | reflexivity].
  - intros (f & Hf & ->). exists f. split; [reflexivity | exact Hf].
Qed.

Lemma forms_to_update_In (f : string) :
  In f (forms_to_update self tasks molecules) <->
  In f (updated_forms self tasks molecules) \/
  In f (to_process_forms self tasks molecules).
Proof.
  unfold forms_to_update.
  rewrite (distinct_In _ String.eqb String.eqb_eq), in_app_iff. tauto.
Qed.

(** A task that passes the caller's criteria but those on [state] is in
    the list of its formula once it is successful. *)
Lemma system_holds (t : Task.t) :
  In t tasks -> Task.state t = "successful" ->
  meets_except ["state"] (Builder.query self) t ->
  In t (system (Task.formula_pretty t)).
Proof.
  intros Ht Hs Hm. apply system_In. repeat split; try assumption.
  apply (meets_except_weaken ["state"]); [| exact Hm].
  intros k [<- | []]. left. reflexivity.
Qed.
End Items.

(** The formula of a successful task in the caller's scope that is new or
    updated is processed. *)
Lemma changed_task_form
    (self : Builder.t) (tasks : list Task.t) (molecules : list Mol.t)
    (t : Task.t) :
  unique_ids tasks -> Builder.tasks_lu_field self <> "state" ->
  In t tasks -> Task.state t = "successful" ->
  meets_except ["state"] (Builder.query self) t ->
  represented molecules (Task.task_id t) = false \/
  newer_than_store molecules t ->
  In (Task.formula_pretty t) (forms_to_update self tasks molecules).
Proof.
  intros Hu Hlu Ht Hs Hm Hchanged. apply forms_to_update_In.
  destruct Hchanged as [Hr | Hn].
  - right. apply (to_process_forms_spec self tasks molecules Hu).
    exists t. auto.
  - left. apply (updated_forms_spec self tasks molecules _ Hlu).
    exists t. repeat split; try assumption.
    apply (meets_except_weaken ["state"]); [| exact Hm].
    intros k [<- | []]. left. reflexivity.
Qed.

(** X14. When the tasks of the store have pairwise different ids and the
    [lu_field] of the task store is not [state]: every list that
    [get_items] yields holds exactly the tasks of one formula of the change
    set that are in state [successful] and pass the caller's criteria on
    the fields other than [state] and [formula_pretty], changed or not.
    When the caller's query has no criterion on the [lu_field], none of
    these lists is empty (so that [process_item] finds its first task).
    Every successful task that passes the caller's criteria on the fields
    other than [state], and that is not represented in the molecule store
    or was updated after all its documents, is in one of the lists,
    together with all such tasks of its formula. *)
Theorem get_items_yields_whole_systems
    (self : Builder.t) (tasks : list Task.t) (molecules : list Mol.t) :
  unique_ids tasks ->
  Builder.tasks_lu_field self <> "state" ->
  (forall l, In l (get_items self tasks molecules) ->
     exists f,
       In f (forms_to_update self tasks molecules) /\
       forall t, In t l <->
                 In t tasks /\ Task.state t = "successful" /\
                 meets_except ["state"; "formula_pretty"]
                              (Builder.query self) t /\
                 Task.formula_pretty t = f) /\
  (crit_get (Builder.tasks_lu_field self) (Builder.query self) = None ->
   forall l, In l (get_items self tasks molecules) -> l <> []) /\
  (forall t, In t tasks -> Task.state t = "successful" ->
     meets_except ["state"] (Builder.query self) t ->
     represented molecules (Task.task_id t) = false \/
     newer_than_store molecules t ->
     exists l, In l (get_items self tasks molecules) /\ In t l /\
               forall t', In t' tasks -> Task.state t' = "successful" ->
                          meets_except ["state"] (Builder.query self) t' ->
                          Task.formula_pretty t' = Task.formula_pretty t ->
                          In t' l).
Proof.
  intros Hu Hlu. split; [| split].
  - intros l Hl. apply get_items_In in Hl. destruct Hl as (f & Hf & ->).
    exists f. split; [exact Hf |]. intros t. apply system_In.
  - intros Hnone l Hl. apply get_items_In in Hl.
    destruct Hl as (f & Hf & ->).
    assert (Ht : exists t, In t tasks /\ Task.state t = "successful" /\
                           meets_except ["state"] (Builder.query self) t /\
                           Task.formula_pretty t = f).
    { apply forms_to_update_In in Hf. destruct Hf as [Hf | Hf].
      - apply (updated_forms_spec self tasks molecules _ Hlu) in Hf.
        destruct Hf as (t & Ht & Hs & Hm & _ & Hform).
        exists t. repeat split; try assumption.
        intros k test Hg Hk. apply (Hm k test Hg).
        intros [E | [E | []]]; [apply Hk; left; exact E |].
        rewrite <- E in Hg. congruence.
      - apply (to_process_forms_spec self tasks molecules Hu) in Hf.
        destruct Hf as (t & Ht & Hs & Hm & _ & Hform). eauto. }
    destruct Ht as (t & Ht & Hs & Hm & <-).
    assert (Hin : In t (filter (matches (tasks_q self (Task.formula_pretty t)))
                               tasks))
      by apply (system_holds self tasks t Ht Hs Hm).
    intros E. rewrite E in Hin. contradiction.
  - intros t Ht Hs Hm Hchanged.
    exists (filter (matches (tasks_q self (Task.formula_pretty t))) tasks).
    split; [| split].
    + apply get_items_In. exists (Task.formula_pretty t).
      split; [| reflexivity].
      apply (changed_task_form _ _ _ _ Hu Hlu Ht Hs Hm Hchanged).
    + apply (system_holds self tasks t Ht Hs Hm).
    + intros t' Ht' Hs' Hm' Hf. rewrite <- Hf.
      apply (system_holds self tasks t' Ht' Hs' Hm').
Qed.

(** X14 at a caller who asks for the tasks of type [opt]: task 2 was
    updated after the store, task 3 is new but not of that type. *)
Lemma get_items_yields_whole_systems_witness :
  get_items MoreExamples.opt_builder MoreExamples.early_tasks
            MoreExamples.early_molecules
  = [[Examples.task (AInt 2) "opt" "CO2" 40 (-7)]] /\
  forall l, In l (get_items MoreExamples.opt_builder
                            MoreExamples.early_tasks
                            MoreExamples.early_molecules) -> l <> [].
Proof.
  split; [reflexivity |].
  assert (Hu : unique_ids MoreExamples.early_tasks).
  { intros t1 t2 H1 H2. simpl in H1, H2.
    destruct H1 as [<- | [<- | [<- | []]]],
             H2 as [<- | [<- | [<- | []]]];
      intros H; try reflexivity; vm_compute in H; discriminate. }
  assert (Hlu : Builder.tasks_lu_field MoreExamples.opt_builder <> "state")
    by (vm_compute; discriminate).
  apply (proj1 (proj2 (get_items_yields_whole_systems
                         MoreExamples.opt_builder MoreExamples.early_tasks
                         MoreExamples.early_molecules Hu Hlu))).
  reflexivity.
Defined.

(** X15. When the tasks of the store have pairwise different ids and the
    [lu_field] of the task store is not [state], [get_items] yields
    nothing exactly when nothing is new and nothing is updated: every
    successful task that passes the caller's criteria on the fields other
    than [state] is represented in the molecule store, and no successful
    task that passes the caller's criteria on the fields other than
    [state] and the [lu_field] was updated after all the documents of the
    store. *)
Theorem get_items_empty_when_nothing_changed
    (self : Builder.t) (tasks : list Task.t) (molecules : list Mol.t) :
  unique_ids tasks ->
  Builder.tasks_lu_field self <> "state" ->
  (get_items self tasks molecules = [] <->
   (forall t, In t tasks -> Task.state t = "successful" ->
              meets_except ["state"] (Builder.query self) t ->
              represented molecules (Task.task_id t) = true) /\
   (forall t, In t tasks -> Task.state t = "successful" ->
              meets_except ["state"; Builder.tasks_lu_field self]
                           (Builder.query self) t ->
              ~ newer_than_store molecules t)).
Proof.
  intros Hu Hlu. split.
  - intros He. apply map_eq_nil in He. split.
    + intros t Ht Hs Hm.
      destruct (represented molecules (Task.task_id t)) eqn:Er;
        [reflexivity | exfalso].
      assert (Hf : In (Task.formula_pretty t)
                      (forms_to_update self tasks molecules)).
      { apply forms_to_update_In. right.
        apply (to_process_forms_spec self tasks molecules Hu).
        exists t. auto. }
      rewrite He in Hf. contradiction.
    + intros t Ht Hs Hm Hn.
      assert (Hf : In (Task.formula_pretty t)
                      (forms_to_update self tasks molecules)).
      { apply forms_to_update_In. left.
        apply (updated_forms_spec self tasks molecules _ Hlu).
        exists t. auto. }
      rewrite He in Hf. contradiction.
  - intros [Hnew Hupd]. unfold get_items.
    destruct (forms_to_update self tasks molecules) as [| f fs] eqn:E;
      [reflexivity | exfalso].
    assert (Hf : In f (forms_to_update self tasks molecules))
      by (rewrite E; left; reflexivity).
    apply forms_to_update_In in Hf. destruct Hf as [Hf | Hf].
    + apply (updated_forms_spec self tasks molecules _ Hlu) in Hf.
      destruct Hf as (t & Ht & Hs & Hm & Hn & _).
      apply (Hupd t Ht Hs Hm Hn).
    + apply (to_process_forms_spec self tasks molecules Hu) in Hf.
      destruct Hf as (t & Ht & Hs & Hm & Hr & _).
      rewrite (Hnew t Ht Hs Hm) in Hr. discriminate.
Qed.

(** X15 at the store of four tasks, all of them represented in a molecule
    store whose latest document is as recent as the latest task. *)
Lemma get_items_empty_when_nothing_changed_witness :
  get_items (Examples.builder []) Examples.stored_tasks
            MoreExamples.settled_molecules = [] /\
  (forall t, In t Examples.stored_tasks -> Task.state t = "successful" ->
             meets_except ["state"] (Builder.query (Examples.builder [])) t ->
             represented MoreExamples.settled_molecules (Task.task_id t)
             = true) /\
  (forall t, In t Examples.stored_tasks -> Task.state t = "successful" ->
             meets_except
               ["state"; Builder.tasks_lu_field (Examples.builder [])]
               (Builder.query (Examples.builder [])) t ->
             ~ newer_than_store MoreExamples.settled_molecules t).
Proof.
  split; [reflexivity |].
  apply (proj1 (get_items_empty_when_nothing_changed (Examples.builder [])
                  Examples.stored_tasks MoreExamples.settled_molecules
                  ltac:(intros t1 t2 H1 H2; simpl in H1, H2;
                        destruct H1 as [<- | [<- | [<- | [<- | []]]]],
                                 H2 as [<- | [<- | [<- | [<- | []]]]];
                        intros H; try reflexivity; vm_compute in H;
                        discriminate)
                  ltac:(vm_compute; discriminate))).
  reflexivity.
Defined.

(** ** Structure metadata *)

(** A sorted list without repetition is strictly sorted. *)
Lemma sorted_nodup_strict (l : list string) :
  StronglySorted (fun a b => String.ltb b a = false) l -> NoDup l ->
  StronglySorted (fun a b => String.ltb a b = true) l.
Proof.
  induction 1 as [| x l _ IH Hx]; intros Hnd; constructor.
  - apply IH. inversion Hnd. assumption.
  - inversion Hnd as [| ? ? Hnot _]. subst.
    rewrite Forall_forall in *. intros y Hy.
    destruct (string_trichotomy x y) as [H | [-> | H]].
    + exact H.
    + contradiction.
    + rewrite (Hx y Hy) in H. discriminate.
Qed.

(** Two strictly sorted lists with the same elements are the same list. *)
Lemma strict_sorted_unique (l l' : list string) :
  StronglySorted (fun a b => String.ltb a b = true) l ->
  StronglySorted (fun a b => String.ltb a b = true) l' ->
  (forall s, In s l <-> In s l') -> l = l'.
Proof.
  intros Hl. revert l'.
  induction Hl as [| x l Hs IH Hx]; intros l' Hl' Hsame.
  - destruct l' as [| y l']; [reflexivity |].
    destruct (proj2 (Hsame y) (or_introl eq_refl)).
  - destruct Hl' as [| y l' Hs' Hy].
    + destruct (proj1 (Hsame x) (or_introl eq_refl)).
    + rewrite Forall_forall in Hx, Hy.
      assert (Hxy : x = y).
      { destruct (proj1 (Hsame x) (or_introl eq_refl)) as [E | Hin];
          [auto |].
        destruct (proj2 (Hsame y) (or_introl eq_refl)) as [E | Hin'];
          [auto |].
        pose proof (string_ltb_asym _ _ (Hx y Hin')) as H.
        rewrite (Hy x Hin) in H. discriminate. }
      subst y. f_equal. apply IH; [exact Hs' |].
      intros s. split; intros Hin.
      * destruct (proj1 (Hsame s) (or_intror Hin)) as [<- | H]; [| exact H].
        specialize (Hx _ Hin). rewrite string_ltb_irrefl in Hx. discriminate.
      * destruct (proj2 (Hsame s) (or_intror Hin)) as [<- | H]; [| exact H].
        specialize (Hy _ Hin). rewrite string_ltb_irrefl in Hy. discriminate.
Qed.

Lemma elsyms_In (structure : Structure.t) (s : string) :
  In s (elsyms structure) <-> In s (Structure.symbols structure).
Proof.
  unfold elsyms. rewrite sorted_In.
  apply (distinct_In _ String.eqb String.eqb_eq).
Qed.

Lemma elsyms_strict (structure : Structure.t) :
  StronglySorted (fun a b => String.ltb a b = true) (elsyms structure).
Proof.
  apply sorted_nodup_strict.
  - apply (sorted_sorted _ String.ltb string_ltb_trans string_ltb_negtrans
             string_ltb_irrefl).
  - apply (Permutation_NoDup (Permutation_sym (sorted_perm _ String.ltb _))).
    apply (distinct_NoDup _ String.eqb String.eqb_eq).
Qed.

(** X16. [structure_metadata] lists as [elements] the symbols of the
    composition in strictly ascending order, each once, and as [nelements]
    their number. The list depends only on which symbols occur: two
    structures with the same symbols, in any order and number, get the same
    [elements], [nelements] and [chemsys]. *)
Theorem structure_metadata_elements_are_canonical (structure : Structure.t) :
  dict_get (AStr "elements") (structure_metadata structure)
    = Some (PList (map (fun e => PAtom (AStr e)) (elsyms structure))) /\
  dict_get (AStr "nelements") (structure_metadata structure)
    = Some (PAtom (AInt (Z.of_nat (List.length (elsyms structure))))) /\
  dict_get (AStr "chemsys") (structure_metadata structure)
    = Some (PAtom (AStr (join "-" (elsyms structure)))) /\
  StronglySorted (fun a b => String.ltb a b = true) (elsyms structure) /\
  NoDup (elsyms structure) /\
  (forall s, In s (elsyms structure) <-> In s (Structure.symbols structure)) /\
  (forall structure',
     (forall s, In s (Structure.symbols structure') <->
                In s (Structure.symbols structure)) ->
     dict_get (AStr "elements") (structure_metadata structure')
       = dict_get (AStr "elements") (structure_metadata structure) /\
     dict_get (AStr "nelements") (structure_metadata structure')
       = dict_get (AStr "nelements") (structure_metadata structure) /\
     dict_get (AStr "chemsys") (structure_metadata structure')
       = dict_get (AStr "chemsys") (structure_metadata structure)).
Proof.
  assert (Hget : forall st,
             dict_get (AStr "elements") (structure_metadata st)
               = Some (PList (map (fun e => PAtom (AStr e)) (elsyms st))) /\
             dict_get (AStr "nelements") (structure_metadata st)
               = Some (PAtom (AInt (Z.of_nat (List.length (elsyms st))))) /\
             dict_get (AStr "chemsys") (structure_metadata st)
               = Some (PAtom (AStr (join "-" (elsyms st))))).
  { intros st. repeat split; reflexivity. }
  destruct (Hget structure) as (He & Hn & Hc).
  split; [exact He |]. split; [exact Hn |]. split; [exact Hc |].
  split; [apply elsyms_strict |]. split; [| split; [apply elsyms_In |]].
  - apply (Permutation_NoDup (Permutation_sym (sorted_perm _ String.ltb _))).
    apply (distinct_NoDup _ String.eqb String.eqb_eq).
  - intros st' Hsame.
    assert (E : elsyms st' = elsyms structure).
    { apply strict_sorted_unique; try apply elsyms_strict.
      intros s. rewrite !elsyms_In. apply Hsame. }
    destruct (Hget st') as (He' & Hn' & Hc').
    rewrite He', Hn', Hc', He, Hn, Hc, E. auto.
Qed.

(** X16 at two structures of hydrogen and oxygen. *)
Lemma structure_metadata_elements_are_canonical_witness :
  dict_get (AStr "elements") (structure_metadata MoreExamples.peroxide)
    = dict_get (AStr "elements") (structure_metadata MoreExamples.water) /\
  dict_get (AStr "nelements") (structure_metadata MoreExamples.peroxide)
    = dict_get (AStr "nelements") (structure_metadata MoreExamples.water) /\
  dict_get (AStr "chemsys") (structure_metadata MoreExamples.peroxide)
    = dict_get (AStr "chemsys") (structure_metadata MoreExamples.water).
Proof.
  destruct (structure_metadata_elements_are_canonical MoreExamples.water)
    as (_ & _ & _ & _ & _ & _ & H).
  apply (H MoreExamples.peroxide).
  intros s. simpl. intuition.
Defined.

Lemma join_cons (sep s s' : string) (l : list string) :
  join sep (s :: s' :: l) = (s ++ sep ++ join sep (s' :: l))%string.
Proof. reflexivity. Qed.

(** Joining names that hold no dash with dashes, then splitting at the
    dashes, gives the names back. *)
Lemma split_join (l : list string) :
  l <> [] -> (forall s, In s l -> contains "-" s = false) ->
  split "-" (join "-" l) = l.
Proof.
  induction l as [| s l IH]; [congruence |]. intros _ H.
  destruct l as [| s' l].
  - apply split_plain. apply H. left. reflexivity.
  - rewrite join_cons.
    change ("-" ++ join "-" (s' :: l))%string
      with (String "-" (join "-" (s' :: l))).
    rewrite split_app, split_plain by (apply H; left; reflexivity).
    rewrite IH; [reflexivity | discriminate |].
    intros x Hx. apply H. right. exact Hx.
Qed.

(** X17. For a structure that has elements, none of whose symbols holds a
    dash, [chemsys] splits at its dashes into exactly the [elements] of the
    metadata. *)
Theorem chemsys_splits_into_the_elements (structure : Structure.t) :
  Structure.symbols structure <> [] ->
  (forall s, In s (Structure.symbols structure) -> contains "-" s = false) ->
  exists chemsys,
    dict_get (AStr "chemsys") (structure_metadata structure)
      = Some (PAtom (AStr chemsys)) /\
    dict_get (AStr "elements") (structure_metadata structure)
      = Some (PList (map (fun e => PAtom (AStr e)) (split "-" chemsys))).
Proof.
  intros Hne Hdash. exists (join "-" (elsyms structure)).
  split; [reflexivity |].
  rewrite split_join.
  - reflexivity.
  - destruct (Structure.symbols structure) as [| s l] eqn:E; [congruence |].
    intros En. assert (Hin : In s (elsyms structure)).
    { apply elsyms_In. rewrite E. left. reflexivity. }
    rewrite En in Hin. contradiction.
  - intros s Hs. apply Hdash. apply elsyms_In. exact Hs.
Qed.

(** X17 at a water molecule. *)
Lemma chemsys_splits_into_the_elements_witness :
  dict_get (AStr "chemsys") (structure_metadata MoreExamples.water)
    = Some (PAtom (AStr "H-O")) /\
  exists chemsys,
    dict_get (AStr "chemsys") (structure_metadata MoreExamples.water)
      = Some (PAtom (AStr chemsys)) /\
    dict_get (AStr "elements") (structure_metadata MoreExamples.water)
      = Some (PList (map (fun e => PAtom (AStr e)) (split "-" chemsys))).
Proof.
  split; [reflexivity |].
  apply (chemsys_splits_into_the_elements MoreExamples.water).
  - discriminate.
  - intros s [<- | [<- | [<- | []]]]; reflexivity.
Defined.

(** ** Independence of the order of the tasks *)

(** Two sorted reorderings of one list are the same list, when elements
    that are each at least the other are equal. *)
Lemma sorted_perm_unique {A} (R : A -> A -> Prop) (l l' : list A) :
  StronglySorted R l -> StronglySorted R l' -> Permutation l l' ->
  (forall a b, In a l -> In b l -> R a b -> R b a -> a = b) ->
  l = l'.
Proof.
  intros Hl. revert l'.
  induction Hl as [| x l Hs IH Hx]; intros l' Hl' HP Hanti.
  - apply Permutation_nil in HP. auto.
  - destruct Hl' as [| y l' Hs' Hy].
    + apply Permutation_sym, Permutation_nil in HP. discriminate.
    + rewrite Forall_forall in Hx, Hy.
      assert (Hxy : x = y).
      { assert (Hx' : In x (y :: l'))
          by (apply (Permutation_in _ HP); left; reflexivity).
        assert (Hy' : In y (x :: l))
          by (apply (Permutation_in _ (Permutation_sym HP)); left;
              reflexivity).
        destruct Hx' as [E | Hx']; [auto |].
        destruct Hy' as [E | Hy']; [auto |].
        apply Hanti; [left; reflexivity | right; exact Hy' | auto | auto]. }
      subst y. f_equal. apply IH; [exact Hs' | |].
      * apply (Permutation_cons_inv HP).
      * intros a b Ha Hb. apply Hanti; right; assumption.
Qed.

Lemma outranks_antisym (a b : Cand.t) :
  outranks a b -> outranks b a -> ties a b.
Proof. unfold outranks, ties. lia. Qed.

Lemma filter_perm {A} (f : A -> bool) (l l' : list A) :
  Permutation l l' -> Permutation (filter f l) (filter f l').
Proof.
  induction 1 as [| x l l' _ IH | x y l | l l' l'' _ IH1 _ IH2]; simpl.
  - constructor.
  - destruct (f x); [apply perm_skip |]; exact IH.
  - destruct (f x), (f y); try apply Permutation_refl. apply perm_swap.
  - eapply perm_trans; eassumption.
Qed.

(** The ranking of the candidates of one field does not depend on their
    order, without ties. *)
Lemma sorted_by_rank_perm (props props' : list Cand.t) :
  Permutation props props' ->
  (forall a b, In a props -> In b props -> ties a b -> a = b) ->
  sorted_by_rank props' = sorted_by_rank props.
Proof.
  intros HP Hties.
  destruct (sorted_by_rank_spec props) as [Hp Hs].
  destruct (sorted_by_rank_spec props') as [Hp' Hs'].
  symmetry. apply (sorted_perm_unique outranks); try assumption.
  - eapply perm_trans; [exact Hp |].
    eapply perm_trans; [exact HP |]. apply Permutation_sym, Hp'.
  - intros a b Ha Hb Hab Hba.
    apply Hties; [| | apply outranks_antisym; assumption];
      apply (Permutation_in _ Hp); assumption.
Qed.

Lemma winner_perm (props props' : list Cand.t) :
  Permutation props props' ->
  (forall a b, In a props -> In b props -> ties a b -> a = b) ->
  winner props' = winner props /\
  forall w, resolved props' w = resolved props w.
Proof.
  intros HP Hties. pose proof (sorted_by_rank_perm _ _ HP Hties) as E.
  split.
  - rewrite <- !hd_sorted_by_rank, E. reflexivity.
  - intros w. unfold resolved. rewrite E. reflexivity.
Qed.

(** The resolved properties are those of the winners of their fields. *)
Lemma best_props_by_keys (all_props best : list Cand.t) :
  best_props all_props = inr best ->
  best = map (fun k => match winner (field_props all_props k) with
                       | Some w => resolved (field_props all_props k) w
                       | None => Cand.Build_t (PAtom ANone) "" ANone 0 false
                                              false 0 0 k
                       end)
             (map Cand.molecules_key best).
Proof.
  intros Hbest.
  destruct (best_props_spec all_props) as (best' & Hbest' & _ & HR & _).
  assert (best' = best) by congruence. subst best'.
  rewrite map_map. rewrite <- (map_id best) at 1.
  apply map_ext_in. intros b Hb. destruct (HR b Hb) as (w & -> & Heq).
  exact Heq.
Qed.

(** X18. The resolved properties do not depend on the order of the
    candidates, as long as no two different candidates of one target field
    have both the same quality score and the same energy: a reordered
    candidate list resolves to the same properties, in the same order, with
    the same values, aggregated lists included. *)
Theorem best_props_independent_of_order (all_props all_props' : list Cand.t) :
  Permutation all_props all_props' ->
  no_ties all_props ->
  best_props all_props' = best_props all_props.
Proof.
  intros HP Hties.
  destruct (best_props_fields all_props) as (best & Hbest & Hs & _ & Hk).
  destruct (best_props_fields all_props') as (best' & Hbest' & Hs' & _ & Hk').
  rewrite Hbest, Hbest'. f_equal.
  assert (Hfield : forall k, Permutation (field_props all_props k)
                                         (field_props all_props' k)).
  { intros k. apply filter_perm, HP. }
  assert (Hkeys : map Cand.molecules_key best'
                  = map Cand.molecules_key best).
  { apply strict_sorted_unique; try assumption.
    intros k. rewrite Hk, Hk'. pose proof (Hfield k) as HPk.
    split; intros H E; apply H; rewrite E in HPk.
    - apply Permutation_nil in HPk. exact HPk.
    - apply Permutation_sym, Permutation_nil in HPk. exact HPk. }
  rewrite (best_props_by_keys _ _ Hbest), (best_props_by_keys _ _ Hbest').
  rewrite Hkeys. apply map_ext. intros k.
  destruct (winner_perm _ _ (Hfield k)) as [Hw Hr].
  { intros a b Ha Hb. apply field_props_key in Ha, Hb.
    destruct Ha as [Ha Hka], Hb as [Hb Hkb].
    apply Hties; congruence. }
  rewrite Hw. destruct (winner (field_props all_props k)); [apply Hr | auto].
Qed.

(** X18 at the three-task scenario and its reversal. *)
Lemma best_props_independent_of_order_witness :
  best_props (rev Examples.scenario_props)
  = best_props Examples.scenario_props.
Proof.
  apply best_props_independent_of_order.
  - apply Permutation_rev.
  - intros a b Ha Hb _ [Hq He]. vm_compute in Ha, Hb.
    destruct Ha as [<- | [<- | [<- | []]]], Hb as [<- | [<- | [<- | []]]];
      try reflexivity; vm_compute in Hq, He; discriminate.
Defined.

(** ** The key field of the task store *)

Lemma item_unknown (k : string) (p : Cand.t) :
  ~ In k prop_keys -> Cand.item k p = inl KeyError.
Proof.
  intros H. unfold Cand.item.
  repeat (match goal with
          | |- context [String.eqb k ?s] =>
              destruct (String.eqb k s) eqn:E;
              [apply String.eqb_eq in E; exfalso; apply H; rewrite E;
               unfold prop_keys; simpl; auto 12 | clear E]
          end).
  reflexivity.
Qed.

(** X19. The molecule id is read off the candidates under the name of the
    key field of the task store. When that name is none of the nine keys
    of a candidate, [make_mol] raises [KeyError] for every group that has
    a candidate and whose task ids can be sorted. *)
Theorem unknown_store_key_raises_KeyError
    (task_type : pyval -> string) (self : Builder.t)
    (task_group : list Task.t) (s : list Cand.t) :
  ~ In (Builder.tasks_key self) prop_keys ->
  all_props_of task_type self task_group <> [] ->
  sorted_by_ID (all_props_of task_type self task_group) = inr s ->
  make_mol task_type self task_group = inl KeyError.
Proof.
  intros Hk Hne Hs.
  unfold make_mol, merged_mol, merged_mol_of, mol_id_of. rewrite Hs.
  cbn [bind].
  assert (Hlen : List.length s
                 = List.length (all_props_of task_type self task_group)).
  { apply sorted_by_ID_inr in Hs. destruct Hs as (_ & _ & ->).
    apply Permutation_length, sorted_perm. }
  destruct s as [| p s'].
  - destruct (all_props_of task_type self task_group);
      [congruence | discriminate].
  - cbn [mapM]. rewrite (item_unknown _ p Hk). reflexivity.
Qed.

(** X19 at a task store keyed by [calc_id]. *)
Lemma unknown_store_key_raises_KeyError_witness :
  make_mol Examples.classify MoreExamples.renamed_builder
           [Examples.t1; Examples.t2] = inl KeyError.
Proof.
  eapply (unknown_store_key_raises_KeyError Examples.classify
            MoreExamples.renamed_builder [Examples.t1; Examples.t2]).
  - vm_compute. intuition discriminate.
  - vm_compute. discriminate.
  - vm_compute. reflexivity.
Defined.

(** ** The tasks of a group *)

(** X20. The tasks of a group are found by the indices of its structures
    among the tasks of an allowed type. When every index is below the
    number of those tasks, [group_tasks] returns one task per structure,
    in the order of the group, each of them a task of the batch of an
    allowed type; when some index is not, it raises [IndexError]. *)
Theorem group_tasks_within_bounds
    (task_type : pyval -> string) (self : Builder.t)
    (tasks : list Task.t) (group : list (nat * pyval)) :
  ((forall s, In s group ->
      (fst s < List.length (filter (in_allowed task_type self) tasks))%nat) ->
   exists task_group,
     group_tasks (filter (in_allowed task_type self) tasks) group
       = inr task_group /\
     Forall2 (fun s t =>
                nth_error (filter (in_allowed task_type self) tasks) (fst s)
                  = Some t)
             group task_group /\
     forall t, In t task_group ->
               In t tasks /\ in_allowed task_type self t = true) /\
  ((exists s, In s group /\
      (List.length (filter (in_allowed task_type self) tasks) <= fst s)%nat) ->
   group_tasks (filter (in_allowed task_type self) tasks) group
     = inl IndexError).
Proof.
  set (filtered := filter (in_allowed task_type self) tasks).
  unfold group_tasks. split.
  - intros Hall. induction group as [| s group IH].
    + exists []. split; [reflexivity |]. split; [constructor |].
      intros t [].
    + destruct IH as (tg & Htg & HF & Hin).
      { intros s' Hs'. apply Hall. right. exact Hs'. }
      destruct (nth_error filtered (fst s)) as [t |] eqn:E.
      * exists (t :: tg). cbn [mapM]. rewrite E. cbn [bind ret].
        rewrite Htg. cbn [bind ret]. split; [reflexivity |].
        split; [constructor; assumption |].
        intros t' [<- | Ht']; [| auto].
        apply nth_error_In in E. apply filter_In in E. exact E.
      * apply nth_error_None in E.
        assert (fst s < List.length filtered)%nat
          by (apply Hall; left; reflexivity).
        lia.
  - intros (s & Hs & Hout). induction group as [| s0 group IH].
    + contradiction.
    + cbn [mapM]. destruct (nth_error filtered (fst s0)) as [t |] eqn:E;
        [| reflexivity].
      cbn [bind ret]. destruct Hs as [-> | Hs].
      * apply nth_error_None in Hout. congruence.
      * rewrite (IH Hs). reflexivity.
Qed.

(** X20 at two allowed tasks: a group of both, and a group with an index
    out of range. *)
Lemma group_tasks_within_bounds_witness :
  group_tasks (filter (in_allowed Examples.classify
                         (Examples.builder [Examples.energy_rule]))
                      [Examples.t1; MoreExamples.unrated; Examples.t2])
              [(1%nat, PAtom ANone); (0%nat, PAtom ANone)]
  = inr [Examples.t2; Examples.t1] /\
  group_tasks (filter (in_allowed Examples.classify
                         (Examples.builder [Examples.energy_rule]))
                      [Examples.t1; MoreExamples.unrated; Examples.t2])
              [(0%nat, PAtom ANone); (2%nat, PAtom ANone)]
  = inl IndexError.
Proof.
  split; [reflexivity |].
  apply (proj2 (group_tasks_within_bounds Examples.classify
                  (Examples.builder [Examples.energy_rule])
                  [Examples.t1; MoreExamples.unrated; Examples.t2]
                  [(0%nat, PAtom ANone); (2%nat, PAtom ANone)])).
  exists (2%nat, PAtom ANone). split; [right; left; reflexivity |].
  vm_compute. lia.
Defined.
